(** * The operation compiler of oapi-codegen (pkg/codegen, operations.go)

    A shallow embedding of the stage that walks a parsed OpenAPI document and
    produces the flat list of [OperationDefinition] records, together with
    the properties of it that the design document states.

    Conventions of the embedding:
    - a Go [string] is a [string] (a sequence of bytes);
    - a Go [map[string]V] is a [gmap string V]; the order in which [range]
      visits a map is not specified by Go, so every such loop goes through an
      explicit iteration oracle [range_];
    - a function that returns [(T, error)] or that can panic returns a
      [result T];
    - a pointer that the code tests against [nil] is an [option]. *)

From Stdlib Require Import ZArith Ascii String List Lia.
From stdpp Require Import base option list sorting gmap strings.

#[local] Set Warnings "-register-all,-clear-no-such-hyp".

Local Open Scope string_scope.
Local Open Scope Z_scope.
Local Open Scope list_scope.

(** ** Results: a value, a returned [error], or a panic *)

Inductive result (A : Type) : Type :=
| Ok (a : A)
| Err (msg : string)
| Panic (msg : string).
Arguments Ok {A} a.
Arguments Err {A} msg.
Arguments Panic {A} msg.

Definition rbind {A B} (r : result A) (k : A -> result B) : result B :=
  match r with
  | Ok a => k a
  | Err m => Err m
  | Panic m => Panic m
  end.

#[global] Instance result_ret : MRet result := fun A a => Ok a.
#[global] Instance result_bind : MBind result := fun A B k r => rbind r k.

(** [c] with the error it may return rewritten by [wrap], as in
    [if err != nil { return nil, fmt.Errorf(..., err) }]. *)
Definition wrapErr {A} (wrap : string -> string) (c : result A) : result A :=
  match c with
  | Err m => Err (wrap m)
  | r => r
  end.

(** A loop that threads an accumulator and stops at the first failure. *)
Fixpoint foldM {A S} (f : S -> A -> result S) (l : list A) (s : S) : result S :=
  match l with
  | [] => Ok s
  | x :: l' => s' ← f s x; foldM f l' s'
  end.

Definition is_ok {A} (r : result A) : bool :=
  match r with Ok _ => true | _ => false end.

(** ** Byte strings: the functions of Go's [strings] package that are used *)

Module GoStrings.

Definition is_upper (c : ascii) : bool :=
  let n := N_of_ascii c in (65 <=? n)%N && (n <=? 90)%N.
Definition is_lower (c : ascii) : bool :=
  let n := N_of_ascii c in (97 <=? n)%N && (n <=? 122)%N.
Definition is_digit (c : ascii) : bool :=
  let n := N_of_ascii c in (48 <=? n)%N && (n <=? 57)%N.

Definition to_lower_ascii (c : ascii) : ascii :=
  if is_upper c then ascii_of_N (N_of_ascii c + 32) else c.
Definition to_upper_ascii (c : ascii) : ascii :=
  if is_lower c then ascii_of_N (N_of_ascii c - 32) else c.

(** [strings.ToLower] on ASCII strings: the bytes of the letters [A] to
    [Z] are lowered and every other byte is kept.  Go also lowers the
    upper-case letters outside ASCII; the method names that reach this
    function are ASCII. *)
Fixpoint ToLower (s : string) : string :=
  match s with
  | EmptyString => EmptyString
  | String c s' => String (to_lower_ascii c) (ToLower s')
  end.

(** [strings.Split(s, sep)] for a separator of one byte: the pieces
    between the occurrences of [sep]; never the empty list. *)
Fixpoint Split_go (sep : ascii) (cur : string) (s : string) : list string :=
  match s with
  | EmptyString => [String.rev cur]
  | String c s' =>
      if Ascii.eqb c sep then String.rev cur :: Split_go sep EmptyString s'
      else Split_go sep (String c cur) s'
  end.
Definition Split (s : string) (sep : ascii) : list string :=
  Split_go sep EmptyString s.

(** [strings.HasPrefix(s, prefix)]. *)
Definition HasPrefix (s prefix : string) : bool := String.prefix prefix s.

(** [strings.ContainsRune(s, c)] for a byte. *)
Fixpoint ContainsRune (s : string) (c : ascii) : bool :=
  match s with
  | EmptyString => false
  | String d s' => Ascii.eqb c d || ContainsRune s' c
  end.

Fixpoint trim_left (s : string) : string :=
  match s with
  | String " " s' => trim_left s'
  | _ => s
  end.
(** [strings.Trim(s, " ")]. *)
Definition Trim_space (s : string) : string :=
  String.rev (trim_left (String.rev (trim_left s))).

(** [len(s)], a Go [int]. *)
Definition len (s : string) : Z := Z.of_nat (String.length s).

(** [s[i]]; [None] is the run-time panic "index out of range". *)
Definition byte_at (s : string) (i : Z) : option ascii :=
  if i <? 0 then None else String.get (Z.to_nat i) s.

End GoStrings.
Import GoStrings.

(** [xs[i]] on a slice; out of range is a run-time panic. *)
Definition index {A} (xs : list A) (i : nat) : result A :=
  match xs !! i with
  | Some x => Ok x
  | None => Panic "index out of range"
  end.

(** ** The parsed document (package [openapi3] of kin-openapi)

    Only the fields that the compiler reads are kept.  References are
    already resolved by the loader: a [*Ref] record carries the reference
    string and the value it points to. *)

(** [openapi3.Schema]: the compiler never looks inside a schema node, it
    only hands it to the schema resolver. *)
Inductive OASchema : Type :=
| OASchemaNode (type_ format : string) (enum : list string)
    (children : list OASchema).

Record SchemaRef := {
  sref_Ref : string;
  sref_Value : OASchema;
}.

Record Encoding := {
  enc_ContentType : string;
  enc_Style : string;
  enc_Explode : option bool;
}.

Record MediaType := {
  mt_Schema : option SchemaRef;
  mt_Encoding : gmap string Encoding;
}.

(** [openapi3.Parameter] ([Parameter] is a reserved word here). *)
Record OAParameter := {
  par_Name : string;
  par_In : string;
  par_Description : string;
  par_Style : string;
  par_Explode : option bool;
  par_Required : bool;
  par_Schema : option SchemaRef;
  par_Content : gmap string MediaType;
  par_Extensions : gmap string string;
}.

Record ParameterRef := {
  pref_Ref : string;
  pref_Value : OAParameter;
}.

Record RequestBody := {
  rb_Required : bool;
  rb_Content : gmap string MediaType;
}.

Record RequestBodyRef := {
  rbref_Ref : string;
  rbref_Value : RequestBody;
}.

Record Header := { hdr_Schema : option SchemaRef }.

Record HeaderRef := {
  href_Ref : string;
  href_Value : Header;
}.

Record Response := {
  resp_Description : option string;
  resp_Headers : gmap string HeaderRef;
  resp_Content : gmap string MediaType;
}.

Record ResponseRef := {
  rref_Ref : string;
  rref_Value : Response;
}.

(** [map[string][]string]: provider name to scopes. *)
Abbreviation SecurityRequirement := (gmap string (list string)).
Abbreviation SecurityRequirements := (list SecurityRequirement).

(** [openapi3.Responses] is [map[string]*ResponseRef]; an entry may be nil. *)
Abbreviation Responses := (gmap string (option ResponseRef)).

Record Operation := {
  op_OperationID : string;
  op_Summary : string;
  op_Description : string;
  op_Parameters : list ParameterRef;
  op_RequestBody : option RequestBodyRef;
  op_Responses : Responses;
  op_Security : option SecurityRequirements;
  op_Servers : option (list string);
}.

Record PathItem := {
  pi_Servers : option (list string);
  pi_Parameters : list ParameterRef;
  pi_Connect : option Operation;
  pi_Delete : option Operation;
  pi_Get : option Operation;
  pi_Head : option Operation;
  pi_Options : option Operation;
  pi_Patch : option Operation;
  pi_Post : option Operation;
  pi_Put : option Operation;
  pi_Trace : option Operation;
}.

(** [openapi3.T], the document. *)
Record T := {
  doc_Paths : gmap string PathItem;
  doc_Security : SecurityRequirements;
}.

(** [PathItem.Operations()]: the operations that are set, by method. *)
Definition Operations (pathItem : PathItem) : gmap string Operation :=
  let put (method : string) (v : option Operation) (m : gmap string Operation) :=
    match v with Some o => <[method := o]> m | None => m end in
  put "TRACE" (pi_Trace pathItem)
   (put "PUT" (pi_Put pathItem)
    (put "POST" (pi_Post pathItem)
     (put "PATCH" (pi_Patch pathItem)
      (put "OPTIONS" (pi_Options pathItem)
       (put "HEAD" (pi_Head pathItem)
        (put "GET" (pi_Get pathItem)
         (put "DELETE" (pi_Delete pathItem)
          (put "CONNECT" (pi_Connect pathItem) ∅)))))))).

(** ** The intermediate representation (package [codegen]) *)

(** [Schema], [Property] and [TypeDefinition] are declared in schema.go,
    which is not among the sources; the fields are the ones that
    operations.go reads or writes. *)
Inductive Schema : Type :=
| MkSchema (GoType RefType : string) (Properties : list Property)
    (HasAdditionalProperties : bool) (AdditionalTypes : list TypeDefinition)
    (SkipOptionalPointer : bool) (Description : string)
with Property : Type :=
| MkProperty (Description JsonFieldName : string) (sch : Schema)
    (Required NeedsFormTag : bool) (Extensions : gmap string string)
with TypeDefinition : Type :=
| MkTypeDefinition (TypeName : string) (sch : Schema).

Definition s_GoType (s : Schema) := let 'MkSchema g _ _ _ _ _ _ := s in g.
Definition s_RefType (s : Schema) := let 'MkSchema _ r _ _ _ _ _ := s in r.
Definition s_Properties (s : Schema) := let 'MkSchema _ _ p _ _ _ _ := s in p.
Definition s_HasAdditionalProperties (s : Schema) :=
  let 'MkSchema _ _ _ h _ _ _ := s in h.
Definition s_AdditionalTypes (s : Schema) :=
  let 'MkSchema _ _ _ _ a _ _ := s in a.
Definition s_SkipOptionalPointer (s : Schema) :=
  let 'MkSchema _ _ _ _ _ k _ := s in k.
Definition s_Description (s : Schema) := let 'MkSchema _ _ _ _ _ _ d := s in d.

Definition set_GoType (g : string) (s : Schema) : Schema :=
  let 'MkSchema _ r p h a k d := s in MkSchema g r p h a k d.
Definition set_RefType (r : string) (s : Schema) : Schema :=
  let 'MkSchema g _ p h a k d := s in MkSchema g r p h a k d.
Definition set_Properties (p : list Property) (s : Schema) : Schema :=
  let 'MkSchema g r _ h a k d := s in MkSchema g r p h a k d.
Definition set_Description (d : string) (s : Schema) : Schema :=
  let 'MkSchema g r p h a k _ := s in MkSchema g r p h a k d.
Definition set_NeedsFormTag (b : bool) (p : Property) : Property :=
  let 'MkProperty d j s r _ e := p in MkProperty d j s r b e.

Definition td_TypeName (td : TypeDefinition) :=
  let 'MkTypeDefinition n _ := td in n.
Definition td_Schema (td : TypeDefinition) :=
  let 'MkTypeDefinition _ s := td in s.

(** [Schema{}], the zero value. *)
Definition zeroSchema : Schema := MkSchema "" "" [] false [] false "".

Record ParameterDefinition := {
  pd_ParamName : string;
  pd_In : string;
  pd_Required : bool;
  pd_Spec : OAParameter;
  pd_Schema : Schema;
}.

Record SecurityDefinition := {
  sd_ProviderName : string;
  sd_Scopes : list string;
}.

Record RequestBodyEncoding := {
  rbe_ContentType : string;
  rbe_Style : string;
  rbe_Explode : option bool;
}.

Record RequestBodyDefinition := {
  rbd_Required : bool;
  rbd_Schema : Schema;
  rbd_NameTag : string;
  rbd_ContentType : string;
  rbd_Default : bool;
  rbd_Encoding : gmap string RequestBodyEncoding;
}.

Record ResponseContentDefinition := {
  rcd_Schema : Schema;
  rcd_ContentType : string;
  rcd_NameTag : string;
}.

Record ResponseHeaderDefinition := {
  rhd_Name : string;
  rhd_GoName : string;
  rhd_Schema : Schema;
}.

Record ResponseDefinition := {
  rd_StatusCode : string;
  rd_Description : string;
  rd_Contents : list ResponseContentDefinition;
  rd_Headers : list ResponseHeaderDefinition;
  rd_Ref : string;
}.

Record OperationDefinition := {
  od_OperationId : string;
  od_PathParams : list ParameterDefinition;
  od_HeaderParams : list ParameterDefinition;
  od_QueryParams : list ParameterDefinition;
  od_CookieParams : list ParameterDefinition;
  od_TypeDefinitions : list TypeDefinition;
  od_SecurityDefinitions : list SecurityDefinition;
  od_BodyRequired : bool;
  od_Bodies : list RequestBodyDefinition;
  od_Responses : list ResponseDefinition;
  od_Summary : string;
  od_Method : string;
  od_Path : string;
  od_Spec : Operation;
}.

(** ** What the compiler takes from the rest of the repository

    The functions below are called by operations.go and defined in files of
    the package that are not among the sources (utils.go, schema.go,
    extension.go, pkg/util).  The compiler is verified for every
    implementation of them; they are functions of their arguments (the
    configuration they read is fixed before a compilation starts). *)
Class Collaborators := {
  ToCamelCase : string -> string;
  IsMediaTypeJson : string -> bool;
  SchemaNameToTypeName : string -> string;
  typeNamePrefix : string -> string;
  extGoName : string;
  extParseGoFieldName : string -> result string;
  IsGoTypeReference : string -> bool;
  RefPathToGoType : string -> result string;
  GenerateGoSchema : option SchemaRef -> list string -> result Schema;
  paramToGoType : OAParameter -> list string -> result Schema;
  GenStructFromSchema : Schema -> string;
  GetAdditionalTypeDefs : Schema -> list TypeDefinition;
  SortParamsByPath :
    string -> list ParameterDefinition -> result (list ParameterDefinition);
}.

(** ** Iteration over maps

    [for k, v := range m] visits the entries of [m] in an order that Go
    leaves unspecified: [range_ m] is that order, some permutation of the
    entries. *)
Class MapOrder := {
  range_ : forall {A : Type}, gmap string A -> list (string * A);
  range_perm : forall (A : Type) (m : gmap string A), range_ m ≡ₚ map_to_list m;
}.

(** [sort.Strings]: ascending byte-wise order. *)
Definition sortStrings (keys : list string) : list string :=
  merge_sort String.le keys.

(** Modelled from the spec: the [Sorted...Keys] helpers of utils.go are not
    among the sources.  Section 5: "iterating all document-level unordered
    collections (paths, operations, responses, content-type maps, header
    maps, security requirement maps) in sorted-key order"; each helper
    collects the keys of its map with a [range] loop and sorts them. *)
Definition SortedKeys `{MapOrder} {A : Type} (m : gmap string A) : list string :=
  sortStrings ((range_ m).*1).

Definition SortedPathsKeys `{MapOrder} (m : gmap string PathItem) := SortedKeys m.
Definition SortedOperationsKeys `{MapOrder} (m : gmap string Operation) :=
  SortedKeys m.
Definition SortedResponsesKeys `{MapOrder} (m : Responses) := SortedKeys m.
Definition SortedContentKeys `{MapOrder} (m : gmap string MediaType) :=
  SortedKeys m.
Definition SortedHeadersKeys `{MapOrder} (m : gmap string HeaderRef) :=
  SortedKeys m.
Definition SortedSecurityRequirementKeys `{MapOrder} (m : SecurityRequirement) :=
  SortedKeys m.

(** [m[k]] on a map of pointers, dereferenced: a missing key gives a nil
    pointer. *)
Definition deref {A : Type} (m : gmap string A) (k : string) : result A :=
  match m !! k with
  | Some v => Ok v
  | None => Panic "invalid memory address or nil pointer dereference"
  end.

(** ** Identifier normalisation *)

(** Modelled from the spec: [ToCamelCase] (pkg/codegen/utils.go) is not among
    the sources.  Section 4.1: the normaliser "collapses separators,
    title-cases segments, strips characters illegal in the target language's
    identifier grammar"; upper-case letters and digits are kept as they are,
    a lower-case letter is capitalised when it opens the string or follows a
    separator, every other character is dropped. *)
Definition camelSeparators : string := "-#@!$&=.+:;_~ (){}[]".

Fixpoint modelToCamelCase_go (capNext : bool) (s : string) : string :=
  match s with
  | EmptyString => EmptyString
  | String v s' =>
      let rest := modelToCamelCase_go (ContainsRune camelSeparators v) s' in
      if is_upper v || is_digit v then String v rest
      else if is_lower v then
        String (if capNext then to_upper_ascii v else v) rest
      else rest
  end.

Definition modelToCamelCase (str : string) : string :=
  modelToCamelCase_go true (Trim_space str).

Section Compiler.
Context `{Collaborators} `{MapOrder}.

(** ** Synthesis of an operation identifier *)

Definition isPathParam (part : string) : bool :=
  if len part <? 2 then false
  else
    match byte_at part 0, byte_at part (len part - 1) with
    | Some a, Some b => Ascii.eqb a "{" && Ascii.eqb b "}"
    | _, _ => false
    end.

Definition getPathParamCount (parts : list string) : Z :=
  fold_left
    (fun count part =>
       if len part <? 2 then count
       else if isPathParam part then count + 1 else count)
    parts 0.

Fixpoint isSinglePathWithParams_from (i : nat) (parts : list string) : bool :=
  match parts with
  | [] => true
  | part :: rest =>
      if (i <=? 1)%nat && isPathParam part then false
      else if (1 <? i)%nat && negb (isPathParam part) then false
      else isSinglePathWithParams_from (S i) rest
  end.
Definition isSinglePathWithParams (parts : list string) : bool :=
  isSinglePathWithParams_from 0 parts.

(** [for _, part := range parts { if part != "" { id = id + "-" + part } }] *)
Definition appendParts (operationId : string) (parts : list string) : string :=
  fold_left
    (fun acc part => if String.eqb part "" then acc else acc +:+ "-" +:+ part)
    parts operationId.

(** The [switch opName] that the three canonical-verb branches share. *)
Definition verbPrefixed (opName operationId part1 : string) : string :=
  if String.eqb opName "GET" then "Read-" +:+ part1
  else if String.eqb opName "POST" then "Create-" +:+ part1
  else if String.eqb opName "PUT" then "Update-" +:+ part1
  else operationId +:+ "-" +:+ part1.

Definition generateDefaultOperationID
    (opName requestPath : string) (pathOpCount : Z) : result string :=
  let operationId := ToLower opName in
  if String.eqb opName "" then Err "operation name cannot be an empty string"
  else if String.eqb requestPath "" then
    Err "request path cannot be an empty string"
  else
    let parts := Split requestPath "/" in
    let pathParamCount := getPathParamCount parts in
    if 1 <? pathParamCount then
      if isSinglePathWithParams parts then
        p1 ← index parts 1;
        Ok (ToCamelCase (operationId +:+ "-" +:+ p1))
      else Ok (ToCamelCase (appendParts operationId parts))
    else if (length parts =? 2)%nat then
      p1 ← index parts 1;
      Ok (ToCamelCase
            (if String.eqb opName "GET" then
               if String.eqb p1 "healthz" then "Health-Check"
               else if 1 <? pathOpCount then "Read-" +:+ p1 +:+ "-List"
               else "Read-" +:+ p1
             else if String.eqb opName "POST" then "Create-" +:+ p1
             else if String.eqb opName "PUT" then "Update-" +:+ p1
             else operationId +:+ "-" +:+ p1))
    else if (3 <=? length parts)%nat
            && match parts !! 2%nat with
               | Some p2 => isPathParam p2
               | None => false
               end then
      p1 ← index parts 1;
      p2 ← index parts 2;
      let operationId := verbPrefixed opName operationId p1 in
      let operationId := appendParts operationId (drop 3 parts) in
      Ok (ToCamelCase
            (if String.eqb p2 "{id}" then operationId
             else operationId +:+ "-by-" +:+ p2))
    else if pathParamCount =? 0 then
      p1 ← index parts 1;
      let operationId := verbPrefixed opName operationId p1 in
      Ok (ToCamelCase (appendParts operationId (drop 2 parts)))
    else Ok (ToCamelCase (appendParts operationId parts)).


(** ** Parameters *)

Definition IsJson (pd : ParameterDefinition) : bool :=
  let p := pd_Spec pd in
  if (size (par_Content p) =? 1)%nat then
    existsb (fun kv => IsMediaTypeJson kv.1) (range_ (par_Content p))
  else false.

Definition IsPassThrough (pd : ParameterDefinition) : bool :=
  let p := pd_Spec pd in
  if (1 <? size (par_Content p))%nat then true
  else if (size (par_Content p) =? 1)%nat then negb (IsJson pd)
  else false.

Definition IsStyled (pd : ParameterDefinition) : bool :=
  match par_Schema (pd_Spec pd) with Some _ => true | None => false end.

Definition Style (pd : ParameterDefinition) : result string :=
  let style := par_Style (pd_Spec pd) in
  if String.eqb style "" then
    let in_ := par_In (pd_Spec pd) in
    if String.eqb in_ "path" || String.eqb in_ "header" then Ok "simple"
    else if String.eqb in_ "query" || String.eqb in_ "cookie" then Ok "form"
    else Panic "unknown parameter format"
  else Ok style.

Definition Explode (pd : ParameterDefinition) : result bool :=
  match par_Explode (pd_Spec pd) with
  | None =>
      let in_ := par_In (pd_Spec pd) in
      if String.eqb in_ "path" || String.eqb in_ "header" then Ok false
      else if String.eqb in_ "query" || String.eqb in_ "cookie" then Ok true
      else Panic "unknown parameter format"
  | Some b => Ok b
  end.

Definition GoName (pd : ParameterDefinition) : string :=
  let goName := pd_ParamName pd in
  let goName :=
    match par_Extensions (pd_Spec pd) !! extGoName with
    | Some v =>
        match extParseGoFieldName v with
        | Ok extGoFieldName => extGoFieldName
        | _ => goName
        end
    | None => goName
    end in
  SchemaNameToTypeName goName.

Fixpoint FindByName (p : list ParameterDefinition) (name : string)
    : option ParameterDefinition :=
  match p with
  | [] => None
  | param :: rest =>
      if String.eqb (pd_ParamName param) name then Some param
      else FindByName rest name
  end.

Definition describeParameter (path : list string)
    (outParams : list ParameterDefinition) (paramOrRef : ParameterRef)
    : result (list ParameterDefinition) :=
  let param := pref_Value paramOrRef in
  goType ← wrapErr
    (fun err => "error generating type for param (" +:+ par_Name param
                +:+ "): " +:+ err)
    (paramToGoType param (path ++ [par_Name param]));
  let pd := {| pd_ParamName := par_Name param; pd_In := par_In param;
               pd_Required := par_Required param; pd_Spec := param;
               pd_Schema := goType |} in
  if IsGoTypeReference (pref_Ref paramOrRef) then
    goType ← wrapErr
      (fun err => "error dereferencing (" +:+ pref_Ref paramOrRef
                  +:+ ") for param (" +:+ par_Name param +:+ "): " +:+ err)
      (RefPathToGoType (pref_Ref paramOrRef));
    Ok (outParams ++ [ {| pd_ParamName := pd_ParamName pd; pd_In := pd_In pd;
                          pd_Required := pd_Required pd; pd_Spec := pd_Spec pd;
                          pd_Schema := set_GoType goType (pd_Schema pd) |} ])
  else Ok (outParams ++ [pd]).

Definition DescribeParameters (params : list ParameterRef) (path : list string)
    : result (list ParameterDefinition) :=
  foldM (describeParameter path) params [].

Definition FilterParameterDefinitionByType
    (params : list ParameterDefinition) (in_ : string)
    : list ParameterDefinition :=
  filter (fun p => pd_In p = in_) params.

(** ** Security *)

Definition DescribeSecurityDefinition
    (securityRequirements : SecurityRequirements) : list SecurityDefinition :=
  flat_map
    (fun sr : SecurityRequirement =>
       (fun k => {| sd_ProviderName := k; sd_Scopes := default [] (sr !! k) |})
         <$> SortedSecurityRequirementKeys sr)
    securityRequirements.

(** ** Request bodies *)

Definition Suffix (r : RequestBodyDefinition) : string :=
  if rbd_Default r then "" else "With" +:+ rbd_NameTag r +:+ "Body".

Definition IsSupportedByClient (r : RequestBodyDefinition) : bool :=
  String.eqb (rbd_NameTag r) "JSON" || String.eqb (rbd_NameTag r) "Formdata"
  || String.eqb (rbd_NameTag r) "Text".

Definition IsSupported (r : RequestBodyDefinition) : bool :=
  negb (String.eqb (rbd_NameTag r) "").

(** The [switch] of [GenerateBodyDefinitions] on the content type: the
    tag and the default flag, or [None] in the [default:] case. *)
Definition bodyTag (contentType : string) : option (string * bool) :=
  if IsMediaTypeJson contentType then Some ("JSON", true)
  else if HasPrefix contentType "multipart/" then Some ("Multipart", false)
  else if String.eqb contentType "application/x-www-form-urlencoded" then
    Some ("Formdata", false)
  else if String.eqb contentType "text/plain" then Some ("Text", false)
  else None.

(** [content.Schema.Ref], through a pointer that may be nil. *)
Definition schemaRefOf (content : MediaType) : result string :=
  match mt_Schema content with
  | Some sr => Ok (sref_Ref sr)
  | None => Panic "invalid memory address or nil pointer dereference"
  end.

Definition bodyEncoding (content : MediaType) : gmap string RequestBodyEncoding :=
  if (size (mt_Encoding content) =? 0)%nat then ∅
  else
    fold_left
      (fun (m : gmap string RequestBodyEncoding) (kv : string * Encoding) =>
         <[ kv.1 := {| rbe_ContentType := enc_ContentType kv.2;
                       rbe_Style := enc_Style kv.2;
                       rbe_Explode := enc_Explode kv.2 |} ]> m)
      (range_ (mt_Encoding content)) ∅.

Definition bodyDefinition (operationID : string) (body : RequestBody)
    (acc : list RequestBodyDefinition * list TypeDefinition)
    (contentType : string)
    : result (list RequestBodyDefinition * list TypeDefinition) :=
  let '(bodyDefinitions, typeDefinitions) := acc in
  match bodyTag contentType with
  | None =>
      let bd := {| rbd_Required := rb_Required body; rbd_Schema := zeroSchema;
                   rbd_NameTag := ""; rbd_ContentType := contentType;
                   rbd_Default := false; rbd_Encoding := ∅ |} in
      Ok (bodyDefinitions ++ [bd], typeDefinitions)
  | Some (tag, defaultBody) =>
      let bodyTypeName := operationID +:+ tag +:+ "Body" in
      content ← deref (rb_Content body) contentType;
      bodySchema ← wrapErr
        (fun err => "error generating request body definition: " +:+ err)
        (GenerateGoSchema (mt_Schema content) [bodyTypeName]);
      ref ← schemaRefOf content;
      bodySchema ←
        (if IsGoTypeReference ref then
           refType ← wrapErr
             (fun err => "error turning reference (" +:+ ref
                         +:+ ") into a Go type: " +:+ err)
             (RefPathToGoType ref);
           Ok (set_RefType refType bodySchema)
         else Ok bodySchema);
      let '(bodySchema, typeDefinitions) :=
        if String.eqb (s_RefType bodySchema) "" then
          let bodySchema :=
            if String.eqb contentType "application/x-www-form-urlencoded" then
              let tagged :=
                set_Properties
                  (set_NeedsFormTag true <$> s_Properties bodySchema)
                  bodySchema in
              set_GoType (GenStructFromSchema tagged) tagged
            else bodySchema in
          let td := MkTypeDefinition bodyTypeName bodySchema in
          (set_RefType bodyTypeName bodySchema, typeDefinitions ++ [td])
        else (bodySchema, typeDefinitions) in
      let bd := {| rbd_Required := rb_Required body; rbd_Schema := bodySchema;
                   rbd_NameTag := tag; rbd_ContentType := contentType;
                   rbd_Default := defaultBody;
                   rbd_Encoding := bodyEncoding content |} in
      Ok (bodyDefinitions ++ [bd], typeDefinitions)
  end.

(** The order of [sort.Slice] in [GenerateBodyDefinitions]. *)
Definition byContentType (a b : RequestBodyDefinition) : Prop :=
  String.le (rbd_ContentType a) (rbd_ContentType b).

#[local] Instance byContentType_dec : RelDecision byContentType.
Proof. intros a b. unfold byContentType. apply _. Defined.

Definition GenerateBodyDefinitions (operationID : string)
    (bodyOrRef : option RequestBodyRef)
    : result (list RequestBodyDefinition * list TypeDefinition) :=
  match bodyOrRef with
  | None => Ok ([], [])
  | Some ref =>
      let body := rbref_Value ref in
      '(bodyDefinitions, typeDefinitions) ←
        foldM (bodyDefinition operationID body)
              (SortedContentKeys (rb_Content body)) ([], []);
      Ok (merge_sort byContentType bodyDefinitions, typeDefinitions)
  end.

(** ** Responses *)

Definition responseTag (contentType : string) : option string :=
  if IsMediaTypeJson contentType then Some "JSON"
  else if String.eqb contentType "application/x-www-form-urlencoded" then
    Some "Formdata"
  else if HasPrefix contentType "multipart/" then Some "Multipart"
  else if String.eqb contentType "text/plain" then Some "Text"
  else None.

Definition responseContentDefinition (operationID statusCode : string)
    (response : Response) (acc : list ResponseContentDefinition)
    (contentType : string) : result (list ResponseContentDefinition) :=
  match responseTag contentType with
  | None =>
      Ok (acc ++ [ {| rcd_Schema := zeroSchema; rcd_ContentType := contentType;
                      rcd_NameTag := "" |} ])
  | Some tag =>
      let responseTypeName :=
        operationID +:+ statusCode +:+ tag +:+ "Response" in
      content ← deref (resp_Content response) contentType;
      contentSchema ← wrapErr
        (fun err => "error generating request body definition: " +:+ err)
        (GenerateGoSchema (mt_Schema content) [responseTypeName]);
      Ok (acc ++ [ {| rcd_Schema := contentSchema;
                      rcd_ContentType := contentType; rcd_NameTag := tag |} ])
  end.

Definition responseHeaderDefinition (response : Response)
    (acc : list ResponseHeaderDefinition) (headerName : string)
    : result (list ResponseHeaderDefinition) :=
  header ← deref (resp_Headers response) headerName;
  contentSchema ← wrapErr
    (fun err => "error generating response header definition: " +:+ err)
    (GenerateGoSchema (hdr_Schema (href_Value header)) []);
  Ok (acc ++ [ {| rhd_Name := headerName;
                  rhd_GoName := SchemaNameToTypeName headerName;
                  rhd_Schema := contentSchema |} ]).

(** One turn of the loop over the status codes; [refSet] holds the
    aliases that earlier responses have taken. *)
Definition responseDefinition (operationID : string) (responses : Responses)
    (acc : list ResponseDefinition * gset string) (statusCode : string)
    : result (list ResponseDefinition * gset string) :=
  let '(responseDefinitions, refSet) := acc in
  match responses !! statusCode with
  | None | Some None => Ok acc
  | Some (Some responseOrRef) =>
      let response := rref_Value responseOrRef in
      responseContentDefinitions ←
        foldM (responseContentDefinition operationID statusCode response)
              (SortedContentKeys (resp_Content response)) [];
      responseHeaderDefinitions ←
        foldM (responseHeaderDefinition response)
              (SortedHeadersKeys (resp_Headers response)) [];
      let rd (ref : string) :=
        {| rd_StatusCode := statusCode;
           rd_Description := default "" (resp_Description response);
           rd_Contents := responseContentDefinitions;
           rd_Headers := responseHeaderDefinitions;
           rd_Ref := ref |} in
      if IsGoTypeReference (rref_Ref responseOrRef) then
        refType ← wrapErr
          (fun err => "error turning reference (" +:+ rref_Ref responseOrRef
                      +:+ ") into a Go type: " +:+ err)
          (RefPathToGoType (rref_Ref responseOrRef));
        if decide (refType ∈ refSet) then
          Ok (responseDefinitions ++ [rd ""], refSet)
        else Ok (responseDefinitions ++ [rd refType], {[refType]} ∪ refSet)
      else Ok (responseDefinitions ++ [rd ""], refSet)
  end.

Definition GenerateResponseDefinitions (operationID : string)
    (responses : Responses) : result (list ResponseDefinition) :=
  acc ← foldM (responseDefinition operationID responses)
              (SortedResponsesKeys responses) ([], ∅);
  Ok acc.1.

(** ** Operations *)

Definition Params (o : OperationDefinition) : list ParameterDefinition :=
  (od_QueryParams o ++ od_HeaderParams o) ++ od_CookieParams o.

Definition AllParams (o : OperationDefinition) : list ParameterDefinition :=
  ((od_QueryParams o ++ od_HeaderParams o) ++ od_CookieParams o)
  ++ od_PathParams o.

Definition paramsTypeStep (typeName : string)
    (acc : list TypeDefinition * list Property) (param : ParameterDefinition)
    : result (list TypeDefinition * list Property) :=
  let '(typeDefs, properties) := acc in
  let pSchema := pd_Schema param in
  _ ← Style param;
  let '(pSchema, typeDefs) :=
    if s_HasAdditionalProperties pSchema then
      let propRefName := typeName +:+ "_" +:+ GoName param in
      (set_RefType propRefName pSchema,
       typeDefs ++ [MkTypeDefinition propRefName (pd_Schema param)])
    else (pSchema, typeDefs) in
  style ← Style param;
  let prop :=
    MkProperty (par_Description (pd_Spec param)) (pd_ParamName param) pSchema
      (pd_Required param) (String.eqb style "form")
      (par_Extensions (pd_Spec param)) in
  Ok (typeDefs, properties ++ [prop]).

Definition GenerateParamsTypes (op : OperationDefinition)
    : result (list TypeDefinition) :=
  let objectParams :=
    (od_QueryParams op ++ od_HeaderParams op) ++ od_CookieParams op in
  let typeName := od_OperationId op +:+ "Params" in
  '(typeDefs, properties) ← foldM (paramsTypeStep typeName) objectParams ([], []);
  let s := set_Description (op_Description (od_Spec op))
             (set_Properties properties zeroSchema) in
  let s := set_GoType (GenStructFromSchema s) s in
  Ok (typeDefs ++ [MkTypeDefinition typeName s]).

Definition GenerateTypeDefsForOperation (op : OperationDefinition)
    : result (list TypeDefinition) :=
  typeDefs ←
    (if (length (Params op) =? 0)%nat then Ok [] else GenerateParamsTypes op);
  let typeDefs :=
    fold_left (fun acc param => acc ++ GetAdditionalTypeDefs (pd_Schema param))
              (AllParams op) typeDefs in
  Ok (fold_left (fun acc body => acc ++ GetAdditionalTypeDefs (rbd_Schema body))
                (od_Bodies op) typeDefs).

Definition set_op_Servers (v : option (list string)) (o : Operation) :=
  {| op_OperationID := op_OperationID o; op_Summary := op_Summary o;
     op_Description := op_Description o; op_Parameters := op_Parameters o;
     op_RequestBody := op_RequestBody o; op_Responses := op_Responses o;
     op_Security := op_Security o; op_Servers := v |}.

Definition set_op_OperationID (v : string) (o : Operation) :=
  {| op_OperationID := v; op_Summary := op_Summary o;
     op_Description := op_Description o; op_Parameters := op_Parameters o;
     op_RequestBody := op_RequestBody o; op_Responses := op_Responses o;
     op_Security := op_Security o; op_Servers := op_Servers o |}.

Definition set_od_TypeDefinitions (v : list TypeDefinition)
    (o : OperationDefinition) :=
  {| od_OperationId := od_OperationId o; od_PathParams := od_PathParams o;
     od_HeaderParams := od_HeaderParams o; od_QueryParams := od_QueryParams o;
     od_CookieParams := od_CookieParams o; od_TypeDefinitions := v;
     od_SecurityDefinitions := od_SecurityDefinitions o;
     od_BodyRequired := od_BodyRequired o; od_Bodies := od_Bodies o;
     od_Responses := od_Responses o; od_Summary := od_Summary o;
     od_Method := od_Method o; od_Path := od_Path o; od_Spec := od_Spec o |}.

(** The parameters of a handler: [append(globalParams, localParams...)]. *)
Definition mergeParams (globalParams localParams : list ParameterDefinition)
    : list ParameterDefinition :=
  globalParams ++ localParams.

(** The security providers of an operation: its own requirements when the
    field is set, the document's otherwise. *)
Definition operationSecurity (swagger : T) (op : Operation)
    : list SecurityDefinition :=
  match op_Security op with
  | Some security => DescribeSecurityDefinition security
  | None => DescribeSecurityDefinition (doc_Security swagger)
  end.

(** The body of the loop over the methods of one path. *)
Definition operationDefinition (swagger : T) (requestPath : string)
    (pathItem : PathItem) (globalParams : list ParameterDefinition)
    (pathOps : gmap string Operation)
    (operations : list OperationDefinition) (opName : string)
    : result (list OperationDefinition) :=
  op ← deref pathOps opName;
  let op :=
    match pi_Servers pathItem with
    | Some servers => set_op_Servers (Some servers) op
    | None => op
    end in
  operationID ←
    (if String.eqb (op_OperationID op) "" then
       wrapErr
         (fun err => "error generating default OperationID for " +:+ opName
                     +:+ "/" +:+ requestPath +:+ ": " +:+ err)
         (generateDefaultOperationID opName requestPath
            (Z.of_nat (size pathOps)))
     else Ok (ToCamelCase (op_OperationID op)));
  let op := set_op_OperationID (typeNamePrefix operationID +:+ operationID) op in
  localParams ← wrapErr
    (fun err => "error describing global parameters for " +:+ opName
                +:+ "/" +:+ requestPath +:+ ": " +:+ err)
    (DescribeParameters (op_Parameters op) [op_OperationID op +:+ "Params"]);
  let allParams := mergeParams globalParams localParams in
  pathParams ← SortParamsByPath requestPath
                 (FilterParameterDefinitionByType allParams "path");
  '(bodyDefinitions, typeDefinitions) ← wrapErr
    (fun err => "error generating body definitions: " +:+ err)
    (GenerateBodyDefinitions (op_OperationID op) (op_RequestBody op));
  responseDefinitions ← wrapErr
    (fun err => "error generating response definitions: " +:+ err)
    (GenerateResponseDefinitions (op_OperationID op) (op_Responses op));
  let opDef :=
    {| od_OperationId := ToCamelCase (op_OperationID op);
       od_PathParams := pathParams;
       od_HeaderParams := FilterParameterDefinitionByType allParams "header";
       od_QueryParams := FilterParameterDefinitionByType allParams "query";
       od_CookieParams := FilterParameterDefinitionByType allParams "cookie";
       od_TypeDefinitions := typeDefinitions;
       od_SecurityDefinitions := operationSecurity swagger op;
       od_BodyRequired :=
         match op_RequestBody op with
         | Some body => rb_Required (rbref_Value body)
         | None => false
         end;
       od_Bodies := bodyDefinitions;
       od_Responses := responseDefinitions;
       od_Summary := op_Summary op;
       od_Method := opName;
       od_Path := requestPath;
       od_Spec := op |} in
  more ← GenerateTypeDefsForOperation opDef;
  Ok (operations ++
      [set_od_TypeDefinitions (od_TypeDefinitions opDef ++ more) opDef]).

(** The body of the loop over the paths. *)
Definition pathDefinitions (swagger : T)
    (operations : list OperationDefinition) (requestPath : string)
    : result (list OperationDefinition) :=
  pathItem ← deref (doc_Paths swagger) requestPath;
  globalParams ← wrapErr
    (fun err => "error describing global parameters for " +:+ requestPath
                +:+ ": " +:+ err)
    (DescribeParameters (pi_Parameters pathItem) []);
  let pathOps := Operations pathItem in
  foldM (operationDefinition swagger requestPath pathItem globalParams pathOps)
        (SortedOperationsKeys pathOps) operations.

Definition OperationDefinitions (swagger : T)
    : result (list OperationDefinition) :=
  foldM (pathDefinitions swagger) (SortedPathsKeys (doc_Paths swagger)) [].

End Compiler.


(** ** Specification predicates *)

(** The locations that the modeler knows. *)
Definition knownLocation (in_ : string) : Prop :=
  in_ = "path" \/ in_ = "query" \/ in_ = "header" \/ in_ = "cookie".

(** What [GenerateBodyDefinitions] records for one content type of [body]. *)
Definition bodyClassified `{Collaborators} (body : RequestBody)
    (bd : RequestBodyDefinition) : Prop :=
  rbd_Required bd = rb_Required body
  /\ match bodyTag (rbd_ContentType bd) with
     | Some (tag, defaultBody) =>
         rbd_NameTag bd = tag /\ rbd_Default bd = defaultBody
     | None =>
         rbd_NameTag bd = "" /\ rbd_Default bd = false
         /\ rbd_Schema bd = zeroSchema /\ rbd_Encoding bd = ∅
     end.

(** The type that is declared for a tagged content type. *)
Definition bodyTypeDeclared `{Collaborators} (operationID : string)
    (body : RequestBody) (td : TypeDefinition) : Prop :=
  exists contentType tag defaultBody,
    is_Some (rb_Content body !! contentType)
    /\ bodyTag contentType = Some (tag, defaultBody)
    /\ td_TypeName td = operationID +:+ tag +:+ "Body".

(** The family tag of a content type, as the [switch] of
    [GenerateBodyDefinitions] assigns it; the empty tag is the [default:]
    case. *)
Definition familyTag `{Collaborators} (contentType : string) : string :=
  if IsMediaTypeJson contentType then "JSON"
  else if HasPrefix contentType "multipart/" then "Multipart"
  else if String.eqb contentType "application/x-www-form-urlencoded" then
    "Formdata"
  else if String.eqb contentType "text/plain" then "Text"
  else "".

(** The response that the document gives for a status code, when the entry
    is there and is not nil. *)
Definition responseAt (responses : Responses) (statusCode : string)
    : option ResponseRef :=
  match responses !! statusCode with
  | Some (Some r) => Some r
  | _ => None
  end.

(** The predefined response type that the response of a status code refers
    to, if it does. *)
Definition aliasOf `{Collaborators} (responses : Responses) (statusCode : string)
    : option string :=
  match responseAt responses statusCode with
  | Some r =>
      if IsGoTypeReference (rref_Ref r) then
        match RefPathToGoType (rref_Ref r) with
        | Ok refType => Some refType
        | _ => None
        end
      else None
  | None => None
  end.

(** The aliases of a list of response definitions, given the set [refSet] of
    the aliases that are taken before it: a response takes the type it
    refers to unless that type is taken. *)
Fixpoint aliasesAssigned `{Collaborators} (responses : Responses)
    (refSet : gset string) (l : list ResponseDefinition) : Prop :=
  match l with
  | [] => True
  | rd :: l' =>
      match aliasOf responses (rd_StatusCode rd) with
      | Some t =>
          rd_Ref rd = (if decide (t ∈ refSet) then "" else t)
          /\ aliasesAssigned responses ({[ t ]} ∪ refSet) l'
      | None => rd_Ref rd = "" /\ aliasesAssigned responses refSet l'
      end
  end.

(** The operation definition [od] comes from the operation [op] that the
    document has at the path and the method of [od], and its security
    providers are the ones of [op] when [op] has a security field, the
    ones of the document otherwise. *)
Definition securityResolved `{MapOrder} (swagger : T) (od : OperationDefinition)
    : Prop :=
  exists pathItem op,
    doc_Paths swagger !! od_Path od = Some pathItem
    /\ Operations pathItem !! od_Method od = Some op
    /\ op_Security (od_Spec od) = op_Security op
    /\ od_SecurityDefinitions od
       = match op_Security op with
         | Some security => DescribeSecurityDefinition security
         | None => DescribeSecurityDefinition (doc_Security swagger)
         end.

(** The definitions that one path contributes: one per method, each with
    its security resolved. *)
Definition pathContribution `{MapOrder} (swagger : T) (requestPath : string)
    (ods : list OperationDefinition) : Prop :=
  exists pathItem,
    doc_Paths swagger !! requestPath = Some pathItem
    /\ Forall2
         (fun opName ods' =>
            exists od, ods' = [od] /\ od_Path od = requestPath
                       /\ od_Method od = opName /\ securityResolved swagger od)
         (SortedOperationsKeys (Operations pathItem))
         ((fun od => [od]) <$> ods).

Definition toBodyEncoding (e : Encoding) : RequestBodyEncoding :=
  {| rbe_ContentType := enc_ContentType e; rbe_Style := enc_Style e;
     rbe_Explode := enc_Explode e |}.

(** ** Reference collaborators and iteration orders

    Implementations on which the compiler can be run.  The theorems on the
    compiler hold for every implementation; these serve the examples. *)

(** [strings.HasSuffix(s, suffix)]. *)
Definition HasSuffix (s suffix : string) : bool :=
  String.prefix (String.rev suffix) (String.rev s).

(** Modelled from the spec: [util.IsMediaTypeJson] (pkg/util) is not among
    the sources.  Section 4.3 speaks of "a recognized structured-data type";
    section 8 has [application/json] in that family and [text/plain] and
    [application/vnd.custom+octet-stream] outside it.  The model recognises
    [application/json] and the media types with the [+json] suffix. *)
Definition modelIsMediaTypeJson (mediaType : string) : bool :=
  String.eqb mediaType "application/json" || HasSuffix mediaType "+json".

(** Modelled from the spec: [GenerateGoSchema] (schema.go) is not among the
    sources.  Section 4.2: a reference to a named schema "aliases that name
    directly", any other node gets a type descriptor; the model keeps the
    node's type as the type expression and never fails. *)
Definition modelGenerateGoSchema (sref : option SchemaRef) (path : list string)
    : result Schema :=
  match sref with
  | None => Ok (MkSchema "interface{}" "" [] false [] false "")
  | Some {| sref_Value := OASchemaNode type_ _ _ _ |} =>
      Ok (MkSchema type_ "" [] false [] false "")
  end.

(** The last segment of a reference path such as
    [#/components/schemas/Pet]. *)
Definition lastSegment (ref : string) : string :=
  List.last (Split ref "/") "".

(** Modelled from the spec: the other helpers of utils.go, schema.go and
    extension.go are not among the sources either.  A reference is to a
    predefined type when it is not empty and does not point into the paths
    (section 4.2), and its type is the normalised last segment of the
    reference; no prefix is needed for the names of the examples; path
    parameters are kept in the order of their declaration. *)
#[global] Instance referenceCollaborators : Collaborators := {|
  ToCamelCase := modelToCamelCase;
  IsMediaTypeJson := modelIsMediaTypeJson;
  SchemaNameToTypeName := modelToCamelCase;
  typeNamePrefix := fun _ => "";
  extGoName := "x-go-name";
  extParseGoFieldName := fun v => Ok v;
  IsGoTypeReference :=
    fun ref => negb (String.eqb ref "") && negb (HasPrefix ref "#/paths/");
  RefPathToGoType := fun ref => Ok (modelToCamelCase (lastSegment ref));
  GenerateGoSchema := modelGenerateGoSchema;
  paramToGoType := fun p path => modelGenerateGoSchema (par_Schema p) path;
  GenStructFromSchema := fun s => "struct";
  GetAdditionalTypeDefs := s_AdditionalTypes;
  SortParamsByPath := fun _ params => Ok params;
|}.

(** Two iteration orders: the one of [map_to_list], and its reverse. *)
#[global] Instance listOrder : MapOrder :=
  {| range_ := fun A m => map_to_list m;
     range_perm := fun A m => reflexivity (map_to_list m) |}.

Definition reverseOrder : MapOrder :=
  {| range_ := fun A m => reverse (map_to_list m);
     range_perm := fun A m => reverse_Permutation (map_to_list m) |}.

(** ** Sample documents *)

(** A parameter as the loader hands it over. *)
Definition mkParam (name in_ style : string) (explode : option bool)
    (schema : option SchemaRef) (content : gmap string MediaType) : OAParameter :=
  {| par_Name := name; par_In := in_; par_Description := ""; par_Style := style;
     par_Explode := explode; par_Required := false; par_Schema := schema;
     par_Content := content; par_Extensions := ∅ |}.

Definition mkParamDef (p : OAParameter) : ParameterDefinition :=
  {| pd_ParamName := par_Name p; pd_In := par_In p;
     pd_Required := par_Required p; pd_Spec := p; pd_Schema := zeroSchema |}.

Definition stringSchema : SchemaRef :=
  {| sref_Ref := ""; sref_Value := OASchemaNode "string" "" [] [] |}.

Definition jsonMedia : MediaType :=
  {| mt_Schema := Some stringSchema; mt_Encoding := ∅ |}.

(** A parameter in a location that is none of the four, with an explicit
    style and an explicit explode flag: both are resolved without any
    failure. *)
Definition bodyParam : ParameterDefinition :=
  mkParamDef (mkParam "payload" "body" "matrix" (Some true) None ∅).

(** A parameter without schema whose only content type is JSON. *)
Definition jsonContentParam : ParameterDefinition :=
  mkParamDef (mkParam "filter" "query" "" None None
                {[ "application/json" := jsonMedia ]}).

(** A request body with the given content. *)
Definition mkBody (required : bool) (content : gmap string MediaType)
    : option RequestBodyRef :=
  Some {| rbref_Ref := "";
          rbref_Value := {| rb_Required := required; rb_Content := content |} |}.

Definition textMedia : MediaType :=
  {| mt_Schema := Some stringSchema; mt_Encoding := ∅ |}.

Definition petRefMedia : MediaType :=
  {| mt_Schema :=
       Some {| sref_Ref := "#/components/schemas/new_pet";
               sref_Value := OASchemaNode "object" "" [] [] |};
     mt_Encoding := ∅ |}.

Definition threeTypesBody : option RequestBodyRef :=
  mkBody false
    (<[ "text/plain" := textMedia ]>
       (<[ "application/x-www-form-urlencoded" := jsonMedia ]>
          {[ "application/json" := petRefMedia ]})).

(** Responses [200] and [default] that refer to one predefined response,
    and a [404] that refers to another. *)
Definition refResponse (ref : string) : option ResponseRef :=
  Some {| rref_Ref := ref;
          rref_Value :=
            {| resp_Description := Some "a response";
               resp_Headers :=
                 {[ "X-Rate-Limit" :=
                      {| href_Ref := "";
                         href_Value := {| hdr_Schema := Some stringSchema |} |} ]};
               resp_Content := {[ "application/json" := jsonMedia ]} |} |}.

Definition aliasedResponses : Responses :=
  <[ "default" := refResponse "#/components/responses/PetResponse" ]>
    (<[ "200" := refResponse "#/components/responses/PetResponse" ]>
       (<[ "304" := None ]>
          {[ "404" := refResponse "#/components/responses/NotFound" ]})).

Definition aliasedDefinitions : list ResponseDefinition :=
  Eval vm_compute in
    match GenerateResponseDefinitions "FindPet" aliasedResponses with
    | Ok rds => rds
    | _ => []
    end.

Definition mkOperation (operationID : string) (parameters : list ParameterRef)
    (body : option RequestBodyRef) (responses : Responses)
    (security : option SecurityRequirements) : Operation :=
  {| op_OperationID := operationID; op_Summary := ""; op_Description := "";
     op_Parameters := parameters; op_RequestBody := body;
     op_Responses := responses; op_Security := security; op_Servers := None |}.

Definition inlineParam (p : OAParameter) : ParameterRef :=
  {| pref_Ref := ""; pref_Value := p |}.

Definition petsItem : PathItem :=
  {| pi_Servers := None;
     pi_Parameters :=
       [inlineParam (mkParam "limit" "query" "" None (Some stringSchema) ∅)];
     pi_Connect := None; pi_Delete := None;
     pi_Get := Some (mkOperation "" [] None aliasedResponses None);
     pi_Head := None; pi_Options := None; pi_Patch := None;
     pi_Post :=
       Some (mkOperation "add-pet"
               [inlineParam
                  (mkParam "limit" "query" "spaceDelimited" (Some false)
                     (Some stringSchema) ∅)]
               threeTypesBody aliasedResponses (Some []));
     pi_Put := None; pi_Trace := None |}.

Definition petItem : PathItem :=
  {| pi_Servers := Some ["https://pets.example"];
     pi_Parameters :=
       [inlineParam (mkParam "id" "path" "" None (Some stringSchema) ∅)];
     pi_Connect := None; pi_Delete := None;
     pi_Get :=
       Some (mkOperation "" [] None aliasedResponses
               (Some [ {[ "api_key" := [] ]} ]));
     pi_Head := None; pi_Options := None; pi_Patch := None; pi_Post := None;
     pi_Put := None; pi_Trace := None |}.

Definition petStore : T :=
  {| doc_Paths := <[ "/pets/{id}" := petItem ]> {[ "/pets" := petsItem ]};
     doc_Security :=
       [ <[ "petstore_auth" := ["write"; "read"] ]> {[ "basic" := [] ]} ] |}.

Definition petStoreOperations : list OperationDefinition :=
  Eval vm_compute in
    match OperationDefinitions petStore with
    | Ok ops => ops
    | _ => []
    end.

(** ** More of the [strings] package *)

(** The pieces of [s] between the occurrences of [sep], by recursion on
    [s]; [Split] computes the same list with an accumulator. *)
Fixpoint pieces (sep : ascii) (s : string) : list string :=
  match s with
  | EmptyString => [EmptyString]
  | String c s' =>
      if Ascii.eqb c sep then EmptyString :: pieces sep s'
      else
        match pieces sep s' with
        | h :: t => String c h :: t
        | [] => [String c EmptyString]
        end
  end.

(** [strings.Join(parts, sep)]. *)
Fixpoint Join (parts : list string) (sep : string) : string :=
  match parts with
  | [] => ""
  | [p] => p
  | p :: rest => p +:+ sep +:+ Join rest sep
  end.

(** [strings.TrimSuffix(s, suffix)] for a suffix of one byte: [s] without
    its last byte when that byte is [c]. *)
Fixpoint TrimSuffix (s : string) (c : ascii) : string :=
  match s with
  | EmptyString => EmptyString
  | String d EmptyString => if Ascii.eqb d c then EmptyString else s
  | String d s' => String d (TrimSuffix s' c)
  end.

(** The line feed, ["\n"] in Go. *)
Definition newline : ascii := "010"%char.

(** ** Comments and content types of an operation *)

(** [SummaryAsComment]: the summary as a block of line comments. *)
Definition SummaryAsComment (o : OperationDefinition) : string :=
  if String.eqb (od_Summary o) "" then ""
  else
    let trimmed := TrimSuffix (od_Summary o) newline in
    let parts := Split trimmed newline in
    Join ((fun p => "// " +:+ p) <$> parts) (String newline EmptyString).

(** [CustomType]: the body has no named type. *)
Definition CustomType (r : RequestBodyDefinition) : bool :=
  String.eqb (s_RefType (rbd_Schema r)) "".

(** [IsFixedContentType]: the content type holds no ["*"]. *)
Definition IsFixedContentType (r : RequestBodyDefinition) : bool :=
  negb (ContainsRune (rbd_ContentType r) "*").

(** [HasMaskedRequestContentTypes]: some body has a content type with a
    wildcard. *)
Definition HasMaskedRequestContentTypes (o : OperationDefinition) : bool :=
  existsb (fun body => negb (IsFixedContentType body)) (od_Bodies o).

(** The text of a comment line, without its [// ] mark. *)
Definition uncomment (line : string) : string :=
  String.substring 3 (String.length line - 3) line.

(** What [DescribeParameters] records for one declared parameter. *)
Definition describedFrom `{Collaborators} (path : list string)
    (paramOrRef : ParameterRef) (pd : ParameterDefinition) : Prop :=
  let param := pref_Value paramOrRef in
  pd_ParamName pd = par_Name param
  /\ pd_In pd = par_In param
  /\ pd_Spec pd = param
  /\ pd_Required pd = par_Required param
  /\ exists goType,
       paramToGoType param (path ++ [par_Name param]) = Ok goType
       /\ if IsGoTypeReference (pref_Ref paramOrRef) then
            exists refType,
              RefPathToGoType (pref_Ref paramOrRef) = Ok refType
              /\ pd_Schema pd = set_GoType refType goType
          else pd_Schema pd = goType.

(** ** What the body modeler records, in full *)

Definition p_NeedsFormTag (p : Property) : bool :=
  let 'MkProperty _ _ _ _ n _ := p in n.
Definition p_JsonFieldName (p : Property) : string :=
  let 'MkProperty _ j _ _ _ _ := p in j.
Definition p_Description (p : Property) : string :=
  let 'MkProperty d _ _ _ _ _ := p in d.
Definition p_Required (p : Property) : bool :=
  let 'MkProperty _ _ _ r _ _ := p in r.
Definition p_Schema (p : Property) : Schema :=
  let 'MkProperty _ _ s _ _ _ := p in s.

(** The schema of an inline form-encoded body: every property gets the
    form tag and the struct is generated again. *)
Definition formTagged `{Collaborators} (s : Schema) : Schema :=
  let tagged := set_Properties (set_NeedsFormTag true <$> s_Properties s) s in
  set_GoType (GenStructFromSchema tagged) tagged.

(** The schema of a body before a type is declared for it: the schema of
    the resolver, with the type of the reference when the schema is a
    reference to a predefined type. *)
Definition bodySchemaResolved `{Collaborators} (bodyTypeName : string)
    (sref : SchemaRef) (resolved : Schema) : Prop :=
  exists schema,
    GenerateGoSchema (Some sref) [bodyTypeName] = Ok schema
    /\ if IsGoTypeReference (sref_Ref sref) then
         exists refType,
           RefPathToGoType (sref_Ref sref) = Ok refType
           /\ resolved = set_RefType refType schema
       else resolved = schema.

(** One turn of the loop of [GenerateBodyDefinitions], as a relation: the
    body definition [bd] and the type definitions [extra] that the content
    type [contentType] contributes. *)
Definition bodyStep `{Collaborators} (operationID : string) (body : RequestBody)
    (contentType : string) (bd : RequestBodyDefinition)
    (extra : list TypeDefinition) : Prop :=
  rbd_ContentType bd = contentType
  /\ rbd_Required bd = rb_Required body
  /\ match bodyTag contentType with
     | None =>
         rbd_NameTag bd = "" /\ rbd_Default bd = false
         /\ rbd_Schema bd = zeroSchema /\ rbd_Encoding bd = ∅ /\ extra = []
     | Some (tag, defaultBody) =>
         let bodyTypeName := operationID +:+ tag +:+ "Body" in
         rbd_NameTag bd = tag /\ rbd_Default bd = defaultBody
         /\ exists content sref resolved,
              rb_Content body !! contentType = Some content
              /\ mt_Schema content = Some sref
              /\ rbd_Encoding bd = toBodyEncoding <$> mt_Encoding content
              /\ bodySchemaResolved bodyTypeName sref resolved
              /\ if String.eqb (s_RefType resolved) "" then
                   let declared :=
                     if String.eqb contentType
                          "application/x-www-form-urlencoded"
                     then formTagged resolved else resolved in
                   extra = [MkTypeDefinition bodyTypeName declared]
                   /\ rbd_Schema bd = set_RefType bodyTypeName declared
                 else extra = [] /\ rbd_Schema bd = resolved
     end.

(** Collaborators whose schema resolver gives every inline schema one
    property, [name], for the examples on properties. *)
Definition onePropertyCollaborators : Collaborators :=
  {| ToCamelCase := modelToCamelCase;
     IsMediaTypeJson := modelIsMediaTypeJson;
     SchemaNameToTypeName := modelToCamelCase;
     typeNamePrefix := fun _ => "";
     extGoName := "x-go-name";
     extParseGoFieldName := fun v => Ok v;
     IsGoTypeReference :=
       fun ref => negb (String.eqb ref "") && negb (HasPrefix ref "#/paths/");
     RefPathToGoType := fun ref => Ok (modelToCamelCase (lastSegment ref));
     GenerateGoSchema :=
       fun _ _ =>
         Ok (MkSchema "struct" ""
               [MkProperty "" "name" zeroSchema true false ∅]
               false [] false "");
     paramToGoType := fun p path => modelGenerateGoSchema (par_Schema p) path;
     GenStructFromSchema := fun s => "struct";
     GetAdditionalTypeDefs := s_AdditionalTypes;
     SortParamsByPath := fun _ params => Ok params |}.

(** A form-encoded body with two encodings, beside a body of an
    unrecognised content type that declares an encoding too. *)
Definition formMedia : MediaType :=
  {| mt_Schema := Some stringSchema;
     mt_Encoding :=
       <[ "photo" := {| enc_ContentType := "image/png"; enc_Style := "";
                        enc_Explode := None |} ]>
         {[ "tags" := {| enc_ContentType := ""; enc_Style := "form";
                         enc_Explode := Some true |} ]} |}.

Definition formBody : option RequestBodyRef :=
  mkBody true
    (<[ "application/x-www-form-urlencoded" := formMedia ]>
       {[ "application/octet-stream" := formMedia ]}).

Definition noSchemaMedia : MediaType := {| mt_Schema := None; mt_Encoding := ∅ |}.

(** A body with two multipart content types, both with an inline schema. *)
Definition twoMultipartBody : RequestBodyRef :=
  {| rbref_Ref := "";
     rbref_Value :=
       {| rb_Required := false;
          rb_Content :=
            <[ "multipart/mixed" := jsonMedia ]>
              {[ "multipart/form-data" := jsonMedia ]} |} |}.

(** ** What the response modeler records, in full *)

(** The content definition [rcd] of the content type [contentType] of a
    response. *)
Definition contentFrom `{Collaborators} (operationID statusCode : string)
    (response : Response) (contentType : string)
    (rcd : ResponseContentDefinition) : Prop :=
  rcd_ContentType rcd = contentType
  /\ match responseTag contentType with
     | None => rcd_NameTag rcd = "" /\ rcd_Schema rcd = zeroSchema
     | Some tag =>
         rcd_NameTag rcd = tag
         /\ exists content,
              resp_Content response !! contentType = Some content
              /\ GenerateGoSchema (mt_Schema content)
                   [operationID +:+ statusCode +:+ tag +:+ "Response"]
                 = Ok (rcd_Schema rcd)
     end.

(** The header definition [rhd] of the header [headerName] of a response. *)
Definition headerFrom `{Collaborators} (response : Response)
    (headerName : string) (rhd : ResponseHeaderDefinition) : Prop :=
  rhd_Name rhd = headerName
  /\ rhd_GoName rhd = SchemaNameToTypeName headerName
  /\ exists header,
       resp_Headers response !! headerName = Some header
       /\ GenerateGoSchema (hdr_Schema (href_Value header)) []
          = Ok (rhd_Schema rhd).

(** The response definition [rd] of the status code [statusCode]. *)
Definition responseFrom `{Collaborators} `{MapOrder} (operationID : string)
    (responses : Responses) (statusCode : string) (rd : ResponseDefinition)
    : Prop :=
  exists r,
    responseAt responses statusCode = Some r
    /\ rd_StatusCode rd = statusCode
    /\ rd_Description rd = default "" (resp_Description (rref_Value r))
    /\ Forall2 (contentFrom operationID statusCode (rref_Value r))
         (SortedContentKeys (resp_Content (rref_Value r))) (rd_Contents rd)
    /\ Forall2 (headerFrom (rref_Value r))
         (SortedHeadersKeys (resp_Headers (rref_Value r))) (rd_Headers rd).

(** ** What the parameter object records *)

(** The property of the parameter object for the parameter [pd], in the
    object named [typeName]. *)
Definition propertyFrom `{Collaborators} (typeName : string)
    (pd : ParameterDefinition) (p : Property) : Prop :=
  p_JsonFieldName p = pd_ParamName pd
  /\ p_Required p = pd_Required pd
  /\ p_Description p = par_Description (pd_Spec pd)
  /\ (exists style, Style pd = Ok style
                    /\ p_NeedsFormTag p = String.eqb style "form")
  /\ p_Schema p
     = if s_HasAdditionalProperties (pd_Schema pd) then
         set_RefType (typeName +:+ "_" +:+ GoName pd) (pd_Schema pd)
       else pd_Schema pd.

(** The auxiliary type of a parameter with additional properties. *)
Definition additionalPropertiesType `{Collaborators} (typeName : string)
    (pd : ParameterDefinition) : TypeDefinition :=
  MkTypeDefinition (typeName +:+ "_" +:+ GoName pd) (pd_Schema pd).

(** The style of the parameter can be resolved: the document gives it, or
    the location is one of the four. *)
Definition styleResolvable (pd : ParameterDefinition) : Prop :=
  par_Style (pd_Spec pd) <> "" \/ knownLocation (par_In (pd_Spec pd)).

(** An operation definition with the given parameters and nothing else. *)
Definition paramsOnly (operationId : string)
    (path query header cookie : list ParameterDefinition)
    : OperationDefinition :=
  {| od_OperationId := operationId; od_PathParams := path;
     od_HeaderParams := header; od_QueryParams := query;
     od_CookieParams := cookie; od_TypeDefinitions := [];
     od_SecurityDefinitions := []; od_BodyRequired := false; od_Bodies := [];
     od_Responses := []; od_Summary := ""; od_Method := "GET";
     od_Path := "/pets"; od_Spec := mkOperation "" [] None ∅ None |}.

(** ** What the operation assembler records, in full *)

(** The operation as the assembler leaves it in the document: the servers
    of the path, when the path has some, in place of its own. *)
Definition withPathServers (pathItem : PathItem) (op : Operation) : Operation :=
  match pi_Servers pathItem with
  | Some servers => set_op_Servers (Some servers) op
  | None => op
  end.

(** One turn of the loop over the methods of a path, as a relation: the
    operation definition [od] of the operation [op] of the method
    [opName]. *)
Definition compiledFrom `{Collaborators} `{MapOrder} (swagger : T)
    (requestPath : string) (pathItem : PathItem)
    (globalParams : list ParameterDefinition) (opName : string)
    (op : Operation) (od : OperationDefinition) : Prop :=
  exists operationID localParams typeDefinitions more,
    (if String.eqb (op_OperationID op) "" then
       generateDefaultOperationID opName requestPath
         (Z.of_nat (size (Operations pathItem))) = Ok operationID
     else operationID = ToCamelCase (op_OperationID op))
    /\ let name := typeNamePrefix operationID +:+ operationID in
       let allParams := mergeParams globalParams localParams in
       od_Spec od = set_op_OperationID name (withPathServers pathItem op)
       /\ od_OperationId od = ToCamelCase name
       /\ od_Method od = opName
       /\ od_Path od = requestPath
       /\ od_Summary od = op_Summary op
       /\ od_BodyRequired od
          = match op_RequestBody op with
            | Some body => rb_Required (rbref_Value body)
            | None => false
            end
       /\ DescribeParameters (op_Parameters op) [name +:+ "Params"]
          = Ok localParams
       /\ SortParamsByPath requestPath
            (FilterParameterDefinitionByType allParams "path")
          = Ok (od_PathParams od)
       /\ od_HeaderParams od = FilterParameterDefinitionByType allParams "header"
       /\ od_QueryParams od = FilterParameterDefinitionByType allParams "query"
       /\ od_CookieParams od = FilterParameterDefinitionByType allParams "cookie"
       /\ GenerateBodyDefinitions name (op_RequestBody op)
          = Ok (od_Bodies od, typeDefinitions)
       /\ GenerateResponseDefinitions name (op_Responses op)
          = Ok (od_Responses od)
       /\ od_SecurityDefinitions od = operationSecurity swagger op
       /\ GenerateTypeDefsForOperation od = Ok more
       /\ od_TypeDefinitions od = typeDefinitions ++ more.

(** The operations of a path item, by ascending method. *)
Definition methodsOf `{MapOrder} (pathItem : PathItem) : list string :=
  SortedOperationsKeys (Operations pathItem).

(** The operations of the document: the paths in ascending order, and for
    each path its methods in ascending order. *)
Definition operationKeys `{MapOrder} (swagger : T) : list (string * string) :=
  requestPath ← SortedPathsKeys (doc_Paths swagger);
  match doc_Paths swagger !! requestPath with
  | Some pathItem => (fun opName => (requestPath, opName)) <$> methodsOf pathItem
  | None => []
  end.

(** [od] is the definition of the operation of [key], a path and a method
    of the document. *)
Definition operationCompiled `{Collaborators} `{MapOrder} (swagger : T)
    (key : string * string) (od : OperationDefinition) : Prop :=
  exists pathItem op globalParams,
    doc_Paths swagger !! key.1 = Some pathItem
    /\ Operations pathItem !! key.2 = Some op
    /\ DescribeParameters (pi_Parameters pathItem) [] = Ok globalParams
    /\ compiledFrom swagger key.1 pathItem globalParams key.2 op od.

(** The strict order of the operations: by path, then by method. *)
Definition pathMethodLt (a b : string * string) : Prop :=
  (a.1 <> b.1 /\ String.le a.1 b.1)
  \/ (a.1 = b.1 /\ a.2 <> b.2 /\ String.le a.2 b.2).

(** The methods that a path item can hold. *)
Definition httpMethods : list string :=
  ["CONNECT"; "DELETE"; "GET"; "HEAD"; "OPTIONS"; "PATCH"; "POST"; "PUT";
   "TRACE"].

(** ** The generation targets of the command line (cmd/oapi-codegen)

    [codegen.Configuration], [codegen.GenerateOptions] and
    [codegen.OutputOptions] are declared in configuration.go, which is not
    among the sources; the fields are the ones that [generationTargets]
    writes. *)
Record GenerateOptions := {
  gen_ChiServer : bool;
  gen_EchoServer : bool;
  gen_GinServer : bool;
  gen_GorillaServer : bool;
  gen_KitServer : bool;
  gen_KitServiceStub : bool;
  gen_KitClient : bool;
  gen_Strict : bool;
  gen_Client : bool;
  gen_Models : bool;
  gen_EmbeddedSpec : bool
}.

Record OutputOptions := {
  out_SkipFmt : bool;
  out_SkipPrune : bool
}.

Record Configuration := {
  cfg_Generate : GenerateOptions;
  cfg_OutputOptions : OutputOptions
}.

(** [codegen.GenerateOptions{}]. *)
Definition blankOptions : GenerateOptions :=
  {| gen_ChiServer := false; gen_EchoServer := false; gen_GinServer := false;
     gen_GorillaServer := false; gen_KitServer := false;
     gen_KitServiceStub := false; gen_KitClient := false; gen_Strict := false;
     gen_Client := false; gen_Models := false; gen_EmbeddedSpec := false |}.

Definition set_ChiServer (o : GenerateOptions) : GenerateOptions :=
  {| gen_ChiServer := true; gen_EchoServer := gen_EchoServer o;
     gen_GinServer := gen_GinServer o; gen_GorillaServer := gen_GorillaServer o;
     gen_KitServer := gen_KitServer o; gen_KitServiceStub := gen_KitServiceStub o;
     gen_KitClient := gen_KitClient o; gen_Strict := gen_Strict o;
     gen_Client := gen_Client o; gen_Models := gen_Models o;
     gen_EmbeddedSpec := gen_EmbeddedSpec o |}.

Definition set_EchoServer (o : GenerateOptions) : GenerateOptions :=
  {| gen_ChiServer := gen_ChiServer o; gen_EchoServer := true;
     gen_GinServer := gen_GinServer o; gen_GorillaServer := gen_GorillaServer o;
     gen_KitServer := gen_KitServer o; gen_KitServiceStub := gen_KitServiceStub o;
     gen_KitClient := gen_KitClient o; gen_Strict := gen_Strict o;
     gen_Client := gen_Client o; gen_Models := gen_Models o;
     gen_EmbeddedSpec := gen_EmbeddedSpec o |}.

Definition set_GinServer (o : GenerateOptions) : GenerateOptions :=
  {| gen_ChiServer := gen_ChiServer o; gen_EchoServer := gen_EchoServer o;
     gen_GinServer := true; gen_GorillaServer := gen_GorillaServer o;
     gen_KitServer := gen_KitServer o; gen_KitServiceStub := gen_KitServiceStub o;
     gen_KitClient := gen_KitClient o; gen_Strict := gen_Strict o;
     gen_Client := gen_Client o; gen_Models := gen_Models o;
     gen_EmbeddedSpec := gen_EmbeddedSpec o |}.

Definition set_GorillaServer (o : GenerateOptions) : GenerateOptions :=
  {| gen_ChiServer := gen_ChiServer o; gen_EchoServer := gen_EchoServer o;
     gen_GinServer := gen_GinServer o; gen_GorillaServer := true;
     gen_KitServer := gen_KitServer o; gen_KitServiceStub := gen_KitServiceStub o;
     gen_KitClient := gen_KitClient o; gen_Strict := gen_Strict o;
     gen_Client := gen_Client o; gen_Models := gen_Models o;
     gen_EmbeddedSpec := gen_EmbeddedSpec o |}.

Definition set_KitServer (o : GenerateOptions) : GenerateOptions :=
  {| gen_ChiServer := gen_ChiServer o; gen_EchoServer := gen_EchoServer o;
     gen_GinServer := gen_GinServer o; gen_GorillaServer := gen_GorillaServer o;
     gen_KitServer := true; gen_KitServiceStub := gen_KitServiceStub o;
     gen_KitClient := gen_KitClient o; gen_Strict := gen_Strict o;
     gen_Client := gen_Client o; gen_Models := gen_Models o;
     gen_EmbeddedSpec := gen_EmbeddedSpec o |}.

Definition set_KitServiceStub (o : GenerateOptions) : GenerateOptions :=
  {| gen_ChiServer := gen_ChiServer o; gen_EchoServer := gen_EchoServer o;
     gen_GinServer := gen_GinServer o; gen_GorillaServer := gen_GorillaServer o;
     gen_KitServer := gen_KitServer o; gen_KitServiceStub := true;
     gen_KitClient := gen_KitClient o; gen_Strict := gen_Strict o;
     gen_Client := gen_Client o; gen_Models := gen_Models o;
     gen_EmbeddedSpec := gen_EmbeddedSpec o |}.

Definition set_KitClient (o : GenerateOptions) : GenerateOptions :=
  {| gen_ChiServer := gen_ChiServer o; gen_EchoServer := gen_EchoServer o;
     gen_GinServer := gen_GinServer o; gen_GorillaServer := gen_GorillaServer o;
     gen_KitServer := gen_KitServer o; gen_KitServiceStub := gen_KitServiceStub o;
     gen_KitClient := true; gen_Strict := gen_Strict o;
     gen_Client := gen_Client o; gen_Models := gen_Models o;
     gen_EmbeddedSpec := gen_EmbeddedSpec o |}.

Definition set_Strict (o : GenerateOptions) : GenerateOptions :=
  {| gen_ChiServer := gen_ChiServer o; gen_EchoServer := gen_EchoServer o;
     gen_GinServer := gen_GinServer o; gen_GorillaServer := gen_GorillaServer o;
     gen_KitServer := gen_KitServer o; gen_KitServiceStub := gen_KitServiceStub o;
     gen_KitClient := gen_KitClient o; gen_Strict := true;
     gen_Client := gen_Client o; gen_Models := gen_Models o;
     gen_EmbeddedSpec := gen_EmbeddedSpec o |}.

Definition set_Client (o : GenerateOptions) : GenerateOptions :=
  {| gen_ChiServer := gen_ChiServer o; gen_EchoServer := gen_EchoServer o;
     gen_GinServer := gen_GinServer o; gen_GorillaServer := gen_GorillaServer o;
     gen_KitServer := gen_KitServer o; gen_KitServiceStub := gen_KitServiceStub o;
     gen_KitClient := gen_KitClient o; gen_Strict := gen_Strict o;
     gen_Client := true; gen_Models := gen_Models o;
     gen_EmbeddedSpec := gen_EmbeddedSpec o |}.

Definition set_Models (o : GenerateOptions) : GenerateOptions :=
  {| gen_ChiServer := gen_ChiServer o; gen_EchoServer := gen_EchoServer o;
     gen_GinServer := gen_GinServer o; gen_GorillaServer := gen_GorillaServer o;
     gen_KitServer := gen_KitServer o; gen_KitServiceStub := gen_KitServiceStub o;
     gen_KitClient := gen_KitClient o; gen_Strict := gen_Strict o;
     gen_Client := gen_Client o; gen_Models := true;
     gen_EmbeddedSpec := gen_EmbeddedSpec o |}.

Definition set_EmbeddedSpec (o : GenerateOptions) : GenerateOptions :=
  {| gen_ChiServer := gen_ChiServer o; gen_EchoServer := gen_EchoServer o;
     gen_GinServer := gen_GinServer o; gen_GorillaServer := gen_GorillaServer o;
     gen_KitServer := gen_KitServer o; gen_KitServiceStub := gen_KitServiceStub o;
     gen_KitClient := gen_KitClient o; gen_Strict := gen_Strict o;
     gen_Client := gen_Client o; gen_Models := gen_Models o;
     gen_EmbeddedSpec := true |}.

Definition set_SkipFmt (cfg : Configuration) : Configuration :=
  {| cfg_Generate := cfg_Generate cfg;
     cfg_OutputOptions :=
       {| out_SkipFmt := true;
          out_SkipPrune := out_SkipPrune (cfg_OutputOptions cfg) |} |}.

Definition set_SkipPrune (cfg : Configuration) : Configuration :=
  {| cfg_Generate := cfg_Generate cfg;
     cfg_OutputOptions :=
       {| out_SkipFmt := out_SkipFmt (cfg_OutputOptions cfg);
          out_SkipPrune := true |} |}.

Definition set_Generate (opts : GenerateOptions) (cfg : Configuration)
    : Configuration :=
  {| cfg_Generate := opts; cfg_OutputOptions := cfg_OutputOptions cfg |}.

(** The [switch] of [generationTargets] on one target: the configuration
    and the options after it, or [None] in the [default:] case. *)
Definition generationTarget (cfg : Configuration) (opts : GenerateOptions)
    (opt : string) : option (Configuration * GenerateOptions) :=
  if String.eqb opt "chi-server" || String.eqb opt "chi" then
    Some (cfg, set_ChiServer opts)
  else if String.eqb opt "server" || String.eqb opt "echo-server"
          || String.eqb opt "echo" then
    Some (cfg, set_EchoServer opts)
  else if String.eqb opt "gin" || String.eqb opt "gin-server" then
    Some (cfg, set_GinServer opts)
  else if String.eqb opt "gorilla" || String.eqb opt "gorilla-server" then
    Some (cfg, set_GorillaServer opts)
  else if String.eqb opt "kit" then
    Some (cfg, set_KitClient (set_KitServiceStub (set_KitServer opts)))
  else if String.eqb opt "kit-server" then Some (cfg, set_KitServer opts)
  else if String.eqb opt "kit-service-stub" then
    Some (cfg, set_KitServiceStub opts)
  else if String.eqb opt "kit-client" then Some (cfg, set_KitClient opts)
  else if String.eqb opt "strict-server" then Some (cfg, set_Strict opts)
  else if String.eqb opt "client" then Some (cfg, set_Client opts)
  else if String.eqb opt "types" || String.eqb opt "models" then
    Some (cfg, set_Models opts)
  else if String.eqb opt "spec" || String.eqb opt "embedded-spec" then
    Some (cfg, set_EmbeddedSpec opts)
  else if String.eqb opt "skip-fmt" then Some (set_SkipFmt cfg, opts)
  else if String.eqb opt "skip-prune" then Some (set_SkipPrune cfg, opts)
  else None.

Section GenerationTargets.
(** [strconv.Quote] of Go's library, which the verb [%q] applies. *)
Variable Quote : string -> string.

(** The loop of [generationTargets]: the configuration that the pointer
    [cfg] holds when the function returns, and the error. *)
Fixpoint generationTargets_from (cfg : Configuration) (opts : GenerateOptions)
    (targets : list string) : Configuration * option string :=
  match targets with
  | [] => (set_Generate opts cfg, None)
  | opt :: targets =>
      match generationTarget cfg opts opt with
      | Some (cfg, opts) => generationTargets_from cfg opts targets
      | None => (cfg, Some ("unknown generate option " +:+ Quote opt))
      end
  end.

Definition generationTargets (cfg : Configuration) (targets : list string)
    : Configuration * option string :=
  generationTargets_from cfg blankOptions targets.

End GenerationTargets.

(** The targets that [generationTargets] knows. *)
Definition knownTargets : list string :=
  ["chi-server"; "chi"; "server"; "echo-server"; "echo"; "gin"; "gin-server";
   "gorilla"; "gorilla-server"; "kit"; "kit-server"; "kit-service-stub";
   "kit-client"; "strict-server"; "client"; "types"; "models"; "spec";
   "embedded-spec"; "skip-fmt"; "skip-prune"].

(** Some target of [targets] is one of [names]. *)
Definition targeted (names targets : list string) : bool :=
  existsb (fun t => existsb (String.eqb t) names) targets.

(** A model of [strconv.Quote] for identifiers: the string between two
    double quotes.  It agrees with [strconv.Quote] on printable ASCII
    without quote or backslash, which Go does not escape; the examples use
    it on such strings only. *)
Definition quoteIdentifier (s : string) : string :=
  String "034"%char (s +:+ String "034"%char EmptyString).

(** A configuration in which only the client was asked for. *)
Definition clientConfiguration : Configuration :=
  {| cfg_Generate := set_Client blankOptions;
     cfg_OutputOptions := {| out_SkipFmt := false; out_SkipPrune := false |} |}.

(** ** The calls that the compiler makes for a document *)

(** The calls of [DescribeParameters] for the parameters [params] under
    [path] return: the type of each parameter is resolved, and so is its
    reference when it refers to a predefined type. *)
Definition parametersResolve `{Collaborators} (params : list ParameterRef)
    (path : list string) : Prop :=
  Forall
    (fun paramOrRef =>
       let param := pref_Value paramOrRef in
       is_ok (paramToGoType param (path ++ [par_Name param])) = true
       /\ (IsGoTypeReference (pref_Ref paramOrRef) = true ->
           is_ok (RefPathToGoType (pref_Ref paramOrRef)) = true))
    params.

(** The calls of [GenerateBodyDefinitions] for the request body return:
    every media type whose content type has a tag has a schema, which is
    resolved under the name of the body type, and so is its reference when
    it refers to a predefined type. *)
Definition bodyResolves `{Collaborators} (operationID : string)
    (bodyOrRef : option RequestBodyRef) : Prop :=
  forall ref contentType content tag defaultBody,
    bodyOrRef = Some ref ->
    rb_Content (rbref_Value ref) !! contentType = Some content ->
    bodyTag contentType = Some (tag, defaultBody) ->
    exists sref,
      mt_Schema content = Some sref
      /\ is_ok (GenerateGoSchema (Some sref) [operationID +:+ tag +:+ "Body"])
         = true
      /\ (IsGoTypeReference (sref_Ref sref) = true ->
          is_ok (RefPathToGoType (sref_Ref sref)) = true).

(** The calls of [GenerateResponseDefinitions] for the responses return:
    the schema of every media type whose content type has a tag is
    resolved under the name of the response type, the schema of every
    header is resolved, and so is the reference of a response that refers
    to a predefined one. *)
Definition responsesResolve `{Collaborators} (operationID : string)
    (responses : Responses) : Prop :=
  forall statusCode responseOrRef,
    responses !! statusCode = Some (Some responseOrRef) ->
    let response := rref_Value responseOrRef in
    (forall contentType content tag,
       resp_Content response !! contentType = Some content ->
       responseTag contentType = Some tag ->
       is_ok (GenerateGoSchema (mt_Schema content)
                [operationID +:+ statusCode +:+ tag +:+ "Response"]) = true)
    /\ (forall headerName header,
          resp_Headers response !! headerName = Some header ->
          is_ok (GenerateGoSchema (hdr_Schema (href_Value header)) []) = true)
    /\ (IsGoTypeReference (rref_Ref responseOrRef) = true ->
        is_ok (RefPathToGoType (rref_Ref responseOrRef)) = true).

(** The identifier that the operation carries in [Spec]: its own in camel
    case, or the synthesized one, behind the type name prefix. *)
Definition operationName `{Collaborators} (requestPath : string)
    (pathItem : PathItem) (opName : string) (op : Operation) : result string :=
  operationID ←
    (if String.eqb (op_OperationID op) "" then
       generateDefaultOperationID opName requestPath
         (Z.of_nat (size (Operations pathItem)))
     else Ok (ToCamelCase (op_OperationID op)));
  Ok (typeNamePrefix operationID +:+ operationID).

(** The calls that the assembler makes for the operation [op] of the method
    [opName] return: an identifier can be synthesized when the operation
    has none, and under its name the parameters, the request body and the
    responses are resolved and the path parameters that were described are
    sorted. *)
Definition operationResolves `{Collaborators} (requestPath : string)
    (pathItem : PathItem) (opName : string) (op : Operation) : Prop :=
  (op_OperationID op = "" ->
   ContainsRune requestPath "/" = true \/ isPathParam requestPath = true)
  /\ forall name,
       operationName requestPath pathItem opName op = Ok name ->
       parametersResolve (op_Parameters op) [name +:+ "Params"]
       /\ bodyResolves name (op_RequestBody op)
       /\ responsesResolve name (op_Responses op)
       /\ forall shared own,
            DescribeParameters (pi_Parameters pathItem) [] = Ok shared ->
            DescribeParameters (op_Parameters op) [name +:+ "Params"] = Ok own ->
            is_ok (SortParamsByPath requestPath
                     (FilterParameterDefinitionByType
                        (mergeParams shared own) "path")) = true.

(** Every call that [OperationDefinitions] makes for the document to a
    helper that can fail returns. *)
Definition documentResolves `{Collaborators} (swagger : T) : Prop :=
  forall requestPath pathItem,
    doc_Paths swagger !! requestPath = Some pathItem ->
    parametersResolve (pi_Parameters pathItem) []
    /\ forall opName op,
         Operations pathItem !! opName = Some op ->
         operationResolves requestPath pathItem opName op.

(** Modelled from the spec: collaborators that can fail, for the examples
    on documents that resolve.  Section 4.2: an "unresolved [$ref] target
    (document inconsistency) is a hard error"; the model takes a reference
    to resolve when it is empty or points into the components.  Section
    4.4: path parameters are "reordered to match their left-to-right order
    of appearance in the path template", and "a mismatch between the set
    of path-template parameter names and the set of declared path
    parameters is a hard error". *)
Definition resolvable (ref : string) : bool :=
  String.eqb ref "" || HasPrefix ref "#/components/".

Definition strictGenerateGoSchema (sref : option SchemaRef)
    (path : list string) : result Schema :=
  match sref with
  | Some sr =>
      if resolvable (sref_Ref sr) then modelGenerateGoSchema sref path
      else Err "unresolved reference"
  | None => modelGenerateGoSchema sref path
  end.

(** The names of the parameters of a path template, from left to right. *)
Definition templateNames (path : string) : list string :=
  (fun part => String.substring 1 (String.length part - 2) part)
    <$> filter (fun part => isPathParam part = true) (Split path "/").

Definition strictSortParamsByPath (path : string)
    (params : list ParameterDefinition) : result (list ParameterDefinition) :=
  let names := templateNames path in
  if (length names =? length params)%nat then
    foldM (fun out name =>
             match FindByName params name with
             | Some param => Ok (out ++ [param])
             | None => Err "the path refers to a parameter that is not declared"
             end)
          names []
  else Err "the path and the declaration differ in the number of parameters".

Definition strictCollaborators : Collaborators :=
  {| ToCamelCase := modelToCamelCase;
     IsMediaTypeJson := modelIsMediaTypeJson;
     SchemaNameToTypeName := modelToCamelCase;
     typeNamePrefix := fun _ => "";
     extGoName := "x-go-name";
     extParseGoFieldName := fun v => Ok v;
     IsGoTypeReference :=
       fun ref => negb (String.eqb ref "") && negb (HasPrefix ref "#/paths/");
     RefPathToGoType :=
       fun ref =>
         if resolvable ref then Ok (modelToCamelCase (lastSegment ref))
         else Err "unresolved reference";
     GenerateGoSchema := strictGenerateGoSchema;
     paramToGoType := fun p path => strictGenerateGoSchema (par_Schema p) path;
     GenStructFromSchema := fun s => "struct";
     GetAdditionalTypeDefs := s_AdditionalTypes;
     SortParamsByPath := strictSortParamsByPath |}.

(** A document whose only path declares no parameter for its template. *)
Definition undeclaredParameter : T :=
  {| doc_Paths :=
       {[ "/pets/{id}" :=
            {| pi_Servers := None; pi_Parameters := [];
               pi_Connect := None; pi_Delete := None;
               pi_Get := Some (mkOperation "find-pet" [] None ∅ None);
               pi_Head := None; pi_Options := None; pi_Patch := None;
               pi_Post := None; pi_Put := None; pi_Trace := None |} ]};
     doc_Security := [] |}.

(** * Properties *)

(** In [H : (x ← c; k) = Ok _], the computation [c] returned some [x]. *)
Tactic Notation "bind_step" hyp(H) "as" simple_intropattern(x) :=
  match type of H with
  | mbind _ ?c = _ =>
      let E := fresh "E" in
      destruct c as [x| |] eqn:E;
      cbn [mbind result_bind rbind] in H; try discriminate
  end.

(** ** Examples *)

Example split_pets_id : Split "/pets/{id}" "/" = [""; "pets"; "{id}"].
Proof. reflexivity. Qed.

Example camel_read_pets : modelToCamelCase "Read-pets" = "ReadPets".
Proof. reflexivity. Qed.

Example opid_nested :
  generateDefaultOperationID "DELETE" "/cat/{category}/pet/{petId}" 1
  = Ok "DeleteCatCategoryPetPetId".
Proof. reflexivity. Qed.

Example opid_list : generateDefaultOperationID "GET" "/pets" 2 = Ok "ReadPetsList".
Proof. reflexivity. Qed.

Example opid_by_param :
  generateDefaultOperationID "GET" "/pets/{petId}/toys" 1
  = Ok "ReadPetsToysByPetId".
Proof. reflexivity. Qed.

Example opid_no_slash :
  generateDefaultOperationID "GET" "pets" 1 = Panic "index out of range".
Proof. reflexivity. Qed.

(** ** Properties of the parameter modeler *)

Section ParameterProperties.
Context `{Collaborators} `{MapOrder}.

Lemma range_singleton {A : Type} (m : gmap string A) :
  size m = 1%nat -> exists k v, range_ m = [(k, v)] /\ m = {[ k := v ]}.
Proof.
  intros Hsize.
  pose proof (range_perm A m) as Hperm.
  rewrite <- length_map_to_list in Hsize.
  destruct (map_to_list m) as [|[k v] [|? ?]] eqn:Hl; simplify_eq/=.
  exists k, v. split.
  - by apply Permutation_singleton_r.
  - rewrite <- (list_to_map_to_list m), Hl. reflexivity.
Qed.

Lemma IsJson_single (pd : ParameterDefinition) (k : string) (mt : MediaType) :
  par_Content (pd_Spec pd) = {[ k := mt ]} -> IsJson pd = IsMediaTypeJson k.
Proof.
  intros Hc. unfold IsJson.
  assert (Hsize : size (par_Content (pd_Spec pd)) = 1%nat)
    by (rewrite Hc; apply map_size_singleton).
  rewrite Hsize. simpl.
  destruct (range_singleton _ Hsize) as (k' & v' & Hr & Hm).
  rewrite Hr. simpl. rewrite orb_false_r.
  rewrite Hc in Hm.
  assert (Hk : ({[ k := mt ]} : gmap string MediaType) !! k' = Some v')
    by (rewrite Hm; apply lookup_singleton_eq).
  apply lookup_singleton_Some in Hk as [-> _]. reflexivity.
Qed.

End ParameterProperties.

(** C2.  When the document omits the style (the empty string) or the explode
    flag (a nil pointer), [Style] and [Explode] give the default of the
    location: [simple] and [false] for [path] and [header], [form] and
    [true] for [query] and [cookie]; a value that the document gives is
    returned as it is. *)
Theorem Style_Explode_defaults (pd : ParameterDefinition) :
  let p := pd_Spec pd in
  (par_Style p = "" -> par_In p = "path" \/ par_In p = "header" ->
   Style pd = Ok "simple")
  /\ (par_Explode p = None -> par_In p = "path" \/ par_In p = "header" ->
      Explode pd = Ok false)
  /\ (par_Style p = "" -> par_In p = "query" \/ par_In p = "cookie" ->
      Style pd = Ok "form")
  /\ (par_Explode p = None -> par_In p = "query" \/ par_In p = "cookie" ->
      Explode pd = Ok true)
  /\ (par_Style p <> "" -> Style pd = Ok (par_Style p))
  /\ (forall b, par_Explode p = Some b -> Explode pd = Ok b).
Proof.
  unfold Style, Explode. cbn zeta.
  repeat split.
  - intros -> [-> | ->]; reflexivity.
  - intros -> [-> | ->]; reflexivity.
  - intros -> [-> | ->]; reflexivity.
  - intros -> [-> | ->]; reflexivity.
  - intros Hne. apply String.eqb_neq in Hne. by rewrite Hne.
  - intros b ->. reflexivity.
Qed.

Lemma Style_Explode_defaults_witness :
  let path := mkParamDef (mkParam "id" "path" "" None (Some stringSchema) ∅) in
  let query := mkParamDef (mkParam "tags" "query" "" None (Some stringSchema) ∅) in
  let explicit :=
    mkParamDef (mkParam "tags" "query" "pipeDelimited" (Some false)
                  (Some stringSchema) ∅) in
  (Style path = Ok "simple" /\ Explode path = Ok false)
  /\ (Style query = Ok "form" /\ Explode query = Ok true)
  /\ (Style explicit = Ok "pipeDelimited" /\ Explode explicit = Ok false).
Proof.
  intros path query explicit.
  destruct (Style_Explode_defaults path) as (Hs & He & _).
  destruct (Style_Explode_defaults query) as (_ & _ & Hs' & He' & _).
  destruct (Style_Explode_defaults explicit) as (_ & _ & _ & _ & Hx & Hy).
  split; [split | split; split].
  - apply Hs; [reflexivity | left; reflexivity].
  - apply He; [reflexivity | left; reflexivity].
  - apply Hs'; [reflexivity | left; reflexivity].
  - apply He'; [reflexivity | left; reflexivity].
  - apply Hx. discriminate.
  - apply Hy. reflexivity.
Defined.

Lemma unknownLocation_eqb (in_ : string) :
  ~ knownLocation in_ ->
  String.eqb in_ "path" = false /\ String.eqb in_ "header" = false
  /\ String.eqb in_ "query" = false /\ String.eqb in_ "cookie" = false.
Proof.
  unfold knownLocation. intros Hn.
  repeat split; apply String.eqb_neq; intros ->; apply Hn; auto.
Qed.

(** C8, as stated, fails: for a parameter whose location is none of
    [path], [query], [header], [cookie], resolving the style and the explode
    flag is not an error when the document gives them. *)
Lemma Style_unknown_location_counterexample :
  ~ knownLocation (par_In (pd_Spec bodyParam))
  /\ Style bodyParam = Ok "matrix" /\ Explode bodyParam = Ok true.
Proof.
  split; [|split; reflexivity].
  unfold knownLocation. cbn. intros [?|[?|[?|?]]]; discriminate.
Qed.

(** C8, amended.  For a parameter whose location is none of [path],
    [query], [header], [cookie]: resolving a style that the document omits
    panics with "unknown parameter format", and so does resolving an explode
    flag that the document omits; a style or an explode flag that the
    document gives is returned, without any failure. *)
Theorem Style_Explode_unknown_location (pd : ParameterDefinition) :
  let p := pd_Spec pd in
  ~ knownLocation (par_In p) ->
  (par_Style p = "" -> Style pd = Panic "unknown parameter format")
  /\ (par_Explode p = None -> Explode pd = Panic "unknown parameter format")
  /\ (par_Style p <> "" -> Style pd = Ok (par_Style p))
  /\ (forall b, par_Explode p = Some b -> Explode pd = Ok b).
Proof.
  cbn zeta. intros Hn.
  destruct (unknownLocation_eqb _ Hn) as (Hp & Hh & Hq & Hc).
  unfold Style, Explode. repeat split.
  - intros ->. cbn. by rewrite Hp, Hh, Hq, Hc.
  - intros ->. by rewrite Hp, Hh, Hq, Hc.
  - intros Hne. apply String.eqb_neq in Hne. by rewrite Hne.
  - intros b ->. reflexivity.
Qed.

Lemma Style_Explode_unknown_location_witness :
  let pd := mkParamDef (mkParam "payload" "body" "" None None ∅) in
  Style pd = Panic "unknown parameter format"
  /\ Explode pd = Panic "unknown parameter format".
Proof.
  intros pd.
  assert (Hn : ~ knownLocation (par_In (pd_Spec pd))).
  { unfold knownLocation. cbn. intros [?|[?|[?|?]]]; discriminate. }
  destruct (Style_Explode_unknown_location pd Hn) as (Hs & He & _).
  split; [apply Hs | apply He]; reflexivity.
Defined.

(** C6, as stated, fails: a parameter with no schema and exactly one
    declared content type is not pass-through when that content type is
    JSON. *)
Lemma IsPassThrough_json_counterexample :
  par_Schema (pd_Spec jsonContentParam) = None
  /\ size (par_Content (pd_Spec jsonContentParam)) = 1%nat
  /\ IsPassThrough jsonContentParam = false.
Proof. repeat split; vm_compute; reflexivity. Qed.

(** C6, amended.  A parameter with exactly one declared content type is
    pass-through exactly when that content type is not a JSON media type,
    and a parameter with more than one declared content type is always
    pass-through; in both cases whether a schema is present plays no part. *)
Theorem IsPassThrough_by_content `{Collaborators} `{MapOrder}
    (pd : ParameterDefinition) :
  let content := par_Content (pd_Spec pd) in
  (forall k mt, content = {[ k := mt ]} ->
     IsPassThrough pd = negb (IsMediaTypeJson k))
  /\ ((1 < size content)%nat -> IsPassThrough pd = true)
  /\ (forall schema,
        IsPassThrough
          {| pd_ParamName := pd_ParamName pd; pd_In := pd_In pd;
             pd_Required := pd_Required pd; pd_Schema := pd_Schema pd;
             pd_Spec :=
               let p := pd_Spec pd in
               {| par_Name := par_Name p; par_In := par_In p;
                  par_Description := par_Description p;
                  par_Style := par_Style p; par_Explode := par_Explode p;
                  par_Required := par_Required p; par_Schema := schema;
                  par_Content := par_Content p;
                  par_Extensions := par_Extensions p |} |}
        = IsPassThrough pd).
Proof.
  cbn zeta. repeat split.
  - intros k mt Hc. unfold IsPassThrough.
    rewrite (IsJson_single pd k mt Hc), Hc, map_size_singleton. reflexivity.
  - intros Hlt. unfold IsPassThrough.
    apply Nat.ltb_lt in Hlt. by rewrite Hlt.
Qed.

Lemma IsPassThrough_by_content_witness :
  let text :=
    mkParamDef (mkParam "filter" "query" "" None None
                  {[ "text/csv" := jsonMedia ]}) in
  let both :=
    mkParamDef (mkParam "filter" "query" "" None (Some stringSchema)
                  (<[ "application/json" := jsonMedia ]>
                     {[ "text/csv" := jsonMedia ]})) in
  IsPassThrough jsonContentParam = false
  /\ IsPassThrough text = true
  /\ IsPassThrough both = true.
Proof.
  intros text both. split; [|split].
  - rewrite (proj1 (IsPassThrough_by_content jsonContentParam)
               "application/json" jsonMedia eq_refl).
    reflexivity.
  - rewrite (proj1 (IsPassThrough_by_content text) "text/csv" jsonMedia eq_refl).
    reflexivity.
  - apply (proj1 (proj2 (IsPassThrough_by_content both))).
    vm_compute. lia.
Defined.

(** ** Properties of the operation assembler *)

(** Whatever the camel-casing is, it is applied to [Read-pets],
    [Create-pets] and [Health-Check]. *)
Lemma generateDefaultOperationID_raw `{Collaborators} (pathOpCount : Z) :
  generateDefaultOperationID "GET" "/pets/{id}" pathOpCount
  = Ok (ToCamelCase "Read-pets")
  /\ generateDefaultOperationID "POST" "/pets" pathOpCount
     = Ok (ToCamelCase "Create-pets")
  /\ generateDefaultOperationID "GET" "/healthz" pathOpCount
     = Ok (ToCamelCase "Health-Check").
Proof. split; [|split]; reflexivity. Qed.

(** C1.  When the document gives no operation identifier, the synthesised one
    is a function of the method and the path: [GET /pets/{id}] gives
    [ReadPets] (no [-by-] suffix, the parameter being literally [{id}]),
    [POST /pets] gives [CreatePets] and [GET /healthz] gives [HealthCheck],
    whatever the number of operations on the path.  The camel-casing is the
    modelled one ([modelToCamelCase]). *)
Theorem generateDefaultOperationID_examples (pathOpCount : Z) :
  let synthesize := @generateDefaultOperationID referenceCollaborators in
  synthesize "GET" "/pets/{id}" pathOpCount = Ok "ReadPets"
  /\ synthesize "POST" "/pets" pathOpCount = Ok "CreatePets"
  /\ synthesize "GET" "/healthz" pathOpCount = Ok "HealthCheck".
Proof. split; [|split]; reflexivity. Qed.





(** ** Loops and sorted keys *)

Lemma foldM_ext_in {A S} (f g : S -> A -> result S) (l : list A) (s : S) :
  (forall s x, x ∈ l -> f s x = g s x) -> foldM f l s = foldM g l s.
Proof.
  revert s. induction l as [|x l IH]; intros s Hfg; [reflexivity|].
  cbn [foldM]. rewrite Hfg by left.
  destruct (g s x); cbn; auto.
  apply IH. intros ? ? ?. apply Hfg. by right.
Qed.

#[local] Instance String_le_trans : Transitive String.le := _.
#[local] Instance String_le_antisymm : AntiSymm (=) String.le := _.

Section SortedKeys.
Context `{MapOrder} {A : Type}.
Implicit Types m : gmap string A.

Lemma SortedKeys_Permutation m : SortedKeys m ≡ₚ (map_to_list m).*1.
Proof.
  unfold SortedKeys, sortStrings.
  rewrite merge_sort_Permutation. by rewrite range_perm.
Qed.

Lemma SortedKeys_StronglySorted m : StronglySorted String.le (SortedKeys m).
Proof. apply StronglySorted_merge_sort; apply _. Qed.

Lemma SortedKeys_NoDup m : NoDup (SortedKeys m).
Proof. rewrite SortedKeys_Permutation. apply NoDup_fst_map_to_list. Qed.

Lemma elem_of_SortedKeys m k : k ∈ SortedKeys m <-> is_Some (m !! k).
Proof.
  rewrite SortedKeys_Permutation, list_elem_of_fmap. split.
  - intros [[k' v] [-> Hin]]. apply elem_of_map_to_list in Hin. by exists v.
  - intros [v Hv]. exists (k, v). split; [done|]. by apply elem_of_map_to_list.
Qed.

(** The sorted keys are the one sorted list of the keys of the map. *)
Lemma SortedKeys_unique m (keys : list string) :
  StronglySorted String.le keys -> keys ≡ₚ (map_to_list m).*1 ->
  SortedKeys m = keys.
Proof.
  intros Hs Hp. apply (StronglySorted_unique String.le).
  - apply SortedKeys_StronglySorted.
  - exact Hs.
  - by rewrite SortedKeys_Permutation.
Qed.

Lemma SortedKeys_singleton k (v : A) : SortedKeys ({[ k := v ]} : gmap string A) = [k].
Proof.
  apply SortedKeys_unique.
  - repeat constructor.
  - by rewrite map_to_list_singleton.
Qed.

End SortedKeys.

(** The sorted keys do not depend on the order in which the map is
    visited. *)
Lemma SortedKeys_order (O1 O2 : MapOrder) {A : Type} (m : gmap string A) :
  @SortedKeys O1 A m = @SortedKeys O2 A m.
Proof.
  apply (@SortedKeys_unique O1).
  - apply (@SortedKeys_StronglySorted O2).
  - apply (@SortedKeys_Permutation O2).
Qed.

(** ** Properties of the request-body modeler *)

#[local] Instance byContentType_total : Total byContentType.
Proof. intros a b. unfold byContentType. apply (total String.le). Qed.

#[local] Instance byContentType_trans : Transitive byContentType.
Proof. intros a b c. unfold byContentType. apply (transitivity (R:=String.le)). Qed.

Lemma StronglySorted_fmap_inv {A B} (f : A -> B) (R : relation B) (l : list A) :
  StronglySorted R (f <$> l) -> StronglySorted (fun a b => R (f a) (f b)) l.
Proof.
  induction l as [|x l IH]; intros Hs; [constructor|].
  rewrite fmap_cons in Hs. apply StronglySorted_inv in Hs as [Hs Hx].
  constructor; [by apply IH|]. by rewrite Forall_fmap in Hx.
Qed.

Lemma NoDup_fmap_eq {A B} (f : A -> B) (l : list A) (x y : A) :
  NoDup (f <$> l) -> x ∈ l -> y ∈ l -> f x = f y -> x = y.
Proof.
  intros Hnd [i Hi]%list_elem_of_lookup [j Hj]%list_elem_of_lookup Hf.
  assert (i = j) as ->; [|congruence].
  apply (NoDup_lookup (f <$> l) i j (f x)); [done| |].
  - by rewrite list_lookup_fmap, Hi.
  - by rewrite list_lookup_fmap, Hj, Hf.
Qed.

(** Sorting bodies whose content types are already in strictly ascending
    order changes nothing. *)
Lemma merge_sort_byContentType_id (l : list RequestBodyDefinition) :
  StronglySorted String.le (rbd_ContentType <$> l) ->
  NoDup (rbd_ContentType <$> l) ->
  merge_sort byContentType l = l.
Proof.
  intros Hs Hnd. apply (StronglySorted_unique_strong byContentType).
  - intros x1 x2 Hx1 Hx2 H12 H21.
    rewrite merge_sort_Permutation in Hx1.
    apply (NoDup_fmap_eq rbd_ContentType l); [done..|].
    by apply (anti_symm String.le).
  - apply StronglySorted_merge_sort; apply _.
  - by apply StronglySorted_fmap_inv in Hs.
  - apply merge_sort_Permutation.
Qed.

Section BodyProperties.
Context `{Collaborators} `{MapOrder}.

Lemma bodyDefinition_inv operationID body bds tds contentType bds' tds' :
  is_Some (rb_Content body !! contentType) ->
  bodyDefinition operationID body (bds, tds) contentType = Ok (bds', tds') ->
  exists bd,
    bds' = bds ++ [bd]
    /\ (rbd_ContentType bd = contentType /\ bodyClassified body bd)
    /\ (tds' = tds
        \/ exists td, tds' = tds ++ [td] /\ bodyTypeDeclared operationID body td).
Proof.
  intros Hin Hstep. unfold bodyDefinition in Hstep.
  destruct (bodyTag contentType) as [[tag defaultBody]|] eqn:Htag.
  - destruct (deref (rb_Content body) contentType) as [content| |] eqn:Hc;
      cbn in Hstep; try discriminate.
    destruct (GenerateGoSchema (mt_Schema content) _) as [schema| |];
      cbn in Hstep; try discriminate.
    destruct (schemaRefOf content) as [ref| |]; cbn in Hstep; try discriminate.
    match type of Hstep with
    | context [mbind _ ?c] => destruct c as [schema'| |] eqn:Hs
    end; cbn in Hstep; try discriminate.
    destruct (String.eqb (s_RefType schema') "") eqn:Href;
      injection Hstep as <- <-; eexists; (split; [reflexivity|]);
      (split; [split; [reflexivity|]; split; [reflexivity|]; cbn;
               rewrite Htag; by split|]).
    + right. eexists. split; [reflexivity|].
      exists contentType, tag, defaultBody. by repeat split.
    + by left.
  - injection Hstep as <- <-. eexists. split; [reflexivity|].
    split; [|by left]. split; [reflexivity|]. split; [reflexivity|].
    cbn. rewrite Htag. by repeat split.
Qed.

Lemma bodyDefinitions_fold operationID body keys bds tds bds' tds' :
  (forall k, k ∈ keys -> is_Some (rb_Content body !! k)) ->
  foldM (bodyDefinition operationID body) keys (bds, tds) = Ok (bds', tds') ->
  exists new extra,
    bds' = bds ++ new /\ tds' = tds ++ extra
    /\ rbd_ContentType <$> new = keys
    /\ Forall (bodyClassified body) new
    /\ Forall (bodyTypeDeclared operationID body) extra.
Proof.
  revert bds tds. induction keys as [|k keys IH]; intros bds tds Hkeys Hfold.
  - cbn in Hfold. injection Hfold as <- <-.
    exists [], []. by rewrite !app_nil_r.
  - cbn [foldM] in Hfold.
    destruct (bodyDefinition operationID body (bds, tds) k)
      as [[bds1 tds1]| |] eqn:Hstep; try discriminate.
    apply bodyDefinition_inv in Hstep
      as (bd & -> & (Hct & Hcl) & Htds); [|apply Hkeys; left].
    cbn in Hfold.
    apply IH in Hfold
      as (new & extra & -> & -> & Hk & Hnew & Hextra);
      [|intros; apply Hkeys; by right].
    destruct Htds as [->|(td & -> & Htd)].
    + exists (bd :: new), extra. rewrite <- app_assoc.
      repeat split; [by rewrite fmap_cons, Hct, Hk|by constructor|done].
    + exists (bd :: new), (td :: extra). rewrite <- !app_assoc.
      repeat split; [by rewrite fmap_cons, Hct, Hk|by constructor..].
Qed.

(** The bodies that are returned, for a body that is present: one per
    declared content type, in the order of the sorted content types. *)
Lemma GenerateBodyDefinitions_inv operationID ref bds tds :
  GenerateBodyDefinitions operationID (Some ref) = Ok (bds, tds) ->
  let body := rbref_Value ref in
  rbd_ContentType <$> bds = SortedContentKeys (rb_Content body)
  /\ Forall (bodyClassified body) bds
  /\ Forall (bodyTypeDeclared operationID body) tds.
Proof.
  cbn zeta. unfold GenerateBodyDefinitions. intros Hgen.
  destruct (foldM _ _ _) as [[new extra]| |] eqn:Hfold; try discriminate.
  cbn in Hgen. injection Hgen as <- <-.
  apply bodyDefinitions_fold in Hfold
    as (new' & extra' & Hn & He & Hk & Hnew & Hextra);
    [|intros k Hk; by apply elem_of_SortedKeys in Hk].
  cbn in Hn, He. subst new' extra'.
  rewrite merge_sort_byContentType_id.
  - done.
  - rewrite Hk. apply SortedKeys_StronglySorted.
  - rewrite Hk. apply SortedKeys_NoDup.
Qed.

End BodyProperties.


Section BodyTheorems.
Context `{Collaborators} `{MapOrder}.




End BodyTheorems.


(** C10.  The request-body definitions are returned in ascending byte-wise
    order of their content types, whatever the order in which the content
    types of the document are visited. *)
Theorem GenerateBodyDefinitions_sorted `{Collaborators} `{MapOrder}
    (operationID : string) (bodyOrRef : option RequestBodyRef)
    (bds : list RequestBodyDefinition) (tds : list TypeDefinition) :
  GenerateBodyDefinitions operationID bodyOrRef = Ok (bds, tds) ->
  StronglySorted String.le (rbd_ContentType <$> bds)
  /\ Sorted byContentType bds.
Proof.
  intros Hgen.
  assert (Hs : StronglySorted String.le (rbd_ContentType <$> bds)).
  { destruct bodyOrRef as [ref|].
    - apply GenerateBodyDefinitions_inv in Hgen as (-> & _).
      apply SortedKeys_StronglySorted.
    - cbn in Hgen. injection Hgen as <- <-. constructor. }
  split; [exact Hs|].
  by apply StronglySorted_fmap_inv, StronglySorted_Sorted in Hs.
Qed.

Lemma GenerateBodyDefinitions_sorted_witness :
  exists bds tds,
    @GenerateBodyDefinitions referenceCollaborators reverseOrder "AddPet"
      threeTypesBody = Ok (bds, tds)
    /\ StronglySorted String.le (rbd_ContentType <$> bds).
Proof.
  assert (exists bds tds,
            @GenerateBodyDefinitions referenceCollaborators reverseOrder
              "AddPet" threeTypesBody = Ok (bds, tds)) as (bds & tds & E).
  { vm_compute. eauto. }
  exists bds, tds. split; [exact E|].
  exact (proj1 (@GenerateBodyDefinitions_sorted referenceCollaborators
                  reverseOrder "AddPet" threeTypesBody bds tds E)).
Defined.

Example threeTypesBody_content_types :
  match @GenerateBodyDefinitions referenceCollaborators reverseOrder
          "AddPet" threeTypesBody with
  | Ok (bds, _) => rbd_ContentType <$> bds
  | _ => []
  end
  = ["application/json"; "application/x-www-form-urlencoded"; "text/plain"].
Proof. vm_compute. reflexivity. Qed.

(** ** Properties of the response modeler *)

Lemma foldM_is_ok {A S} (f : S -> A -> result S) (l : list A) (s : S) :
  (forall s x, x ∈ l -> is_ok (f s x) = true) -> is_ok (foldM f l s) = true.
Proof.
  revert s. induction l as [|x l IH]; intros s Hok; [reflexivity|].
  cbn [foldM]. specialize (Hok s x ltac:(left)) as Hx.
  destruct (f s x) as [s'| |]; try discriminate. cbn.
  apply IH. intros ? ? ?. apply Hok. by right.
Qed.

Section ResponseProperties.
Context `{Collaborators} `{MapOrder}.

Lemma responseDefinition_inv operationID responses rds refSet k rds' refSet' :
  responseDefinition operationID responses (rds, refSet) k = Ok (rds', refSet') ->
  (responseAt responses k = None /\ rds' = rds /\ refSet' = refSet)
  \/ (exists rd,
        is_Some (responseAt responses k)
        /\ rds' = rds ++ [rd] /\ rd_StatusCode rd = k
        /\ match aliasOf responses k with
           | Some t =>
               rd_Ref rd = (if decide (t ∈ refSet) then "" else t)
               /\ refSet' = {[ t ]} ∪ refSet
           | None => rd_Ref rd = "" /\ refSet' = refSet
           end).
Proof.
  unfold responseDefinition, aliasOf, responseAt. intros Hstep.
  destruct (responses !! k) as [[r|]|]; [|left; by simplify_eq..].
  right.
  destruct (foldM (responseContentDefinition _ _ _) _ _) as [contents| |];
    cbn in Hstep; try discriminate.
  destruct (foldM (responseHeaderDefinition _) _ _) as [headers| |];
    cbn in Hstep; try discriminate.
  destruct (IsGoTypeReference (rref_Ref r)).
  - destruct (RefPathToGoType (rref_Ref r)) as [t| |];
      cbn in Hstep; try discriminate.
    destruct (decide (t ∈ refSet)) as [Hin|Hnin];
      injection Hstep as <- <-; eexists; (split; [by eexists|]);
      (split; [reflexivity|]); (split; [reflexivity|]); cbn.
    + split; [done|]. set_solver.
    + by split.
  - injection Hstep as <- <-. eexists. by repeat split.
Qed.

Lemma responseDefinitions_fold operationID responses keys rds refSet rds' refSet' :
  foldM (responseDefinition operationID responses) keys (rds, refSet)
  = Ok (rds', refSet') ->
  exists new,
    rds' = rds ++ new
    /\ rd_StatusCode <$> new
       = filter (fun k => is_Some (responseAt responses k)) keys
    /\ aliasesAssigned responses refSet new.
Proof.
  revert rds refSet. induction keys as [|k keys IH]; intros rds refSet Hfold.
  - cbn in Hfold. injection Hfold as <- <-. exists []. by rewrite app_nil_r.
  - cbn [foldM] in Hfold.
    destruct (responseDefinition operationID responses (rds, refSet) k)
      as [[rds1 refSet1]| |] eqn:Hstep; try discriminate.
    cbn in Hfold. apply IH in Hfold as (new & -> & Hk & Has).
    apply responseDefinition_inv in Hstep
      as [(Hnone & -> & ->)|(rd & Hsome & -> & Hst & Hal)].
    + exists new. split; [done|]. split; [|done].
      rewrite filter_cons, decide_False; [done|].
      rewrite Hnone. by intros [? ?].
    + exists (rd :: new). rewrite <- app_assoc. split; [done|]. split.
      * by rewrite filter_cons, decide_True, fmap_cons, Hst, Hk.
      * cbn [aliasesAssigned]. rewrite Hst.
        destruct (aliasOf responses k) as [t|]; destruct Hal as [-> ->]; done.
Qed.

(** Responses never take an alias that was taken before them. *)
Lemma aliasesAssigned_fresh responses refSet l rd :
  aliasesAssigned responses refSet l -> rd ∈ l -> rd_Ref rd <> "" ->
  rd_Ref rd ∉ refSet.
Proof.
  revert refSet. induction l as [|a l IH]; intros refSet Has Hin Hne.
  - by apply elem_of_nil in Hin.
  - cbn [aliasesAssigned] in Has. apply elem_of_cons in Hin as [->|Hin].
    + destruct (aliasOf responses (rd_StatusCode a)) as [t|];
        destruct Has as [Href _]; [|congruence].
      rewrite Href in *. by destruct (decide (t ∈ refSet)).
    + destruct (aliasOf responses (rd_StatusCode a)) as [t|];
        destruct Has as [_ Has]; specialize (IH _ Has Hin Hne); set_solver.
Qed.

(** The alias that the first element of such a list takes is taken for
    the rest of the list. *)
Lemma aliasesAssigned_head_taken responses refSet a l b :
  aliasesAssigned responses refSet (a :: l) -> b ∈ l ->
  rd_Ref a <> "" -> rd_Ref b <> rd_Ref a.
Proof.
  cbn [aliasesAssigned]. intros Has Hin Hne Heq.
  destruct (aliasOf responses (rd_StatusCode a)) as [t|];
    destruct Has as [Href Has]; [|congruence].
  assert (rd_Ref a = t) as Ht.
  { rewrite Href in *. by destruct (decide (t ∈ refSet)). }
  apply (aliasesAssigned_fresh _ _ _ b Has Hin); [congruence|].
  rewrite Heq, Ht. set_solver.
Qed.

Lemma aliasesAssigned_unique responses refSet l i j a b :
  aliasesAssigned responses refSet l ->
  l !! i = Some a -> l !! j = Some b ->
  rd_Ref a <> "" -> rd_Ref a = rd_Ref b -> i = j.
Proof.
  revert refSet i j. induction l as [|x l IH]; intros refSet i j Has Hi Hj Hne Heq.
  - by rewrite lookup_nil in Hi.
  - destruct i as [|i], j as [|j]; [done| | |].
    + cbn in Hi, Hj. simplify_eq.
      destruct (aliasesAssigned_head_taken _ _ _ _ b Has); [|done|done].
      by eapply list_elem_of_lookup_2.
    + cbn in Hi, Hj. simplify_eq.
      destruct (aliasesAssigned_head_taken _ _ _ _ a Has); [|congruence|done].
      by eapply list_elem_of_lookup_2.
    + f_equal. cbn in Hi, Hj. cbn [aliasesAssigned] in Has.
      destruct (aliasOf responses (rd_StatusCode x));
        destruct Has as [_ Has]; by eapply IH.
Qed.

(** The first response that refers to a type takes it as its alias; the
    later ones get no alias. *)
Lemma aliasesAssigned_first responses refSet l i rd t :
  aliasesAssigned responses refSet l ->
  l !! i = Some rd -> aliasOf responses (rd_StatusCode rd) = Some t ->
  (t ∉ refSet ->
   (forall j b, (j < i)%nat -> l !! j = Some b ->
                aliasOf responses (rd_StatusCode b) <> Some t) ->
   rd_Ref rd = t)
  /\ (t ∈ refSet
      \/ (exists j b, (j < i)%nat /\ l !! j = Some b
                      /\ aliasOf responses (rd_StatusCode b) = Some t) ->
      rd_Ref rd = "").
Proof.
  revert refSet i. induction l as [|x l IH]; intros refSet i Has Hi Hal.
  - by rewrite lookup_nil in Hi.
  - cbn [aliasesAssigned] in Has. destruct i as [|i].
    + cbn in Hi. simplify_eq. rewrite Hal in Has. destruct Has as [Href _].
      split.
      * intros Hnin _. by rewrite Href, decide_False.
      * intros [Hin|(j & b & Hlt & _)]; [|lia]. by rewrite Href, decide_True.
    + cbn in Hi.
      destruct (aliasOf responses (rd_StatusCode x)) as [tx|] eqn:Hx;
        destruct Has as [_ Has];
        destruct (IH _ _ Has Hi Hal) as [Hfirst Hlater]; split.
      * intros Hnin Hnone. apply Hfirst.
        -- assert (tx <> t).
           { intros ->. by apply (Hnone 0%nat x); [lia| |]. }
           set_solver.
        -- intros j b Hlt Hj. apply (Hnone (S j) b); [lia|done].
      * intros [Hin|(j & b & Hlt & Hj & Hb)]; apply Hlater.
        -- left. set_solver.
        -- destruct j as [|j].
           ++ cbn in Hj. simplify_eq. left. set_solver.
           ++ right. exists j, b. split; [lia|done].
      * intros Hnin Hnone. apply Hfirst; [done|].
        intros j b Hlt Hj. apply (Hnone (S j) b); [lia|done].
      * intros [Hin|(j & b & Hlt & Hj & Hb)]; apply Hlater.
        -- by left.
        -- destruct j as [|j].
           ++ cbn in Hj. simplify_eq.
           ++ right. exists j, b. split; [lia|done].
Qed.

End ResponseProperties.

Lemma StronglySorted_filter_list {A} (R : relation A) (P : A -> Prop)
    `{forall x, Decision (P x)} (l : list A) :
  StronglySorted R l -> StronglySorted R (filter P l).
Proof.
  induction 1 as [|x l Hs IH Hx]; [constructor|].
  rewrite filter_cons. destruct (decide (P x)); [|exact IH].
  constructor; [exact IH|].
  rewrite Forall_forall in Hx |- *.
  intros y Hy. apply Hx. by apply list_elem_of_filter in Hy as [_ ?].
Qed.

Section ResponseTheorems.
Context `{Collaborators} `{MapOrder}.

(** When the schema resolver and the reference resolution do not fail,
    one turn of the loop over the status codes does not fail, whatever
    aliases are taken. *)
Lemma responseDefinition_ok operationID responses acc k :
  (forall sref path, is_ok (GenerateGoSchema sref path) = true) ->
  (forall ref, is_ok (RefPathToGoType ref) = true) ->
  is_ok (responseDefinition operationID responses acc k) = true.
Proof.
  intros Hschema Href. destruct acc as [rds refSet].
  unfold responseDefinition.
  destruct (responses !! k) as [[r|]|]; [|reflexivity..].
  assert (Hc : is_ok
    (foldM (responseContentDefinition operationID k (rref_Value r))
           (SortedContentKeys (resp_Content (rref_Value r))) []) = true).
  { apply foldM_is_ok. intros s ct Hct.
    apply elem_of_SortedKeys in Hct as [content Hcontent].
    unfold responseContentDefinition, deref.
    destruct (responseTag ct); [|reflexivity].
    rewrite Hcontent. cbn.
    specialize (Hschema (mt_Schema content)
                  [operationID +:+ k +:+ s0 +:+ "Response"]).
    by destruct (GenerateGoSchema _ _). }
  destruct (foldM (responseContentDefinition _ _ _) _ _) as [contents| |];
    try discriminate. cbn.
  assert (Hh : is_ok
    (foldM (responseHeaderDefinition (rref_Value r))
           (SortedHeadersKeys (resp_Headers (rref_Value r))) []) = true).
  { apply foldM_is_ok. intros s h Hh.
    apply elem_of_SortedKeys in Hh as [header Hheader].
    unfold responseHeaderDefinition, deref. rewrite Hheader. cbn.
    specialize (Hschema (hdr_Schema (href_Value header)) []).
    by destruct (GenerateGoSchema _ _). }
  destruct (foldM (responseHeaderDefinition _) _ _) as [headers| |];
    try discriminate. cbn.
  destruct (IsGoTypeReference (rref_Ref r)); [|reflexivity].
  specialize (Href (rref_Ref r)).
  destruct (RefPathToGoType (rref_Ref r)) as [t| |]; try discriminate. cbn.
  by destruct (decide (t ∈ refSet)).
Qed.

(** C3.  [GenerateResponseDefinitions] returns one definition per status
    code that has a response, in the order of the sorted status codes.
    Among the responses that refer to one predefined response type, the
    first in that order carries the type as its [Ref] and every later one
    has an empty [Ref]; no two definitions carry the same non-empty [Ref];
    and a reference to a type that is taken is not an error: the function
    fails only where the schema resolver or the reference resolution
    fails. *)
Theorem GenerateResponseDefinitions_alias_once
    (operationID : string) (responses : Responses) :
  ((forall sref path, is_ok (GenerateGoSchema sref path) = true) ->
   (forall ref, is_ok (RefPathToGoType ref) = true) ->
   is_ok (GenerateResponseDefinitions operationID responses) = true)
  /\ (forall rds,
        GenerateResponseDefinitions operationID responses = Ok rds ->
        rd_StatusCode <$> rds
        = filter (fun k => is_Some (responseAt responses k))
            (SortedResponsesKeys responses)
        /\ StronglySorted String.le (rd_StatusCode <$> rds)
        /\ (forall i rd t,
              rds !! i = Some rd ->
              aliasOf responses (rd_StatusCode rd) = Some t ->
              ((forall j b, (j < i)%nat -> rds !! j = Some b ->
                  aliasOf responses (rd_StatusCode b) <> Some t) ->
               rd_Ref rd = t)
              /\ ((exists j b, (j < i)%nat /\ rds !! j = Some b
                     /\ aliasOf responses (rd_StatusCode b) = Some t) ->
                  rd_Ref rd = ""))
        /\ (forall i j a b,
              rds !! i = Some a -> rds !! j = Some b ->
              rd_Ref a <> "" -> rd_Ref a = rd_Ref b -> i = j)).
Proof.
  unfold GenerateResponseDefinitions. split.
  - intros Hschema Href.
    assert (Hok : is_ok
      (foldM (responseDefinition operationID responses)
             (SortedResponsesKeys responses) ([], ∅)) = true).
    { apply foldM_is_ok. intros. by apply responseDefinition_ok. }
    by destruct (foldM _ _ _).
  - intros rds Hgen.
    destruct (foldM _ _ _) as [[rds' refSet]| |] eqn:Hfold; try discriminate.
    cbn in Hgen. injection Hgen as ->.
    apply responseDefinitions_fold in Hfold as (new & Hnew & Hk & Has).
    cbn in Hnew. subst new.
    split; [exact Hk|]. split; [|split].
    + rewrite Hk. apply StronglySorted_filter_list, SortedKeys_StronglySorted.
    + intros i rd t Hi Hal.
      destruct (aliasesAssigned_first _ _ _ _ _ _ Has Hi Hal) as [Hfirst Hlater].
      split.
      * apply Hfirst. set_solver.
      * intros Hex. apply Hlater. by right.
    + intros i j a b. exact (aliasesAssigned_unique _ _ _ i j a b Has).
Qed.

End ResponseTheorems.

Example aliasedDefinitions_refs :
  (fun rd => (rd_StatusCode rd, rd_Ref rd)) <$> aliasedDefinitions
  = [("200", "PetResponse"); ("404", "NotFound"); ("default", "")].
Proof. reflexivity. Qed.

Lemma GenerateResponseDefinitions_alias_once_witness :
  GenerateResponseDefinitions "FindPet" aliasedResponses = Ok aliasedDefinitions
  /\ (forall rd, aliasedDefinitions !! 0%nat = Some rd -> rd_Ref rd = "PetResponse")
  /\ (forall rd, aliasedDefinitions !! 2%nat = Some rd -> rd_Ref rd = "").
Proof.
  assert (E : GenerateResponseDefinitions "FindPet" aliasedResponses
              = Ok aliasedDefinitions) by (vm_compute; reflexivity).
  destruct (GenerateResponseDefinitions_alias_once "FindPet" aliasedResponses)
    as [_ Hspec].
  destruct (Hspec aliasedDefinitions E) as (_ & _ & Hfirst & _).
  split; [exact E|]. split.
  - intros rd Hrd.
    apply (proj1 (Hfirst 0%nat rd "PetResponse" Hrd
                    ltac:(injection Hrd as <-; vm_compute; reflexivity))).
    intros j b Hlt. lia.
  - intros rd Hrd.
    apply (proj2 (Hfirst 2%nat rd "PetResponse" Hrd
                    ltac:(injection Hrd as <-; vm_compute; reflexivity))).
    eexists 0%nat, _. split; [lia|]. split; [reflexivity|].
    vm_compute. reflexivity.
Defined.

(** ** Properties of the operation assembler: security *)

Lemma foldM_invariant {A S} (f : S -> A -> result S) (I : S -> Prop) (l : list A) :
  (forall s x s', x ∈ l -> I s -> f s x = Ok s' -> I s') ->
  forall s s', I s -> foldM f l s = Ok s' -> I s'.
Proof.
  induction l as [|x l IH]; intros Hstep s s' Hs Hfold.
  - cbn in Hfold. by simplify_eq.
  - cbn [foldM] in Hfold.
    destruct (f s x) as [s1| |] eqn:Hf; try discriminate. cbn in Hfold.
    eapply IH; [|eapply Hstep; [left|exact Hs|exact Hf]|exact Hfold].
    intros ? ? ? ?. apply Hstep. by right.
Qed.

Section SecurityProperties.
Context `{Collaborators} `{MapOrder}.

Lemma operationDefinition_inv swagger requestPath pathItem globalParams
    operations opName operations' :
  operationDefinition swagger requestPath pathItem globalParams
    (Operations pathItem) operations opName = Ok operations' ->
  exists od op,
    operations' = operations ++ [od]
    /\ Operations pathItem !! opName = Some op
    /\ od_Path od = requestPath /\ od_Method od = opName
    /\ op_Security (od_Spec od) = op_Security op
    /\ od_SecurityDefinitions od = operationSecurity swagger op.
Proof.
  unfold operationDefinition. intros Hstep.
  bind_step Hstep as op.
  assert (Hop : Operations pathItem !! opName = Some op).
  { unfold deref in E. by destruct (Operations pathItem !! opName); simplify_eq. }
  bind_step Hstep as operationID. bind_step Hstep as localParams.
  bind_step Hstep as pathParams.
  bind_step Hstep as [bodyDefinitions typeDefinitions].
  bind_step Hstep as responseDefinitions. bind_step Hstep as more.
  injection Hstep as <-.
  eexists _, op. split; [reflexivity|]. split; [exact Hop|].
  cbn. repeat split; by destruct (pi_Servers pathItem).
Qed.

End SecurityProperties.

(** A loop whose every turn appends a list [bs] to its state, with [P x bs]
    for the element [x] it visits, appends the concatenation of lists that
    are related to the visited elements by [P]. *)
Lemma foldM_concat {A B} (f : list B -> A -> result (list B))
    (P : A -> list B -> Prop) (l : list A) :
  (forall s x s', x ∈ l -> f s x = Ok s' -> exists bs, s' = s ++ bs /\ P x bs) ->
  forall s s', foldM f l s = Ok s' ->
    exists bss, s' = s ++ mjoin bss /\ Forall2 P l bss.
Proof.
  induction l as [|x l IH]; intros Hstep s s' Hfold.
  - cbn in Hfold. simplify_eq. exists []. by rewrite app_nil_r.
  - cbn [foldM] in Hfold.
    destruct (f s x) as [s1| |] eqn:Hf; try discriminate.
    destruct (Hstep s x s1 ltac:(left) Hf) as (bs & -> & HP).
    destruct (IH (fun s x s' Hx => Hstep s x s' ltac:(by right)) _ s' Hfold)
      as (bss & -> & HPs).
    exists (bs :: bss). split; [|by constructor].
    cbn. by rewrite <- app_assoc.
Qed.

(** ** What [DescribeSecurityDefinition] returns *)

Lemma DescribeSecurityDefinition_app `{MapOrder} (l1 l2 : SecurityRequirements) :
  DescribeSecurityDefinition (l1 ++ l2)
  = DescribeSecurityDefinition l1 ++ DescribeSecurityDefinition l2.
Proof. unfold DescribeSecurityDefinition. apply flat_map_app. Qed.

Lemma DescribeSecurityDefinition_one `{MapOrder} (sr : SecurityRequirement) :
  DescribeSecurityDefinition [sr]
  = (fun k => {| sd_ProviderName := k; sd_Scopes := default [] (sr !! k) |})
      <$> SortedKeys sr.
Proof. unfold DescribeSecurityDefinition. cbn. by rewrite app_nil_r. Qed.

(** A provider with its scopes is in the result exactly when some
    requirement maps the provider to these scopes. *)
Lemma DescribeSecurityDefinition_elem_of `{MapOrder}
    (securityRequirements : SecurityRequirements) (sd : SecurityDefinition) :
  sd ∈ DescribeSecurityDefinition securityRequirements
  <-> exists sr, sr ∈ securityRequirements
                 /\ sr !! sd_ProviderName sd = Some (sd_Scopes sd).
Proof.
  destruct sd as [k v]. induction securityRequirements as [|sr l IH].
  - split; [by intros ?%elem_of_nil|]. by intros (sr & ?%elem_of_nil & _).
  - change (sr :: l) with ([sr] ++ l).
    rewrite DescribeSecurityDefinition_app, elem_of_app, IH,
      DescribeSecurityDefinition_one, list_elem_of_fmap.
    cbn. split.
    + intros [(k' & [= -> ->] & Hk)|(sr' & Hin & Hsr)].
      * exists sr. split; [left|].
        apply elem_of_SortedKeys in Hk as [v Hv]. by rewrite Hv.
      * exists sr'. split; [by right|done].
    + intros (sr' & [->|Hin]%elem_of_cons & Hsr).
      * left. exists k. split; [by rewrite Hsr|].
        apply elem_of_SortedKeys. by exists v.
      * right. by exists sr'.
Qed.

Lemma DescribeSecurityDefinition_length `{MapOrder}
    (securityRequirements : SecurityRequirements) :
  length (DescribeSecurityDefinition securityRequirements)
  = sum_list (size <$> securityRequirements).
Proof.
  induction securityRequirements as [|sr l IH]; [reflexivity|].
  change (sr :: l) with ([sr] ++ l).
  rewrite DescribeSecurityDefinition_app, length_app, IH,
    DescribeSecurityDefinition_one, length_fmap.
  cbn. f_equal.
  rewrite (Permutation_length (SortedKeys_Permutation sr)), length_fmap.
  apply length_map_to_list.
Qed.

(** The result, requirement by requirement: the providers of each in
    ascending order, each with the scopes that the requirement gives it. *)
Lemma DescribeSecurityDefinition_providers `{MapOrder}
    (securityRequirements : SecurityRequirements) :
  DescribeSecurityDefinition securityRequirements
  = sr ← securityRequirements;
    (fun provider => {| sd_ProviderName := provider;
                        sd_Scopes := default [] (sr !! provider) |})
      <$> SortedSecurityRequirementKeys sr.
Proof.
  unfold DescribeSecurityDefinition.
  induction securityRequirements as [|sr l IH]; [reflexivity|].
  cbn [flat_map]. by rewrite IH.
Qed.

Section SecurityTheorems.
Context `{Collaborators} `{MapOrder}.

Lemma pathDefinitions_inv swagger operations requestPath operations' :
  pathDefinitions swagger operations requestPath = Ok operations' ->
  exists ods, operations' = operations ++ ods
              /\ pathContribution swagger requestPath ods.
Proof.
  unfold pathDefinitions. intros Hpath.
  bind_step Hpath as pathItem.
  assert (Hitem : doc_Paths swagger !! requestPath = Some pathItem).
  { unfold deref in E.
    by destruct (doc_Paths swagger !! requestPath); simplify_eq. }
  bind_step Hpath as globalParams.
  eapply (foldM_concat _
            (fun opName ods' =>
               exists od, ods' = [od] /\ od_Path od = requestPath
                 /\ od_Method od = opName /\ securityResolved swagger od))
    in Hpath as (bss & -> & Hall).
  - assert (exists ods, bss = (fun od => [od]) <$> ods) as [ods ->].
    { clear -Hall. induction Hall as [|k bs ks bss (od & -> & _) _ [ods ->]].
      - by exists [].
      - by exists (od :: ods). }
    exists ods. split.
    + f_equal. clear. induction ods; [done|]. cbn. by f_equal.
    + by exists pathItem.
  - intros s opName s' _ Hstep.
    apply operationDefinition_inv in Hstep
      as (od & op & -> & Hop & Hp & Hm & Hsec & Hdefs).
    exists [od]. split; [done|]. exists od. repeat split; [done..|].
    exists pathItem, op. rewrite Hp, Hm. by repeat split.
Qed.

(** C9.  Every operation of the document gives one operation definition,
    and every operation definition comes from an operation of the
    document, at its path and method.  Its security providers are those of
    the security field of that operation alone when the field is set (none
    at all when it is set to the empty list), and those of the security
    requirements of the document exactly when the field is absent: a
    provider with its scopes is among them exactly when some requirement of
    the chosen list maps the provider to these scopes, and they come
    requirement by requirement, the providers of one requirement in
    ascending order. *)
Theorem OperationDefinitions_security (swagger : T)
    (ops : list OperationDefinition) :
  OperationDefinitions swagger = Ok ops ->
  (forall od, od ∈ ops ->
     exists pathItem op,
       doc_Paths swagger !! od_Path od = Some pathItem
       /\ Operations pathItem !! od_Method od = Some op
       /\ op_Security (od_Spec od) = op_Security op
       /\ (forall security, op_Security op = Some security ->
             od_SecurityDefinitions od = DescribeSecurityDefinition security)
       /\ (op_Security op = Some [] -> od_SecurityDefinitions od = [])
       /\ (op_Security op = None ->
             od_SecurityDefinitions od
             = DescribeSecurityDefinition (doc_Security swagger))
       /\ let securityRequirements :=
            match op_Security op with
            | Some security => security
            | None => doc_Security swagger
            end in
          (forall provider scopes,
             {| sd_ProviderName := provider; sd_Scopes := scopes |}
             ∈ od_SecurityDefinitions od
             <-> exists sr, sr ∈ securityRequirements
                            /\ sr !! provider = Some scopes)
          /\ od_SecurityDefinitions od
             = (sr ← securityRequirements;
                (fun provider =>
                   {| sd_ProviderName := provider;
                      sd_Scopes := default [] (sr !! provider) |})
                  <$> SortedSecurityRequirementKeys sr)
          /\ length (od_SecurityDefinitions od)
             = sum_list (size <$> securityRequirements))
  /\ (forall requestPath pathItem opName op,
        doc_Paths swagger !! requestPath = Some pathItem ->
        Operations pathItem !! opName = Some op ->
        exists od, od ∈ ops /\ od_Path od = requestPath
                   /\ od_Method od = opName).
Proof.
  unfold OperationDefinitions. intros Hops.
  eapply (foldM_concat _ (pathContribution swagger)) in Hops
    as (odss & -> & Hall);
    [|intros s x s' _ Hx; by apply pathDefinitions_inv in Hx].
  cbn [app]. split.
  - intros od Hod. apply list_elem_of_join in Hod as (ods & Hod & Hods).
    apply list_elem_of_lookup in Hods as [i Hi].
    destruct (Forall2_lookup_r _ _ _ _ _ Hall Hi)
      as (requestPath & _ & pathItem & _ & Hods).
    assert (Hin : [od] ∈ (fun od => [od]) <$> ods)
      by (apply list_elem_of_fmap; eauto).
    apply list_elem_of_lookup in Hin as [j Hj].
    destruct (Forall2_lookup_r _ _ _ _ _ Hods Hj)
      as (opName & _ & od' & [= <-] & _ & _ & Hsec).
    destruct Hsec as (pathItem' & op & Hp & Ho & Hs & Hd).
    exists pathItem', op. rewrite Hd.
    split; [done|]. split; [done|]. split; [done|].
    split; [by intros security ->|]. split; [by intros ->|].
    split; [by intros ->|]. cbv zeta.
    assert (Hchosen :
      match op_Security op with
      | Some security => DescribeSecurityDefinition security
      | None => DescribeSecurityDefinition (doc_Security swagger)
      end
      = DescribeSecurityDefinition
          match op_Security op with
          | Some security => security
          | None => doc_Security swagger
          end) by (by destruct (op_Security op)).
    rewrite Hchosen. split; [|split].
    + intros provider scopes. apply DescribeSecurityDefinition_elem_of.
    + apply DescribeSecurityDefinition_providers.
    + apply DescribeSecurityDefinition_length.
  - intros requestPath pathItem opName op Hpath Hop.
    assert (Hk : requestPath ∈ SortedPathsKeys (doc_Paths swagger))
      by (apply elem_of_SortedKeys; eauto).
    apply list_elem_of_lookup in Hk as [i Hi].
    destruct (Forall2_lookup_l _ _ _ _ _ Hall Hi)
      as (ods & Hods & pathItem' & Hpath' & Hcontrib).
    rewrite Hpath in Hpath'. injection Hpath' as <-.
    assert (Hm : opName ∈ SortedOperationsKeys (Operations pathItem))
      by (apply elem_of_SortedKeys; eauto).
    apply list_elem_of_lookup in Hm as [j Hj].
    destruct (Forall2_lookup_l _ _ _ _ _ Hcontrib Hj)
      as (ods' & Hods' & od & -> & Hp & Hmth & _).
    exists od. split; [|done].
    apply list_elem_of_join. exists ods. split.
    + apply list_elem_of_lookup_2 in Hods'.
      apply list_elem_of_fmap in Hods' as (od' & [= ->] & Hin). done.
    + by eapply list_elem_of_lookup_2.
Qed.

End SecurityTheorems.

(** ** A small document *)

Example petStoreOperations_security :
  (fun od => (od_Path od, od_Method od, od_OperationId od,
              od_SecurityDefinitions od)) <$> petStoreOperations
  = [ ("/pets", "GET", "ReadPetsList",
       [ {| sd_ProviderName := "basic"; sd_Scopes := [] |};
         {| sd_ProviderName := "petstore_auth";
            sd_Scopes := ["write"; "read"] |} ]);
      ("/pets", "POST", "AddPet", []);
      ("/pets/{id}", "GET", "ReadPets",
       [ {| sd_ProviderName := "api_key"; sd_Scopes := [] |} ]) ].
Proof. reflexivity. Qed.

Lemma OperationDefinitions_security_witness :
  OperationDefinitions petStore = Ok petStoreOperations
  /\ (exists od, od ∈ petStoreOperations /\ od_Path od = "/pets"
                 /\ od_Method od = "GET"
                 /\ op_Security (od_Spec od) = None
                 /\ od_SecurityDefinitions od
                    = [ {| sd_ProviderName := "basic"; sd_Scopes := [] |};
                        {| sd_ProviderName := "petstore_auth";
                           sd_Scopes := ["write"; "read"] |} ])
  /\ (exists od, od ∈ petStoreOperations /\ od_Path od = "/pets/{id}"
                 /\ od_Method od = "GET"
                 /\ od_SecurityDefinitions od
                    = [ {| sd_ProviderName := "api_key"; sd_Scopes := [] |} ])
  /\ (exists od, od ∈ petStoreOperations /\ od_Path od = "/pets"
                 /\ od_Method od = "POST"
                 /\ op_Security (od_Spec od) = Some []
                 /\ od_SecurityDefinitions od = []).
Proof.
  assert (E : OperationDefinitions petStore = Ok petStoreOperations)
    by (vm_compute; reflexivity).
  destruct (OperationDefinitions_security petStore petStoreOperations E)
    as [Hfrom Hall].
  assert (Hat : forall requestPath pathItem opName op,
            doc_Paths petStore !! requestPath = Some pathItem ->
            Operations pathItem !! opName = Some op ->
            exists od, od ∈ petStoreOperations /\ od_Path od = requestPath
                       /\ od_Method od = opName
                       /\ op_Security (od_Spec od) = op_Security op
                       /\ od_SecurityDefinitions od
                          = (sr ← match op_Security op with
                                  | Some security => security
                                  | None => doc_Security petStore
                                  end;
                             (fun provider =>
                                {| sd_ProviderName := provider;
                                   sd_Scopes := default [] (sr !! provider) |})
                               <$> SortedSecurityRequirementKeys sr)).
  { intros requestPath pathItem opName op Hpath Hop.
    destruct (Hall requestPath pathItem opName op Hpath Hop)
      as (od & Hod & Hp & Hm).
    destruct (Hfrom od Hod)
      as (pathItem' & op' & Hpath' & Hop' & Hsec & _ & _ & _ & Hprov).
    cbv zeta in Hprov. destruct Hprov as (_ & Hlist & _).
    rewrite Hp, Hpath in Hpath'. injection Hpath' as <-.
    rewrite Hm, Hop in Hop'. injection Hop' as <-.
    exists od. split; [exact Hod|]. split; [exact Hp|]. split; [exact Hm|].
    split; [exact Hsec|exact Hlist]. }
  split; [exact E|]. split; [|split].
  - destruct (Hat "/pets" petsItem "GET"
                (mkOperation "" [] None aliasedResponses None)
                eq_refl eq_refl) as (od & Hod & Hp & Hm & Hsec & Hdefs).
    exists od. split; [exact Hod|]. split; [exact Hp|]. split; [exact Hm|].
    split; [exact Hsec|]. rewrite Hdefs. vm_compute. reflexivity.
  - destruct (Hat "/pets/{id}" petItem "GET"
                (mkOperation "" [] None aliasedResponses
                   (Some [ {[ "api_key" := [] ]} ]))
                eq_refl eq_refl) as (od & Hod & Hp & Hm & Hsec & Hdefs).
    exists od. split; [exact Hod|]. split; [exact Hp|]. split; [exact Hm|].
    rewrite Hdefs. vm_compute. reflexivity.
  - destruct (Hat "/pets" petsItem "POST"
                (mkOperation "add-pet"
                   [inlineParam
                      (mkParam "limit" "query" "spaceDelimited" (Some false)
                         (Some stringSchema) ∅)]
                   threeTypesBody aliasedResponses (Some []))
                eq_refl eq_refl) as (od & Hod & Hp & Hm & Hsec & Hdefs).
    exists od. split; [exact Hod|]. split; [exact Hp|]. split; [exact Hm|].
    split; [exact Hsec|]. rewrite Hdefs. reflexivity.
Defined.

(** ** Determinism: the result does not depend on the order of [range] *)

Lemma existsb_Permutation {A} (f : A -> bool) (l1 l2 : list A) :
  l1 ≡ₚ l2 -> existsb f l1 = existsb f l2.
Proof.
  induction 1 as [|x l1 l2 _ IH|x y l|l1 l2 l3 _ IH1 _ IH2]; cbn.
  - reflexivity.
  - by rewrite IH.
  - by destruct (f x), (f y).
  - by rewrite IH1.
Qed.

Lemma fold_left_insert_foldr {A B} (g : A -> B) (l : list (string * A))
    (m0 : gmap string B) :
  fold_left (fun (m : gmap string B) kv => <[ kv.1 := g kv.2 ]> m) l m0
  = foldr (fun kv (m : gmap string B) => <[ kv.1 := g kv.2 ]> m) m0 (reverse l).
Proof.
  revert m0. induction l as [|kv l IH]; intros m0; [reflexivity|].
  cbn [fold_left]. rewrite IH, reverse_cons, foldr_app. reflexivity.
Qed.

Lemma fold_left_insert_list_to_map {A B} (g : A -> B) (l : list (string * A)) :
  fold_left (fun (m : gmap string B) kv => <[ kv.1 := g kv.2 ]> m) l ∅
  = list_to_map (prod_map id g <$> reverse l).
Proof.
  rewrite fold_left_insert_foldr.
  induction (reverse l) as [|[k v] l' IH]; [reflexivity|].
  cbn. by rewrite IH.
Qed.

(** The encodings of a body are those of the document, converted, whatever
    the order in which [range] visits them. *)
Lemma bodyEncoding_fmap `{MapOrder} (content : MediaType) :
  bodyEncoding content = toBodyEncoding <$> mt_Encoding content.
Proof.
  unfold bodyEncoding.
  destruct (size (mt_Encoding content) =? 0)%nat eqn:Hsize.
  - apply Nat.eqb_eq, map_size_empty_inv in Hsize. rewrite Hsize.
    by rewrite fmap_empty.
  - change (fun (m : gmap string RequestBodyEncoding) (kv : string * Encoding) =>
              <[ kv.1 := {| rbe_ContentType := enc_ContentType kv.2;
                            rbe_Style := enc_Style kv.2;
                            rbe_Explode := enc_Explode kv.2 |} ]> m)
      with (fun (m : gmap string RequestBodyEncoding) (kv : string * Encoding) =>
              <[ kv.1 := toBodyEncoding kv.2 ]> m).
    rewrite fold_left_insert_list_to_map.
    rewrite <- (list_to_map_to_list (toBodyEncoding <$> mt_Encoding content)).
    apply list_to_map_proper.
    + rewrite <- list_fmap_compose, reverse_Permutation.
      rewrite (range_perm _ (mt_Encoding content)).
      apply NoDup_fst_map_to_list.
    + rewrite reverse_Permutation, map_to_list_fmap.
      by rewrite (range_perm _ (mt_Encoding content)).
Qed.

Section Determinism.
Context `{Collaborators} (O1 O2 : MapOrder).

Lemma IsJson_order pd : @IsJson _ O1 pd = @IsJson _ O2 pd.
Proof.
  unfold IsJson. destruct (_ =? _)%nat; [|reflexivity].
  apply existsb_Permutation.
  by rewrite (@range_perm O1), (@range_perm O2).
Qed.

Lemma IsPassThrough_order pd : @IsPassThrough _ O1 pd = @IsPassThrough _ O2 pd.
Proof. unfold IsPassThrough. by rewrite IsJson_order. Qed.

Lemma DescribeSecurityDefinition_order securityRequirements :
  @DescribeSecurityDefinition O1 securityRequirements
  = @DescribeSecurityDefinition O2 securityRequirements.
Proof.
  unfold DescribeSecurityDefinition.
  induction securityRequirements as [|sr l IH]; [reflexivity|].
  cbn [flat_map]. rewrite IH. unfold SortedSecurityRequirementKeys.
  by rewrite (SortedKeys_order O1 O2).
Qed.

Lemma operationSecurity_order swagger op :
  @operationSecurity O1 swagger op = @operationSecurity O2 swagger op.
Proof.
  unfold operationSecurity.
  destruct (op_Security op); apply DescribeSecurityDefinition_order.
Qed.

Lemma bodyDefinition_order operationID body acc contentType :
  @bodyDefinition _ O1 operationID body acc contentType
  = @bodyDefinition _ O2 operationID body acc contentType.
Proof.
  unfold bodyDefinition. destruct acc as [bds tds].
  destruct (bodyTag contentType) as [[tag defaultBody]|]; [|reflexivity].
  destruct (deref (rb_Content body) contentType) as [content| |];
    cbn [mbind result_bind rbind]; [|reflexivity..].
  by rewrite (@bodyEncoding_fmap O1), (@bodyEncoding_fmap O2).
Qed.

Lemma GenerateBodyDefinitions_order operationID bodyOrRef :
  @GenerateBodyDefinitions _ O1 operationID bodyOrRef
  = @GenerateBodyDefinitions _ O2 operationID bodyOrRef.
Proof.
  unfold GenerateBodyDefinitions. destruct bodyOrRef as [ref|]; [|reflexivity].
  unfold SortedContentKeys. rewrite (SortedKeys_order O1 O2).
  rewrite (foldM_ext_in (@bodyDefinition _ O1 operationID (rbref_Value ref))
             (@bodyDefinition _ O2 operationID (rbref_Value ref)));
    [reflexivity|].
  intros. apply bodyDefinition_order.
Qed.

Lemma responseDefinition_order operationID responses acc statusCode :
  @responseDefinition _ O1 operationID responses acc statusCode
  = @responseDefinition _ O2 operationID responses acc statusCode.
Proof.
  unfold responseDefinition. destruct acc as [rds refSet].
  destruct (responses !! statusCode) as [[r|]|]; [|reflexivity..].
  unfold SortedContentKeys, SortedHeadersKeys.
  by rewrite !(SortedKeys_order O1 O2).
Qed.

Lemma GenerateResponseDefinitions_order operationID responses :
  @GenerateResponseDefinitions _ O1 operationID responses
  = @GenerateResponseDefinitions _ O2 operationID responses.
Proof.
  unfold GenerateResponseDefinitions, SortedResponsesKeys.
  rewrite (SortedKeys_order O1 O2).
  rewrite (foldM_ext_in (@responseDefinition _ O1 operationID responses)
             (@responseDefinition _ O2 operationID responses));
    [reflexivity|].
  intros. apply responseDefinition_order.
Qed.

Lemma operationDefinition_order swagger requestPath pathItem globalParams
    pathOps operations opName :
  @operationDefinition _ O1 swagger requestPath pathItem globalParams pathOps
    operations opName
  = @operationDefinition _ O2 swagger requestPath pathItem globalParams pathOps
      operations opName.
Proof.
  unfold operationDefinition.
  destruct (deref pathOps opName) as [op| |];
    cbn [mbind result_bind rbind]; [|reflexivity..].
  match goal with
  | |- mbind _ ?c = _ =>
      destruct c as [operationID| |]; cbn [mbind result_bind rbind];
      [|reflexivity..]
  end.
  match goal with
  | |- mbind _ ?c = _ =>
      destruct c as [localParams| |]; cbn [mbind result_bind rbind];
      [|reflexivity..]
  end.
  match goal with
  | |- mbind _ ?c = _ =>
      destruct c as [pathParams| |]; cbn [mbind result_bind rbind];
      [|reflexivity..]
  end.
  rewrite (GenerateBodyDefinitions_order _ _).
  match goal with
  | |- mbind _ ?c = _ =>
      destruct c as [[bodyDefinitions typeDefinitions]| |];
      cbn [mbind result_bind rbind]; [|reflexivity..]
  end.
  rewrite (GenerateResponseDefinitions_order _ _).
  match goal with
  | |- mbind _ ?c = _ =>
      destruct c as [responseDefinitions| |];
      cbn [mbind result_bind rbind]; [|reflexivity..]
  end.
  by rewrite (operationSecurity_order swagger _).
Qed.

Lemma pathDefinitions_order swagger operations requestPath :
  @pathDefinitions _ O1 swagger operations requestPath
  = @pathDefinitions _ O2 swagger operations requestPath.
Proof.
  unfold pathDefinitions.
  destruct (deref (doc_Paths swagger) requestPath) as [pathItem| |];
    cbn [mbind result_bind rbind]; [|reflexivity..].
  match goal with
  | |- mbind _ ?c = _ =>
      destruct c as [globalParams| |]; cbn [mbind result_bind rbind];
      [|reflexivity..]
  end.
  unfold SortedOperationsKeys. rewrite (SortedKeys_order O1 O2).
  apply foldM_ext_in. intros. apply operationDefinition_order.
Qed.

End Determinism.

(** C7.  Compilation is deterministic: the list of operation definitions
    that [OperationDefinitions] returns for a document is the same for any
    two orders in which [range] may visit the maps of the document (paths,
    operations of a path, content types, responses, headers, security
    requirements, encodings), every one of them being visited through its
    sorted keys or to build a map. *)
Theorem OperationDefinitions_deterministic `{Collaborators}
    (O1 O2 : MapOrder) (swagger : T) :
  @OperationDefinitions _ O1 swagger = @OperationDefinitions _ O2 swagger.
Proof.
  unfold OperationDefinitions, SortedPathsKeys.
  rewrite (SortedKeys_order O1 O2).
  apply foldM_ext_in. intros. apply pathDefinitions_order.
Qed.

(** The two orders do differ on the paths of the sample document. *)
Example petStore_orders_differ :
  (@range_ listOrder _ (doc_Paths petStore)).*1 = ["/pets/{id}"; "/pets"]
  /\ (@range_ reverseOrder _ (doc_Paths petStore)).*1 = ["/pets"; "/pets/{id}"].
Proof. split; vm_compute; reflexivity. Qed.

Lemma OperationDefinitions_deterministic_witness :
  @OperationDefinitions referenceCollaborators listOrder petStore
  = Ok petStoreOperations
  /\ @OperationDefinitions referenceCollaborators reverseOrder petStore
     = Ok petStoreOperations.
Proof.
  assert (E : @OperationDefinitions referenceCollaborators listOrder petStore
              = Ok petStoreOperations) by (vm_compute; reflexivity).
  split; [exact E|].
  rewrite <- (OperationDefinitions_deterministic listOrder reverseOrder petStore).
  exact E.
Defined.

(** ** Splitting and joining strings *)

Lemma pieces_nonempty (sep : ascii) (s : string) : pieces sep s <> [].
Proof.
  induction s as [|c s IH]; [done|]. cbn.
  destruct (Ascii.eqb c sep); [done|]. by destruct (pieces sep s).
Qed.

Lemma Split_go_pieces (sep : ascii) (cur s : string) :
  Split_go sep cur s
  = match pieces sep s with
    | h :: t => String.rev_app cur h :: t
    | [] => []
    end.
Proof.
  revert cur. induction s as [|c s IH]; intros cur; [reflexivity|].
  cbn. destruct (Ascii.eqb c sep).
  - f_equal. rewrite IH. pose proof (pieces_nonempty sep s).
    by destruct (pieces sep s).
  - rewrite IH. pose proof (pieces_nonempty sep s).
    by destruct (pieces sep s).
Qed.

Lemma Split_pieces (s : string) (sep : ascii) : Split s sep = pieces sep s.
Proof.
  unfold Split. rewrite Split_go_pieces.
  pose proof (pieces_nonempty sep s). by destruct (pieces sep s).
Qed.

Lemma pieces_no_sep (sep : ascii) (s p : string) :
  p ∈ pieces sep s -> ContainsRune p sep = false.
Proof.
  revert p. induction s as [|c s IH]; intros p Hp.
  - cbn in Hp. apply list_elem_of_singleton in Hp as ->. reflexivity.
  - cbn in Hp. destruct (Ascii.eqb c sep) eqn:Hc.
    + apply elem_of_cons in Hp as [->|Hp]; [reflexivity|by apply IH].
    + pose proof (pieces_nonempty sep s).
      destruct (pieces sep s) as [|h t]; [done|].
      apply elem_of_cons in Hp as [->|Hp].
      * cbn. rewrite Ascii.eqb_sym, Hc. cbn. apply IH. by left.
      * apply IH. by right.
Qed.

Lemma pieces_length (sep : ascii) (s : string) :
  ContainsRune s sep = true -> (2 <= length (pieces sep s))%nat.
Proof.
  induction s as [|c s IH]; [discriminate|]. cbn.
  rewrite Ascii.eqb_sym. destruct (Ascii.eqb c sep); cbn.
  - intros _. pose proof (pieces_nonempty sep s).
    destruct (pieces sep s); [done|]. cbn. lia.
  - intros Hs. specialize (IH Hs). destruct (pieces sep s); cbn in *; lia.
Qed.

Lemma pieces_whole (sep : ascii) (s : string) :
  ContainsRune s sep = false -> pieces sep s = [s].
Proof.
  induction s as [|c s IH]; [reflexivity|]. cbn.
  rewrite Ascii.eqb_sym. destruct (Ascii.eqb c sep); [discriminate|]. cbn.
  intros Hs. by rewrite IH.
Qed.

Lemma Join_cons (p : string) (parts : list string) (sep : string) :
  parts <> [] -> Join (p :: parts) sep = p +:+ sep +:+ Join parts sep.
Proof. by destruct parts. Qed.

Lemma Join_pieces (sep : ascii) (s : string) :
  Join (pieces sep s) (String sep "") = s.
Proof.
  induction s as [|c s IH]; [reflexivity|]. cbn [pieces].
  pose proof (pieces_nonempty sep s) as Hne.
  destruct (Ascii.eqb_spec c sep) as [->|Hc].
  - rewrite Join_cons, IH by done. reflexivity.
  - destruct (pieces sep s) as [|h t] eqn:Hp; [done|].
    destruct t as [|h' t].
    + cbn in *. by rewrite IH.
    + rewrite Join_cons by done. rewrite Join_cons in IH by done.
      rewrite <- IH. reflexivity.
Qed.

Lemma pieces_cons_no_sep (sep : ascii) (p s : string) :
  ContainsRune p sep = false ->
  pieces sep (p +:+ String sep s) = p :: pieces sep s.
Proof.
  induction p as [|c p IH]; intros Hp.
  - change (pieces sep (String sep s) = "" :: pieces sep s).
    cbn [pieces]. by rewrite Ascii.eqb_refl.
  - change (pieces sep (String c (p +:+ String sep s))
            = String c p :: pieces sep s).
    cbn [pieces ContainsRune] in *. rewrite Ascii.eqb_sym in Hp.
    destruct (Ascii.eqb c sep); [discriminate|]. by rewrite IH.
Qed.

Lemma pieces_Join (sep : ascii) (parts : list string) :
  parts <> [] -> Forall (fun p => ContainsRune p sep = false) parts ->
  pieces sep (Join parts (String sep "")) = parts.
Proof.
  induction parts as [|p parts IH]; [done|]. intros _ Hall.
  apply Forall_cons in Hall as [Hp Hall].
  destruct parts as [|q parts].
  - cbn. by apply pieces_whole.
  - rewrite Join_cons by done.
    change (String sep "" +:+ Join (q :: parts) (String sep ""))
      with (String sep (Join (q :: parts) (String sep ""))).
    rewrite pieces_cons_no_sep by done. f_equal. by apply IH.
Qed.

Lemma substring_whole (s : string) : String.substring 0 (String.length s) s = s.
Proof. induction s as [|c s IH]; [reflexivity|]. cbn. by rewrite IH. Qed.

Lemma uncomment_comment (p : string) : uncomment ("// " +:+ p) = p.
Proof.
  unfold uncomment.
  change (String.length ("// " +:+ p)) with (S (S (S (String.length p)))).
  replace (S (S (S (String.length p))) - 3)%nat with (String.length p) by lia.
  apply substring_whole.
Qed.

(** X1.  [SummaryAsComment] turns the summary, without one final line feed,
    into line comments: every line of the result starts with [// ], there
    is one line per line of the summary, and taking the marks away gives the
    summary back.  An empty summary gives the empty string. *)
Theorem SummaryAsComment_lines (o : OperationDefinition) :
  (od_Summary o = "" -> SummaryAsComment o = "")
  /\ (od_Summary o <> "" ->
      let trimmed := TrimSuffix (od_Summary o) newline in
      let lines := Split (SummaryAsComment o) newline in
      lines = (fun p => "// " +:+ p) <$> Split trimmed newline
      /\ Forall (fun line => HasPrefix line "// " = true) lines
      /\ Join (uncomment <$> lines) (String newline "") = trimmed).
Proof.
  unfold SummaryAsComment. split.
  - by intros ->.
  - intros Hne. apply String.eqb_neq in Hne. rewrite Hne. cbn zeta.
    rewrite !Split_pieces.
    assert (Hlines :
      pieces newline
        (Join ((fun p => "// " +:+ p)
                 <$> pieces newline (TrimSuffix (od_Summary o) newline))
              (String newline ""))
      = (fun p => "// " +:+ p)
          <$> pieces newline (TrimSuffix (od_Summary o) newline)).
    { apply pieces_Join.
      - pose proof (pieces_nonempty newline (TrimSuffix (od_Summary o) newline)).
        by destruct (pieces newline _).
      - apply Forall_fmap, Forall_forall. intros p Hp.
        apply pieces_no_sep in Hp. cbn. exact Hp. }
    rewrite Hlines. split; [reflexivity|]. split.
    + apply Forall_fmap, Forall_forall. intros p _. by destruct p.
    + rewrite <- list_fmap_compose.
      assert (Hid : forall l : list string,
                (uncomment ∘ (fun p => "// " +:+ p)) <$> l = l).
      { intros l. induction l as [|p l IH]; [done|].
        rewrite fmap_cons, IH. unfold compose at 1.
        by rewrite uncomment_comment. }
      rewrite Hid. apply Join_pieces.
Qed.

Lemma SummaryAsComment_lines_witness :
  let o (summary : string) :=
    {| od_OperationId := "FindPets"; od_PathParams := []; od_HeaderParams := [];
       od_QueryParams := []; od_CookieParams := []; od_TypeDefinitions := [];
       od_SecurityDefinitions := []; od_BodyRequired := false; od_Bodies := [];
       od_Responses := []; od_Summary := summary; od_Method := "GET";
       od_Path := "/pets";
       od_Spec := mkOperation "" [] None ∅ None |} in
  let summary := "Returns all pets" +:+ String newline "from the store"
                 +:+ String newline "" in
  SummaryAsComment (o "") = ""
  /\ Split (SummaryAsComment (o summary)) newline
     = ["// Returns all pets"; "// from the store"].
Proof.
  intros o summary. split.
  - apply (proj1 (SummaryAsComment_lines (o ""))). reflexivity.
  - rewrite (proj1 (proj2 (SummaryAsComment_lines (o summary)) ltac:(discriminate))).
    reflexivity.
Defined.

(** ** Path templates and synthesised identifiers *)

Lemma string_snoc (s : string) :
  s <> "" -> exists s' c, s = s' +:+ String c "".
Proof.
  induction s as [|d s IH]; [done|]. intros _.
  destruct s as [|e s].
  - by exists "", d.
  - destruct IH as (s' & c & Hs); [done|].
    exists (String d s'), c. rewrite Hs. reflexivity.
Qed.

Lemma get_snoc (s : string) (c : ascii) :
  String.get (String.length s) (s +:+ String c "") = Some c.
Proof. induction s as [|d s IH]; [reflexivity|]. exact IH. Qed.

Lemma length_snoc (s : string) (c : ascii) :
  String.length (s +:+ String c "") = S (String.length s).
Proof.
  induction s as [|d s IH]; [reflexivity|].
  change (S (String.length (s +:+ String c "")) = S (S (String.length s))).
  by rewrite IH.
Qed.

Lemma byte_at_first (a : ascii) (rest : string) :
  byte_at (String a rest) 0 = Some a.
Proof. reflexivity. Qed.

Lemma byte_at_last (a b : ascii) (name : string) :
  let part := String a (name +:+ String b "") in
  byte_at part (len part - 1) = Some b /\ (len part <? 2) = false.
Proof.
  cbn zeta. unfold byte_at, len.
  assert (Hlen : String.length (String a (name +:+ String b ""))
                 = S (S (String.length name)))
    by (cbn [String.length]; by rewrite length_snoc).
  rewrite Hlen. split.
  - destruct (Z.ltb_spec (Z.of_nat (S (S (String.length name))) - 1) 0); [lia|].
    replace (Z.to_nat (Z.of_nat (S (S (String.length name))) - 1))
      with (S (String.length name)) by lia.
    cbn [String.get]. apply get_snoc.
  - apply Z.ltb_ge. lia.
Qed.

(** X2.  A segment is a path parameter exactly when it is an opening brace,
    any text, and a closing brace; the lone brace and the empty segment are
    not. *)
Theorem isPathParam_braces (part : string) :
  isPathParam part = true <-> exists name, part = "{" +:+ name +:+ "}".
Proof.
  split.
  - unfold isPathParam. intros Hp.
    destruct (len part <? 2) eqn:Hlen; [discriminate|].
    apply Z.ltb_ge in Hlen. unfold len in Hlen.
    destruct part as [|a rest]; [cbn in Hlen; lia|].
    destruct (string_snoc rest) as (name & b & ->).
    { intros ->. cbn in Hlen. lia. }
    rewrite byte_at_first, (proj1 (byte_at_last a b name)) in Hp.
    apply andb_true_iff in Hp as [Ha Hb].
    apply Ascii.eqb_eq in Ha as ->. apply Ascii.eqb_eq in Hb as ->.
    by exists name.
  - intros [name ->].
    change ("{" +:+ name +:+ "}") with (String "{" (name +:+ String "}" "")).
    unfold isPathParam.
    destruct (byte_at_last "{" "}" name) as [Hlast Hlen].
    by rewrite Hlen, byte_at_first, Hlast.
Qed.

(** X3.  [getPathParamCount] counts the segments that are path parameters:
    the test on the length of a segment leaves nothing out. *)
Theorem getPathParamCount_filter (parts : list string) :
  getPathParamCount parts
  = Z.of_nat (length (filter (fun part => isPathParam part = true) parts))
  /\ 0 <= getPathParamCount parts <= Z.of_nat (length parts).
Proof.
  assert (Hcount : forall acc,
    fold_left
      (fun count part =>
         if len part <? 2 then count
         else if isPathParam part then count + 1 else count) parts acc
    = acc + Z.of_nat (length (filter (fun part => isPathParam part = true) parts))).
  { induction parts as [|part parts IH]; intros acc; [cbn; lia|].
    cbn [fold_left]. rewrite IH, filter_cons.
    destruct (isPathParam part) eqn:Hp.
    - rewrite decide_True by done.
      unfold isPathParam in Hp. destruct (len part <? 2); [discriminate|].
      cbn [length]. lia.
    - rewrite decide_False by done. by destruct (len part <? 2). }
  unfold getPathParamCount. rewrite Hcount. split; [lia|].
  pose proof (length_filter (fun part => isPathParam part = true) parts). lia.
Qed.

Lemma isSinglePathWithParams_from_spec (i : nat) (parts : list string) :
  isSinglePathWithParams_from i parts = true
  <-> forall j part, parts !! j = Some part ->
        isPathParam part = negb (i + j <=? 1)%nat.
Proof.
  revert i. induction parts as [|p parts IH]; intros i.
  - split; [|done]. intros _ j part Hj. by rewrite lookup_nil in Hj.
  - assert (Hshift :
      (forall j part, (p :: parts) !! j = Some part ->
         isPathParam part = negb (i + j <=? 1)%nat)
      <-> isPathParam p = negb (i <=? 1)%nat
          /\ forall j part, parts !! j = Some part ->
                isPathParam part = negb (S i + j <=? 1)%nat).
    { split.
      - intros Hall. split.
        + rewrite (Hall 0%nat p eq_refl). by rewrite Nat.add_0_r.
        + intros j part Hj. rewrite (Hall (S j) part Hj).
          by replace (i + S j)%nat with (S i + j)%nat by lia.
      - intros [Hp Hall] [|j] part Hj; cbn in Hj.
        + simplify_eq. by rewrite Nat.add_0_r.
        + rewrite (Hall j part Hj).
          by replace (i + S j)%nat with (S i + j)%nat by lia. }
    rewrite Hshift, <- IH. cbn [isSinglePathWithParams_from].
    destruct (isPathParam p); destruct (Nat.leb_spec i 1);
      destruct (Nat.ltb_spec 1 i); try lia; cbn [andb negb];
      split; try discriminate; try tauto; by intros [? ?].
Qed.

(** X4.  [isSinglePathWithParams] holds exactly when the first two segments
    of the split path are not parameters and every later one is. *)
Theorem isSinglePathWithParams_spec (parts : list string) :
  isSinglePathWithParams parts = true
  <-> forall j part, parts !! j = Some part ->
        ((j <= 1)%nat -> isPathParam part = false)
        /\ ((1 < j)%nat -> isPathParam part = true).
Proof.
  unfold isSinglePathWithParams. rewrite isSinglePathWithParams_from_spec.
  split; intros Hall j part Hj; specialize (Hall j part Hj);
    rewrite ?Nat.add_0_l in *.
  - destruct (Nat.leb_spec j 1); split; intros; try lia; done.
  - destruct Hall as [Hlow Hhigh].
    destruct (Nat.leb_spec j 1); [by apply Hlow|by apply Hhigh].
Qed.

Lemma isPathParam_braces_witness : isPathParam "{petId}" = true.
Proof. apply isPathParam_braces. by exists "petId". Defined.

Lemma isSinglePathWithParams_spec_witness :
  isSinglePathWithParams (Split "/pets/{id}/{toy}" "/") = true.
Proof.
  apply isSinglePathWithParams_spec. intros j part Hj.
  destruct j as [|[|[|[|j]]]]; cbn in Hj; simplify_eq;
    split; intros; try lia; reflexivity.
Defined.

Lemma index_lt {A} (xs : list A) (i : nat) :
  (i < length xs)%nat -> exists x, index xs i = Ok x.
Proof.
  intros Hi. unfold index. destruct (lookup_lt_is_Some_2 xs i Hi) as [x ->].
  by exists x.
Qed.

Lemma generateDefaultOperationID_is_ok `{Collaborators}
    (opName requestPath : string) (pathOpCount : Z) :
  opName <> "" -> requestPath <> "" ->
  ContainsRune requestPath "/" = true \/ isPathParam requestPath = true ->
  is_ok (generateDefaultOperationID opName requestPath pathOpCount) = true.
Proof.
  unfold generateDefaultOperationID.
  intros Hop%String.eqb_neq Hpath%String.eqb_neq Hcase.
  rewrite Hop, Hpath, Split_pieces.
  destruct (ContainsRune requestPath "/") eqn:Hslash.
  - pose proof (pieces_length "/" requestPath Hslash) as Hlen.
    destruct (index_lt (pieces "/" requestPath) 1 ltac:(lia)) as [p1 Hp1].
    rewrite Hp1. cbn [mbind result_bind rbind].
    destruct (1 <? getPathParamCount _);
      [destruct (isSinglePathWithParams _); reflexivity|].
    destruct (length _ =? 2)%nat; [reflexivity|].
    destruct ((3 <=? length (pieces "/" requestPath))%nat && _) eqn:Hguard;
      [|destruct (_ =? 0); reflexivity].
    apply andb_true_iff in Hguard as [Hthree%Nat.leb_le _].
    destruct (index_lt (pieces "/" requestPath) 2 ltac:(lia)) as [p2 Hp2].
    by rewrite Hp2.
  - destruct Hcase as [|Hparam]; [discriminate|].
    rewrite (pieces_whole "/" requestPath Hslash).
    unfold getPathParamCount. cbn [fold_left]. rewrite Hparam.
    unfold isPathParam in Hparam.
    destruct (len requestPath <? 2); [discriminate|]. reflexivity.
Qed.

(** X5.  [generateDefaultOperationID] rejects an empty method and, after
    that, an empty path.  For any other input it returns an identifier as
    soon as the path holds a slash or is, as a whole, a path parameter; a
    path with no slash that is not a parameter makes it panic on [parts[1]]. *)
Theorem generateDefaultOperationID_failures `{Collaborators}
    (opName requestPath : string) (pathOpCount : Z) :
  (opName = "" ->
   generateDefaultOperationID opName requestPath pathOpCount
   = Err "operation name cannot be an empty string")
  /\ (opName <> "" -> requestPath = "" ->
      generateDefaultOperationID opName requestPath pathOpCount
      = Err "request path cannot be an empty string")
  /\ (opName <> "" -> requestPath <> "" ->
      ContainsRune requestPath "/" = true \/ isPathParam requestPath = true ->
      is_ok (generateDefaultOperationID opName requestPath pathOpCount) = true)
  /\ (opName <> "" -> requestPath <> "" ->
      ContainsRune requestPath "/" = false -> isPathParam requestPath = false ->
      generateDefaultOperationID opName requestPath pathOpCount
      = Panic "index out of range").
Proof.
  split; [|split; [|split]].
  - unfold generateDefaultOperationID. by intros ->.
  - unfold generateDefaultOperationID. intros Hop%String.eqb_neq ->.
    by rewrite Hop.
  - apply generateDefaultOperationID_is_ok.
  - unfold generateDefaultOperationID.
    intros Hop%String.eqb_neq Hpath%String.eqb_neq Hslash Hparam.
    rewrite Hop, Hpath, Split_pieces, (pieces_whole "/" requestPath Hslash).
    unfold getPathParamCount. cbn [fold_left]. rewrite Hparam.
    by destruct (len requestPath <? 2).
Qed.

Lemma generateDefaultOperationID_failures_witness :
  generateDefaultOperationID "" "/pets" 1
  = Err "operation name cannot be an empty string"
  /\ generateDefaultOperationID "GET" "" 1
     = Err "request path cannot be an empty string"
  /\ is_ok (generateDefaultOperationID "PATCH" "/pets/{id}/toys/{toy}" 1) = true
  /\ generateDefaultOperationID "GET" "pets" 1 = Panic "index out of range".
Proof.
  destruct (generateDefaultOperationID_failures "" "/pets" 1) as (H1 & _).
  destruct (generateDefaultOperationID_failures "GET" "" 1) as (_ & H2 & _).
  destruct (generateDefaultOperationID_failures "PATCH" "/pets/{id}/toys/{toy}" 1)
    as (_ & _ & H3 & _).
  destruct (generateDefaultOperationID_failures "GET" "pets" 1)
    as (_ & _ & _ & H4).
  split; [|split; [|split]].
  - by apply H1.
  - by apply H2.
  - apply H3; [done|done|]. left. reflexivity.
  - by apply H4.
Defined.

(** X6.  The number of operations on the path reaches the synthesised
    identifier in one case only, a [GET]: for any other method the
    identifier is the same whatever the number, and for a [GET] all that
    counts is whether there is more than one operation. *)
Theorem generateDefaultOperationID_pathOpCount `{Collaborators}
    (opName requestPath : string) (n m : Z) :
  opName <> "GET" \/ (1 < n <-> 1 < m) ->
  generateDefaultOperationID opName requestPath n
  = generateDefaultOperationID opName requestPath m.
Proof.
  unfold generateDefaultOperationID. intros [Hop%String.eqb_neq|Hnm].
  - by rewrite Hop.
  - assert ((1 <? n) = (1 <? m)) as ->; [|reflexivity].
    destruct (Z.ltb_spec 1 n), (Z.ltb_spec 1 m); try reflexivity; lia.
Qed.

Lemma generateDefaultOperationID_pathOpCount_witness :
  generateDefaultOperationID "POST" "/pets" 1
  = generateDefaultOperationID "POST" "/pets" 7
  /\ generateDefaultOperationID "GET" "/pets" 2
     = generateDefaultOperationID "GET" "/pets" 9.
Proof.
  split.
  - apply generateDefaultOperationID_pathOpCount. by left.
  - apply generateDefaultOperationID_pathOpCount. right. lia.
Defined.

(** ** Security requirements and parameters *)

(** X7.  The security definitions are those of the requirements, in the
    order of the requirements, and inside one requirement in ascending
    order of the provider names, each provider once: a provider with its
    scopes is in the result exactly when some requirement maps the provider
    to these scopes, and there are as many definitions as entries in the
    requirements. *)
Theorem DescribeSecurityDefinition_entries `{MapOrder}
    (securityRequirements : SecurityRequirements) :
  (forall sd, sd ∈ DescribeSecurityDefinition securityRequirements
     <-> exists sr, sr ∈ securityRequirements
                    /\ sr !! sd_ProviderName sd = Some (sd_Scopes sd))
  /\ length (DescribeSecurityDefinition securityRequirements)
     = sum_list (size <$> securityRequirements)
  /\ (forall l1 sr l2, securityRequirements = l1 ++ sr :: l2 ->
        exists sds,
          DescribeSecurityDefinition securityRequirements
          = DescribeSecurityDefinition l1 ++ sds ++ DescribeSecurityDefinition l2
          /\ sd_ProviderName <$> sds = SortedKeys sr
          /\ StronglySorted String.le (sd_ProviderName <$> sds)
          /\ NoDup (sd_ProviderName <$> sds)).
Proof.
  split; [|split].
  - intros sd. apply DescribeSecurityDefinition_elem_of.
  - apply DescribeSecurityDefinition_length.
  - intros l1 sr l2 ->.
    exists (DescribeSecurityDefinition [sr]).
    change (sr :: l2) with ([sr] ++ l2).
    rewrite !DescribeSecurityDefinition_app. split; [done|].
    assert (Hnames : sd_ProviderName <$> DescribeSecurityDefinition [sr]
                     = SortedKeys sr).
    { rewrite DescribeSecurityDefinition_one, <- list_fmap_compose.
      clear. induction (SortedKeys sr) as [|k ks IH]; [done|].
      cbn. by rewrite IH. }
    rewrite Hnames. split; [done|]. split.
    + apply SortedKeys_StronglySorted.
    + apply SortedKeys_NoDup.
Qed.

Lemma DescribeSecurityDefinition_entries_witness :
  DescribeSecurityDefinition (doc_Security petStore)
  = [ {| sd_ProviderName := "basic"; sd_Scopes := [] |};
      {| sd_ProviderName := "petstore_auth"; sd_Scopes := ["write"; "read"] |} ]
  /\ {| sd_ProviderName := "petstore_auth"; sd_Scopes := ["write"; "read"] |}
     ∈ DescribeSecurityDefinition (doc_Security petStore).
Proof.
  split; [reflexivity|].
  apply (proj1 (DescribeSecurityDefinition_entries (doc_Security petStore))).
  eexists. split; [left|]. reflexivity.
Defined.

(** A loop whose every turn appends one element to the list it builds. *)
Lemma foldM_snoc_Forall2 {A B} (f : list B -> A -> result (list B))
    (P : A -> B -> Prop) (l : list A) :
  (forall s x s', x ∈ l -> f s x = Ok s' -> exists b, s' = s ++ [b] /\ P x b) ->
  forall s s', foldM f l s = Ok s' ->
    exists bs, s' = s ++ bs /\ Forall2 P l bs.
Proof.
  induction l as [|x l IH]; intros Hstep s s' Hfold.
  - cbn in Hfold. simplify_eq. exists []. by rewrite app_nil_r.
  - cbn [foldM] in Hfold.
    destruct (f s x) as [s1| |] eqn:Hf; try discriminate.
    destruct (Hstep s x s1 ltac:(left) Hf) as (b & -> & HP).
    destruct (IH (fun s x s' Hx => Hstep s x s' ltac:(by right)) _ s' Hfold)
      as (bs & -> & HPs).
    exists (b :: bs). split; [|by constructor].
    by rewrite <- app_assoc.
Qed.

Lemma describeParameter_inv `{Collaborators} path outParams paramOrRef out' :
  describeParameter path outParams paramOrRef = Ok out' ->
  exists pd, out' = outParams ++ [pd] /\ describedFrom path paramOrRef pd.
Proof.
  unfold describeParameter, describedFrom. intros Hd.
  destruct (paramToGoType _ _) as [goType| |] eqn:Hgo; cbn in Hd;
    try discriminate.
  destruct (IsGoTypeReference (pref_Ref paramOrRef)) eqn:Href.
  - destruct (RefPathToGoType _) as [t| |] eqn:Ht; cbn in Hd; try discriminate.
    injection Hd as <-. eexists. split; [reflexivity|]. cbn.
    repeat split. exists goType. split; [done|]. by exists t.
  - injection Hd as <-. eexists. split; [reflexivity|]. cbn.
    repeat split. exists goType. by split.
Qed.

(** X8.  When [DescribeParameters] succeeds it returns one definition per
    declared parameter, in the order of the declaration; each carries the
    name, the location, the required flag and the specification of its
    parameter, and the schema that the resolver gave for it, with the type
    of the reference as its type when the parameter is a reference to a
    predefined one. *)
Theorem DescribeParameters_each `{Collaborators}
    (params : list ParameterRef) (path : list string)
    (outParams : list ParameterDefinition) :
  DescribeParameters params path = Ok outParams ->
  Forall2 (describedFrom path) params outParams
  /\ length outParams = length params
  /\ Forall (fun pd => pd_In pd = par_In (pd_Spec pd)
                       /\ pd_ParamName pd = par_Name (pd_Spec pd)) outParams.
Proof.
  unfold DescribeParameters. intros Hd.
  apply (foldM_snoc_Forall2 _ (describedFrom path)) in Hd as (out & -> & Hall);
    [|intros s x s' _ Hx; by apply describeParameter_inv in Hx].
  cbn [app]. split; [exact Hall|]. split.
  - symmetry. by eapply Forall2_length.
  - clear -Hall. induction Hall as [|pr pd l k Hpd _ IH]; constructor; [|done].
    destruct Hpd as (-> & -> & -> & _). done.
Qed.

Lemma DescribeParameters_each_witness :
  exists outParams,
    DescribeParameters (pi_Parameters petsItem) [] = Ok outParams
    /\ (pd_ParamName <$> outParams) = ["limit"]
    /\ Forall (fun pd => pd_In pd = par_In (pd_Spec pd)
                         /\ pd_ParamName pd = par_Name (pd_Spec pd)) outParams.
Proof.
  assert (exists outParams,
            DescribeParameters (pi_Parameters petsItem) [] = Ok outParams
            /\ (pd_ParamName <$> outParams) = ["limit"])
    as (outParams & E & Hnames) by (vm_compute; eauto).
  exists outParams. split; [exact E|]. split; [exact Hnames|].
  exact (proj2 (proj2 (DescribeParameters_each _ _ _ E))).
Defined.

(** ** Request bodies, in full *)

Section BodySteps.
Context `{Collaborators} `{MapOrder}.

Lemma bodyDefinition_step operationID body bds tds contentType bds' tds' :
  bodyDefinition operationID body (bds, tds) contentType = Ok (bds', tds') ->
  exists bd extra,
    bds' = bds ++ [bd] /\ tds' = tds ++ extra
    /\ bodyStep operationID body contentType bd extra.
Proof.
  unfold bodyDefinition, bodyStep. intros Hstep.
  destruct (bodyTag contentType) as [[tag defaultBody]|] eqn:Htag.
  - bind_step Hstep as content.
    assert (Hc : rb_Content body !! contentType = Some content).
    { unfold deref in E. by destruct (rb_Content body !! contentType);
        simplify_eq. }
    destruct (GenerateGoSchema (mt_Schema content) _) as [schema| |] eqn:Hgen;
      cbn [wrapErr mbind result_bind rbind] in Hstep; try discriminate.
    unfold schemaRefOf in Hstep.
    destruct (mt_Schema content) as [sref|] eqn:Hsref;
      cbn [mbind result_bind rbind] in Hstep; try discriminate.
    bind_step Hstep as resolved.
    assert (Hres : bodySchemaResolved (operationID +:+ tag +:+ "Body")
                     sref resolved).
    { exists schema. split; [done|].
      destruct (IsGoTypeReference (sref_Ref sref)).
      - destruct (RefPathToGoType (sref_Ref sref)) as [t| |];
          cbn in E0; try discriminate.
        injection E0 as <-. by exists t.
      - by injection E0 as <-. }
    rewrite bodyEncoding_fmap in Hstep.
    destruct (String.eqb (s_RefType resolved) "") eqn:Hinline;
      injection Hstep as <- <-.
    + eexists _, [_]. split; [reflexivity|]. split; [reflexivity|].
      cbn [rbd_ContentType rbd_Required rbd_NameTag rbd_Default rbd_Schema
           rbd_Encoding].
      do 4 (split; [reflexivity|]).
      exists content, sref, resolved. rewrite Hinline. by repeat split.
    + eexists _, []. split; [reflexivity|]. split; [by rewrite app_nil_r|].
      cbn [rbd_ContentType rbd_Required rbd_NameTag rbd_Default rbd_Schema
           rbd_Encoding].
      do 4 (split; [reflexivity|]).
      exists content, sref, resolved. rewrite Hinline. by repeat split.
  - injection Hstep as <- <-. exists
      {| rbd_Required := rb_Required body; rbd_Schema := zeroSchema;
         rbd_NameTag := ""; rbd_ContentType := contentType;
         rbd_Default := false; rbd_Encoding := ∅ |}, [].
    by rewrite app_nil_r.
Qed.

Lemma bodyDefinitions_steps operationID body keys bds tds bds' tds' :
  foldM (bodyDefinition operationID body) keys (bds, tds) = Ok (bds', tds') ->
  exists items : list (RequestBodyDefinition * list TypeDefinition),
    bds' = bds ++ items.*1 /\ tds' = tds ++ mjoin items.*2
    /\ Forall2 (fun contentType item =>
                  bodyStep operationID body contentType item.1 item.2)
         keys items.
Proof.
  revert bds tds. induction keys as [|k keys IH]; intros bds tds Hfold.
  - cbn in Hfold. injection Hfold as <- <-. exists [].
    cbn. by rewrite !app_nil_r.
  - cbn [foldM] in Hfold.
    destruct (bodyDefinition operationID body (bds, tds) k)
      as [[bds1 tds1]| |] eqn:Hstep; try discriminate.
    cbn in Hfold.
    apply bodyDefinition_step in Hstep as (bd & extra & -> & -> & Hbd).
    apply IH in Hfold as (items & -> & -> & Hitems).
    exists ((bd, extra) :: items). cbn. rewrite <- !app_assoc.
    split; [done|]. split; [done|]. by constructor.
Qed.

(** The bodies and the types that [GenerateBodyDefinitions] returns, turn
    by turn of its loop over the sorted content types. *)
Lemma GenerateBodyDefinitions_steps operationID ref bds tds :
  GenerateBodyDefinitions operationID (Some ref) = Ok (bds, tds) ->
  exists items : list (RequestBodyDefinition * list TypeDefinition),
    bds = items.*1 /\ tds = mjoin items.*2
    /\ Forall2 (fun contentType item =>
                  bodyStep operationID (rbref_Value ref) contentType
                    item.1 item.2)
         (SortedContentKeys (rb_Content (rbref_Value ref))) items.
Proof.
  unfold GenerateBodyDefinitions. intros Hgen.
  destruct (foldM _ _ _) as [[new extra]| |] eqn:Hfold; try discriminate.
  cbn in Hgen. injection Hgen as <- <-.
  apply bodyDefinitions_steps in Hfold as (items & -> & -> & Hitems).
  exists items. cbn [app]. split; [|by split].
  assert (Hk : rbd_ContentType <$> items.*1
               = SortedContentKeys (rb_Content (rbref_Value ref))).
  { clear -Hitems. induction Hitems as [|k item ks items (Hk & _) _ IH];
      [done|]. cbn. by rewrite Hk, IH. }
  apply merge_sort_byContentType_id; rewrite Hk.
  - apply SortedKeys_StronglySorted.
  - apply SortedKeys_NoDup.
Qed.

End BodySteps.

Lemma append_nonempty_r (s1 s2 : string) : s2 <> "" -> s1 +:+ s2 <> "".
Proof. destruct s1; [done|]. discriminate. Qed.

Lemma bodyTypeName_nonempty (operationID tag : string) :
  operationID +:+ tag +:+ "Body" <> "".
Proof. apply append_nonempty_r, append_nonempty_r. discriminate. Qed.

Lemma s_RefType_set_RefType (r : string) (s : Schema) :
  s_RefType (set_RefType r s) = r.
Proof. by destruct s. Qed.

Lemma s_RefType_formTagged `{Collaborators} (s : Schema) :
  s_RefType (formTagged s) = s_RefType s.
Proof. by destruct s. Qed.

Lemma s_Properties_formTagged `{Collaborators} (s : Schema) :
  s_Properties (formTagged s) = set_NeedsFormTag true <$> s_Properties s.
Proof. by destruct s. Qed.

Lemma s_Properties_set_RefType (r : string) (s : Schema) :
  s_Properties (set_RefType r s) = s_Properties s.
Proof. by destruct s. Qed.

Lemma bodyTag_tag_nonempty `{Collaborators} contentType tag defaultBody :
  bodyTag contentType = Some (tag, defaultBody) -> tag <> "".
Proof.
  unfold bodyTag. repeat case_match; intros; simplify_eq; discriminate.
Qed.

Section BodyExtras.
Context `{Collaborators} `{MapOrder}.

(** X9.  A content type of a recognised family must come with a schema:
    when [GenerateBodyDefinitions] returns, every such content type of the
    body has one; and a body whose only content type is of a recognised
    family and has no schema makes it panic on a nil pointer, once the
    schema resolver has accepted the missing schema. *)
Theorem GenerateBodyDefinitions_needs_schema (operationID : string) :
  (forall ref bds tds contentType content,
     GenerateBodyDefinitions operationID (Some ref) = Ok (bds, tds) ->
     rb_Content (rbref_Value ref) !! contentType = Some content ->
     bodyTag contentType <> None ->
     is_Some (mt_Schema content))
  /\ (forall required contentType tag defaultBody content,
        bodyTag contentType = Some (tag, defaultBody) ->
        mt_Schema content = None ->
        is_ok (GenerateGoSchema None [operationID +:+ tag +:+ "Body"]) = true ->
        GenerateBodyDefinitions operationID
          (mkBody required {[ contentType := content ]})
        = Panic "invalid memory address or nil pointer dereference").
Proof.
  split.
  - intros ref bds tds contentType content Hgen Hc Htag.
    apply GenerateBodyDefinitions_steps in Hgen as (items & _ & _ & Hitems).
    assert (Hk : contentType ∈ SortedContentKeys (rb_Content (rbref_Value ref)))
      by (apply elem_of_SortedKeys; eauto).
    apply list_elem_of_lookup in Hk as [i Hi].
    destruct (Forall2_lookup_l _ _ _ _ _ Hitems Hi)
      as (item & _ & _ & _ & Hstep).
    destruct (bodyTag contentType) as [[tag d]|]; [|done].
    destruct Hstep as (_ & _ & content' & sref & _ & Hc' & Hs & _).
    rewrite Hc in Hc'. injection Hc' as <-. by rewrite Hs.
  - intros required contentType tag defaultBody content Htag Hnone Hok.
    unfold GenerateBodyDefinitions, mkBody. cbn [rbref_Value rb_Content].
    unfold SortedContentKeys. rewrite SortedKeys_singleton. cbn [foldM].
    unfold bodyDefinition. rewrite Htag. unfold deref. cbn [rb_Content].
    rewrite lookup_singleton_eq. cbn [mbind result_bind rbind].
    rewrite Hnone.
    destruct (GenerateGoSchema None _); try discriminate.
    unfold schemaRefOf. by rewrite Hnone.
Qed.

(** X10.  In the result of [GenerateBodyDefinitions], [CustomType] holds
    exactly for the bodies without a family tag: a tagged body always has a
    named type, the predefined one it refers to or the one that is declared
    for it.  Every declared type is named after the operation and the tag
    of a body that carries this name, and is itself no alias. *)
Theorem GenerateBodyDefinitions_named (operationID : string)
    (bodyOrRef : option RequestBodyRef)
    (bds : list RequestBodyDefinition) (tds : list TypeDefinition) :
  GenerateBodyDefinitions operationID bodyOrRef = Ok (bds, tds) ->
  Forall (fun bd => CustomType bd = negb (IsSupported bd)) bds
  /\ Forall (fun td =>
               s_RefType (td_Schema td) = ""
               /\ exists bd, bd ∈ bds
                    /\ s_RefType (rbd_Schema bd) = td_TypeName td
                    /\ td_TypeName td
                       = operationID +:+ rbd_NameTag bd +:+ "Body") tds
  /\ (length tds <= length (filter (fun bd => rbd_NameTag bd <> "") bds))%nat.
Proof.
  destruct bodyOrRef as [ref|]; intros Hgen.
  2: { cbn in Hgen. injection Hgen as <- <-. by repeat split. }
  apply GenerateBodyDefinitions_steps in Hgen as (items & -> & -> & Hitems).
  clear -Hitems.
  induction Hitems as [|k [bd extra] ks items Hstep _ (IHc & IHt & IHl)].
  { by repeat split. }
  cbn [fmap list_fmap fst snd mjoin list_join] in *.
  destruct Hstep as (_ & _ & Hstep). cbn [fst snd] in Hstep.
  assert (Hbd : CustomType bd = negb (IsSupported bd)
                /\ (rbd_NameTag bd <> "" -> (length extra <= 1)%nat)
                /\ (rbd_NameTag bd = "" -> extra = [])
                /\ Forall (fun td =>
                     s_RefType (td_Schema td) = ""
                     /\ s_RefType (rbd_Schema bd) = td_TypeName td
                     /\ td_TypeName td
                        = operationID +:+ rbd_NameTag bd +:+ "Body") extra).
  { unfold CustomType, IsSupported.
    destruct (bodyTag k) as [[tag d]|] eqn:Htag.
    - destruct Hstep as (Ht & _ & content & sref & resolved & _ & _ & _ & _ & Hd).
      pose proof (bodyTag_tag_nonempty _ _ _ Htag) as Hne.
      rewrite Ht. apply String.eqb_neq in Hne as Hne'. rewrite Hne'.
      destruct (String.eqb (s_RefType resolved) "") eqn:Hinline.
      + destruct Hd as [-> ->]. rewrite s_RefType_set_RefType.
        pose proof (bodyTypeName_nonempty operationID tag) as Hn.
        apply String.eqb_neq in Hn. rewrite Hn.
        split; [done|]. split; [cbn; lia|]. split; [done|].
        constructor; [|constructor]. cbn.
        apply String.eqb_eq in Hinline.
        split; [|done].
        destruct (String.eqb k _); [by rewrite s_RefType_formTagged|done].
      + destruct Hd as [-> ->]. rewrite Hinline. by repeat split; cbn; try lia.
    - destruct Hstep as (-> & _ & -> & _ & ->). by repeat split. }
  destruct Hbd as (Hc & Hlen & Hnil & Hextra).
  split; [by constructor|]. split.
  - apply Forall_app. split.
    + eapply Forall_impl; [exact Hextra|].
      intros td (Hr & Hn & Hname). split; [done|].
      exists bd. split; [left|done].
    + eapply Forall_impl; [exact IHt|].
      intros td (Hr & bd' & Hin & Hn). split; [done|].
      exists bd'. split; [by right|done].
  - rewrite length_app, filter_cons.
    destruct (decide (rbd_NameTag bd <> "")) as [Hne|He].
    + specialize (Hlen Hne). exact (Nat.add_le_mono _ _ _ _ Hlen IHl).
    + rewrite Hnil; [exact IHl|]. by destruct (decide (rbd_NameTag bd = "")).
Qed.

(** X11.  [GenerateBodyDefinitions] returns one definition per declared
    content type, each content type once, every definition with the
    required flag of the body.  The definition of a content type of a
    recognised family has the encodings of the document, entry by entry;
    for any other content type the encodings are dropped. *)
Theorem GenerateBodyDefinitions_each (operationID : string)
    (ref : RequestBodyRef)
    (bds : list RequestBodyDefinition) (tds : list TypeDefinition) :
  GenerateBodyDefinitions operationID (Some ref) = Ok (bds, tds) ->
  let body := rbref_Value ref in
  rbd_ContentType <$> bds ≡ₚ (map_to_list (rb_Content body)).*1
  /\ NoDup (rbd_ContentType <$> bds)
  /\ length bds = size (rb_Content body)
  /\ Forall (fun bd =>
               rbd_Required bd = rb_Required body
               /\ exists content,
                    rb_Content body !! rbd_ContentType bd = Some content
                    /\ forall name,
                         rbd_Encoding bd !! name
                         = if String.eqb (rbd_NameTag bd) "" then None
                           else toBodyEncoding
                                  <$> (mt_Encoding content !! name)) bds.
Proof.
  cbn zeta. intros Hgen.
  apply GenerateBodyDefinitions_steps in Hgen as (items & -> & _ & Hitems).
  assert (Hk : rbd_ContentType <$> items.*1
               = SortedContentKeys (rb_Content (rbref_Value ref))).
  { clear -Hitems. induction Hitems as [|k item ks items (Hk & _) _ IH];
      [done|]. cbn. by rewrite Hk, IH. }
  split; [rewrite Hk; apply SortedKeys_Permutation|].
  split; [rewrite Hk; apply SortedKeys_NoDup|].
  split.
  { rewrite <- (length_fmap rbd_ContentType), Hk. unfold SortedContentKeys.
    rewrite (Permutation_length (SortedKeys_Permutation _)), length_fmap.
    apply length_map_to_list. }
  assert (Hin : Forall (fun k => is_Some (rb_Content (rbref_Value ref) !! k))
                  (SortedContentKeys (rb_Content (rbref_Value ref)))).
  { apply Forall_forall. intros k. apply elem_of_SortedKeys. }
  clear Hk. induction Hitems as [|k [bd extra] ks items Hstep _ IH];
    [constructor|].
  apply Forall_cons in Hin as [[content Hc] Hin].
  cbn. constructor; [|by apply IH].
  destruct Hstep as (Hct & Hreq & Hstep). cbn [fst snd] in *.
  split; [done|]. exists content. rewrite Hct. split; [done|]. intros name.
  destruct (bodyTag k) as [[tag d]|] eqn:Htag.
  - destruct Hstep as (-> & _ & content' & _ & _ & Hc' & _ & -> & _).
    rewrite Hc in Hc'. injection Hc' as <-.
    pose proof (bodyTag_tag_nonempty _ _ _ Htag) as Hne%String.eqb_neq.
    by rewrite Hne, lookup_fmap.
  - destruct Hstep as (-> & _ & _ & -> & _). by rewrite lookup_empty.
Qed.

(** X12.  The bodies and the declared types correspond turn by turn: a
    body has at most one type, named after the operation and the tag, and
    the schema of the body is the schema of that type under its name.  When
    the content type is the form-encoded one, the schema of the type is the
    resolved schema with the form tag on every property and its struct
    generated again; the schema of the body carries the same tags. *)
Theorem GenerateBodyDefinitions_form_tags (operationID : string)
    (bodyOrRef : option RequestBodyRef)
    (bds : list RequestBodyDefinition) (tds : list TypeDefinition) :
  GenerateBodyDefinitions operationID bodyOrRef = Ok (bds, tds) ->
  exists items : list (RequestBodyDefinition * list TypeDefinition),
    bds = items.*1 /\ tds = mjoin items.*2
    /\ Forall (fun item =>
                 (length item.2 <= 1)%nat
                 /\ forall td, td ∈ item.2 ->
                      td_TypeName td
                      = operationID +:+ rbd_NameTag item.1 +:+ "Body"
                      /\ rbd_Schema item.1
                         = set_RefType (td_TypeName td) (td_Schema td)
                      /\ (rbd_ContentType item.1
                          = "application/x-www-form-urlencoded" ->
                          (exists resolved, td_Schema td = formTagged resolved)
                          /\ Forall (fun p => p_NeedsFormTag p = true)
                               (s_Properties (td_Schema td))
                          /\ Forall (fun p => p_NeedsFormTag p = true)
                               (s_Properties (rbd_Schema item.1)))) items.
Proof.
  destruct bodyOrRef as [ref|]; intros Hgen.
  2: { cbn in Hgen. injection Hgen as <- <-. by exists []. }
  apply GenerateBodyDefinitions_steps in Hgen as (items & -> & -> & Hitems).
  exists items. split; [done|]. split; [done|].
  clear -Hitems.
  induction Hitems as [|k [bd extra] ks items Hstep _ IH]; constructor;
    [|exact IH].
  destruct Hstep as (Hct & _ & Hstep). cbn [fst snd] in *.
  destruct (bodyTag k) as [[tag d]|].
  - destruct Hstep as (-> & _ & content & sref & resolved & _ & _ & _ & _ & Hd).
    destruct (String.eqb (s_RefType resolved) "").
    + destruct Hd as [-> ->]. split; [cbn; lia|].
      intros td ->%list_elem_of_singleton. cbn [td_TypeName td_Schema].
      split; [done|]. split; [done|]. intros Hform.
      rewrite Hct in Hform. apply String.eqb_eq in Hform. rewrite Hform.
      assert (Htags : Forall (fun p => p_NeedsFormTag p = true)
                        (s_Properties (formTagged resolved))).
      { rewrite s_Properties_formTagged. apply Forall_fmap, Forall_forall.
        by intros [] _. }
      split; [by exists resolved|]. split; [done|].
      by rewrite s_Properties_set_RefType.
    + destruct Hd as [-> _]. split; [cbn; lia|]. by intros td ?%elem_of_nil.
  - destruct Hstep as (_ & _ & _ & _ & ->). split; [cbn; lia|].
    by intros td ?%elem_of_nil.
Qed.

End BodyExtras.

Lemma GenerateBodyDefinitions_needs_schema_witness :
  GenerateBodyDefinitions "AddPet"
    (mkBody true {[ "application/json" := noSchemaMedia ]})
  = Panic "invalid memory address or nil pointer dereference".
Proof.
  apply (proj2 (GenerateBodyDefinitions_needs_schema "AddPet"))
    with (tag := "JSON") (defaultBody := true); reflexivity.
Defined.

Lemma GenerateBodyDefinitions_named_witness :
  exists bds tds,
    GenerateBodyDefinitions "AddPet" threeTypesBody = Ok (bds, tds)
    /\ Forall (fun bd => CustomType bd = negb (IsSupported bd)) bds
    /\ (length tds <= length (filter (fun bd => rbd_NameTag bd <> "") bds))%nat.
Proof.
  assert (exists bds tds,
            GenerateBodyDefinitions "AddPet" threeTypesBody = Ok (bds, tds))
    as (bds & tds & E) by (vm_compute; eauto).
  exists bds, tds. split; [exact E|].
  destruct (GenerateBodyDefinitions_named "AddPet" threeTypesBody bds tds E)
    as (Hc & _ & Hl).
  by split.
Defined.

Lemma GenerateBodyDefinitions_each_witness :
  exists bds tds,
    GenerateBodyDefinitions "AddPet" formBody = Ok (bds, tds)
    /\ length bds = 2%nat
    /\ (fun bd => (rbd_ContentType bd, size (rbd_Encoding bd))) <$> bds
       = [("application/octet-stream", 0%nat);
          ("application/x-www-form-urlencoded", 2%nat)].
Proof.
  assert (exists bds tds,
            GenerateBodyDefinitions "AddPet" formBody = Ok (bds, tds)
            /\ (fun bd => (rbd_ContentType bd, size (rbd_Encoding bd))) <$> bds
               = [("application/octet-stream", 0%nat);
                  ("application/x-www-form-urlencoded", 2%nat)])
    as (bds & tds & E & Hsizes) by (vm_compute; eauto).
  exists bds, tds. split; [exact E|]. split; [|exact Hsizes].
  destruct formBody as [ref|] eqn:Hbody; [|discriminate].
  rewrite (proj1 (proj2 (proj2 (GenerateBodyDefinitions_each "AddPet" ref bds tds E)))).
  injection Hbody as <-. reflexivity.
Defined.

Lemma GenerateBodyDefinitions_form_tags_witness :
  exists bds tds,
    @GenerateBodyDefinitions onePropertyCollaborators listOrder "AddPet" formBody
    = Ok (bds, tds)
    /\ (fun td => (td_TypeName td, p_NeedsFormTag <$> s_Properties (td_Schema td)))
         <$> tds = [("AddPetFormdataBody", [true])]
    /\ exists items : list (RequestBodyDefinition * list TypeDefinition),
         bds = items.*1 /\ tds = mjoin items.*2.
Proof.
  assert (exists bds tds,
            @GenerateBodyDefinitions onePropertyCollaborators listOrder
              "AddPet" formBody = Ok (bds, tds)
            /\ (fun td => (td_TypeName td,
                           p_NeedsFormTag <$> s_Properties (td_Schema td)))
                 <$> tds = [("AddPetFormdataBody", [true])])
    as (bds & tds & E & Htags) by (vm_compute; eauto).
  exists bds, tds. split; [exact E|]. split; [exact Htags|].
  destruct (@GenerateBodyDefinitions_form_tags onePropertyCollaborators
              listOrder "AddPet" formBody bds tds E) as (items & Hb & Ht & _).
  exists items. split; [exact Hb|exact Ht].
Defined.

(** ** Responses, in full *)

Lemma responseTag_familyTag `{Collaborators} (contentType : string) :
  default "" (responseTag contentType) = familyTag contentType.
Proof.
  unfold responseTag, familyTag.
  destruct (IsMediaTypeJson contentType); [done|].
  destruct (String.eqb_spec contentType "application/x-www-form-urlencoded")
    as [->|_]; [done|].
  destruct (HasPrefix contentType "multipart/"); [done|].
  by destruct (String.eqb contentType "text/plain").
Qed.

(** X13.  Request bodies and responses sort a content type into the same
    family, although the two [switch] statements test the form-encoded and
    the multipart family in opposite orders. *)
Theorem responseTag_bodyTag `{Collaborators} (contentType : string) :
  responseTag contentType = fst <$> bodyTag contentType
  /\ default "" (responseTag contentType) = familyTag contentType.
Proof.
  split; [|apply responseTag_familyTag].
  unfold responseTag, bodyTag.
  destruct (IsMediaTypeJson contentType); [done|].
  destruct (String.eqb_spec contentType "application/x-www-form-urlencoded")
    as [->|_]; [done|].
  destruct (HasPrefix contentType "multipart/"); [done|].
  by destruct (String.eqb contentType "text/plain").
Qed.

Section ResponseSteps.
Context `{Collaborators} `{MapOrder}.

Lemma responseContentDefinition_inv operationID statusCode response acc ct acc' :
  responseContentDefinition operationID statusCode response acc ct = Ok acc' ->
  exists rcd, acc' = acc ++ [rcd]
              /\ contentFrom operationID statusCode response ct rcd.
Proof.
  unfold responseContentDefinition, contentFrom. intros Hstep.
  destruct (responseTag ct) as [tag|].
  - bind_step Hstep as content.
    assert (Hc : resp_Content response !! ct = Some content).
    { unfold deref in E. by destruct (resp_Content response !! ct); simplify_eq. }
    destruct (GenerateGoSchema (mt_Schema content) _) as [schema| |] eqn:Hgen;
      cbn [wrapErr mbind result_bind rbind] in Hstep; try discriminate.
    injection Hstep as <-. eexists. split; [reflexivity|]. cbn.
    split; [done|]. split; [done|]. by exists content.
  - injection Hstep as <-. eexists. split; [reflexivity|]. by cbn.
Qed.

Lemma responseHeaderDefinition_inv response acc headerName acc' :
  responseHeaderDefinition response acc headerName = Ok acc' ->
  exists rhd, acc' = acc ++ [rhd] /\ headerFrom response headerName rhd.
Proof.
  unfold responseHeaderDefinition, headerFrom. intros Hstep.
  bind_step Hstep as header.
  assert (Hh : resp_Headers response !! headerName = Some header).
  { unfold deref in E.
    by destruct (resp_Headers response !! headerName); simplify_eq. }
  destruct (GenerateGoSchema (hdr_Schema (href_Value header)) _)
    as [schema| |] eqn:Hgen;
    cbn [wrapErr mbind result_bind rbind] in Hstep; try discriminate.
  injection Hstep as <-. eexists. split; [reflexivity|]. cbn.
  split; [done|]. split; [done|]. by exists header.
Qed.

Lemma responseDefinition_step operationID responses rds refSet k rds' refSet' :
  responseDefinition operationID responses (rds, refSet) k = Ok (rds', refSet') ->
  (responseAt responses k = None /\ rds' = rds)
  \/ (exists rd, rds' = rds ++ [rd] /\ responseFrom operationID responses k rd).
Proof.
  unfold responseDefinition, responseFrom, responseAt. intros Hstep.
  destruct (responses !! k) as [[r|]|]; [|left; by simplify_eq..].
  right.
  destruct (foldM (responseContentDefinition _ _ _) _ _) as [contents| |]
    eqn:Hc; cbn [mbind result_bind rbind] in Hstep; try discriminate.
  destruct (foldM (responseHeaderDefinition _) _ _) as [headers| |]
    eqn:Hh; cbn [mbind result_bind rbind] in Hstep; try discriminate.
  apply (foldM_snoc_Forall2 _
           (contentFrom operationID k (rref_Value r))) in Hc
    as (cs & -> & Hcs);
    [|intros s x s' _ Hx; by apply responseContentDefinition_inv in Hx].
  apply (foldM_snoc_Forall2 _ (headerFrom (rref_Value r))) in Hh
    as (hs & -> & Hhs);
    [|intros s x s' _ Hx; by apply responseHeaderDefinition_inv in Hx].
  cbn [app] in Hstep.
  destruct (IsGoTypeReference (rref_Ref r)).
  - destruct (RefPathToGoType (rref_Ref r)) as [t| |];
      cbn in Hstep; try discriminate.
    destruct (decide (t ∈ refSet)); injection Hstep as <- <-;
      eexists; (split; [reflexivity|]); exists r; by repeat split.
  - injection Hstep as <- <-. eexists. split; [reflexivity|].
    exists r. by repeat split.
Qed.

Lemma responseDefinitions_steps operationID responses keys rds refSet rds' refSet' :
  foldM (responseDefinition operationID responses) keys (rds, refSet)
  = Ok (rds', refSet') ->
  exists new,
    rds' = rds ++ new
    /\ Forall2 (responseFrom operationID responses)
         (filter (fun k => is_Some (responseAt responses k)) keys) new.
Proof.
  revert rds refSet. induction keys as [|k keys IH]; intros rds refSet Hfold.
  - cbn in Hfold. injection Hfold as <- <-. exists []. by rewrite app_nil_r.
  - cbn [foldM] in Hfold.
    destruct (responseDefinition operationID responses (rds, refSet) k)
      as [[rds1 refSet1]| |] eqn:Hstep; try discriminate.
    cbn in Hfold. apply IH in Hfold as (new & -> & Hnew).
    apply responseDefinition_step in Hstep as [[Hnone ->]|(rd & -> & Hrd)].
    + exists new. split; [done|].
      rewrite filter_cons, decide_False; [done|].
      rewrite Hnone. by intros [? ?].
    + exists (rd :: new). rewrite <- app_assoc. split; [done|].
      destruct Hrd as (r & Hr & Hrest).
      rewrite filter_cons, decide_True by (by rewrite Hr).
      constructor; [by exists r|done].
Qed.

(** X14.  Every response definition that [GenerateResponseDefinitions]
    returns describes the response of its status code: its description (the
    empty string when the response has none), one content definition per
    declared content type in ascending order of the content types, each with
    the family tag of its content type and, when tagged, the schema resolved
    under the name of the operation, the status code and the tag (an
    untagged one has no schema), and one header definition per declared
    header in ascending order of the names, with the normalised name. *)
Theorem GenerateResponseDefinitions_each (operationID : string)
    (responses : Responses) (rds : list ResponseDefinition) :
  GenerateResponseDefinitions operationID responses = Ok rds ->
  Forall (fun rd =>
    exists r,
      responses !! rd_StatusCode rd = Some (Some r)
      /\ rd_Description rd = default "" (resp_Description (rref_Value r))
      /\ rcd_ContentType <$> rd_Contents rd
         = SortedContentKeys (resp_Content (rref_Value r))
      /\ Forall (fun rcd =>
                   rcd_NameTag rcd = familyTag (rcd_ContentType rcd)
                   /\ if String.eqb (rcd_NameTag rcd) "" then
                        rcd_Schema rcd = zeroSchema
                      else
                        exists content,
                          resp_Content (rref_Value r) !! rcd_ContentType rcd
                          = Some content
                          /\ GenerateGoSchema (mt_Schema content)
                               [operationID +:+ rd_StatusCode rd
                                +:+ rcd_NameTag rcd +:+ "Response"]
                             = Ok (rcd_Schema rcd)) (rd_Contents rd)
      /\ rhd_Name <$> rd_Headers rd
         = SortedHeadersKeys (resp_Headers (rref_Value r))
      /\ Forall (fun rhd =>
                   rhd_GoName rhd = SchemaNameToTypeName (rhd_Name rhd)
                   /\ exists header,
                        resp_Headers (rref_Value r) !! rhd_Name rhd = Some header
                        /\ GenerateGoSchema (hdr_Schema (href_Value header)) []
                           = Ok (rhd_Schema rhd)) (rd_Headers rd)) rds.
Proof.
  unfold GenerateResponseDefinitions. intros Hgen.
  destruct (foldM _ _ _) as [[rds' refSet]| |] eqn:Hfold; try discriminate.
  cbn in Hgen. injection Hgen as ->.
  apply responseDefinitions_steps in Hfold as (new & Hnew & Hall).
  cbn in Hnew. subst new.
  apply Forall_forall. intros rd [i Hi]%list_elem_of_lookup.
  destruct (Forall2_lookup_r _ _ _ _ _ Hall Hi)
    as (k & _ & r & Hr & Hst & Hdesc & Hcs & Hhs).
  exists r. rewrite Hst. split.
  { unfold responseAt in Hr. by destruct (responses !! k) as [[?|]|];
      simplify_eq. }
  split; [done|].
  assert (Hct : rcd_ContentType <$> rd_Contents rd
                = SortedContentKeys (resp_Content (rref_Value r))).
  { clear -Hcs. induction Hcs as [|ct rcd cts rcds [Hc _] _ IH]; [done|].
    cbn. by rewrite Hc, IH. }
  assert (Hhn : rhd_Name <$> rd_Headers rd
                = SortedHeadersKeys (resp_Headers (rref_Value r))).
  { clear -Hhs. induction Hhs as [|h rhd hs rhds [Hh _] _ IH]; [done|].
    cbn. by rewrite Hh, IH. }
  split; [done|]. split; [|split; [done|]].
  - clear -Hcs. apply Forall_forall.
    intros rcd [j Hj]%list_elem_of_lookup.
    destruct (Forall2_lookup_r _ _ _ _ _ Hcs Hj) as (ct & _ & <- & Hc).
    pose proof (responseTag_familyTag (rcd_ContentType rcd)) as Hfam.
    destruct (responseTag (rcd_ContentType rcd)) as [tag|] eqn:Htag.
    + destruct Hc as (Ht & content & Hc & Hgen). cbn in Hfam.
      rewrite Ht. split; [done|].
      assert (tag <> "") as Hne%String.eqb_neq.
      { revert Htag. clear. unfold responseTag.
        repeat case_match; intros; simplify_eq; discriminate. }
      rewrite Hne. by exists content.
    + destruct Hc as [-> ->]. cbn in Hfam. by split.
  - clear -Hhs. apply Forall_forall.
    intros rhd [j Hj]%list_elem_of_lookup.
    destruct (Forall2_lookup_r _ _ _ _ _ Hhs Hj)
      as (h & _ & <- & Hgo & header & Hh & Hgen).
    split; [done|]. by exists header.
Qed.

End ResponseSteps.

Lemma GenerateResponseDefinitions_each_witness :
  GenerateResponseDefinitions "FindPet" aliasedResponses = Ok aliasedDefinitions
  /\ Forall (fun rd =>
       exists r,
         aliasedResponses !! rd_StatusCode rd = Some (Some r)
         /\ rcd_ContentType <$> rd_Contents rd
            = SortedContentKeys (resp_Content (rref_Value r)))
       aliasedDefinitions.
Proof.
  assert (E : GenerateResponseDefinitions "FindPet" aliasedResponses
              = Ok aliasedDefinitions) by (vm_compute; reflexivity).
  split; [exact E|].
  eapply Forall_impl;
    [exact (GenerateResponseDefinitions_each _ _ _ E)|].
  intros rd (r & Hr & _ & Hc & _). exists r. split; [exact Hr|exact Hc].
Defined.

(** ** The parameter object of an operation *)

Lemma Style_is_ok (pd : ParameterDefinition) :
  (styleResolvable pd -> exists style, Style pd = Ok style)
  /\ (~ styleResolvable pd -> Style pd = Panic "unknown parameter format").
Proof.
  unfold styleResolvable, Style. split.
  - intros [Hs%String.eqb_neq|Hk].
    + rewrite Hs. eauto.
    + destruct (String.eqb _ ""); [|eauto].
      destruct Hk as [-> | [-> | [-> | ->]]]; cbn; eauto.
  - intros Hn.
    destruct (String.eqb_spec (par_Style (pd_Spec pd)) "") as [_|Hs];
      [|destruct Hn; by left].
    assert (Hk : ~ knownLocation (par_In (pd_Spec pd)))
      by (intros Hk; apply Hn; by right).
    destruct (unknownLocation_eqb _ Hk) as (-> & -> & -> & ->). reflexivity.
Qed.

#[local] Instance styleResolvable_dec (pd : ParameterDefinition) :
  Decision (styleResolvable pd).
Proof. unfold styleResolvable, knownLocation. apply _. Defined.

Section ParamsTypes.
Context `{Collaborators}.

Lemma paramsTypeStep_inv typeName typeDefs properties pd typeDefs' properties' :
  paramsTypeStep typeName (typeDefs, properties) pd = Ok (typeDefs', properties') ->
  exists p,
    properties' = properties ++ [p] /\ propertyFrom typeName pd p
    /\ typeDefs'
       = typeDefs ++ (if s_HasAdditionalProperties (pd_Schema pd)
                      then [additionalPropertiesType typeName pd] else []).
Proof.
  unfold paramsTypeStep, propertyFrom, additionalPropertiesType. intros Hstep.
  destruct (Style pd) as [style| |] eqn:Hstyle;
    cbn [mbind result_bind rbind] in Hstep; try discriminate.
  destruct (s_HasAdditionalProperties (pd_Schema pd));
    cbn [mbind result_bind rbind] in Hstep; injection Hstep as <- <-;
    eexists; (split; [reflexivity|]); cbn; rewrite ?app_nil_r;
    repeat split; eauto.
Qed.

Lemma paramsTypeSteps typeName params typeDefs properties typeDefs' properties' :
  foldM (paramsTypeStep typeName) params (typeDefs, properties)
  = Ok (typeDefs', properties') ->
  exists ps,
    properties' = properties ++ ps
    /\ Forall2 (propertyFrom typeName) params ps
    /\ typeDefs'
       = typeDefs
         ++ (additionalPropertiesType typeName
               <$> filter (fun pd => s_HasAdditionalProperties (pd_Schema pd)
                                     = true) params).
Proof.
  revert typeDefs properties.
  induction params as [|pd params IH]; intros typeDefs properties Hfold.
  - cbn in Hfold. injection Hfold as <- <-. exists []. by rewrite !app_nil_r.
  - cbn [foldM] in Hfold.
    destruct (paramsTypeStep typeName (typeDefs, properties) pd)
      as [[tds1 ps1]| |] eqn:Hstep; try discriminate.
    cbn in Hfold. apply paramsTypeStep_inv in Hstep as (p & -> & Hp & ->).
    apply IH in Hfold as (ps & -> & Hps & ->).
    exists (p :: ps). rewrite <- !app_assoc. split; [done|].
    split; [by constructor|]. f_equal. rewrite filter_cons.
    by destruct (s_HasAdditionalProperties (pd_Schema pd)).
Qed.

Lemma paramsTypeSteps_panic typeName params acc :
  (exists pd, pd ∈ params /\ ~ styleResolvable pd) ->
  foldM (paramsTypeStep typeName) params acc
  = Panic "unknown parameter format".
Proof.
  revert acc. induction params as [|pd params IH]; intros acc (bad & Hin & Hbad).
  - by apply elem_of_nil in Hin.
  - cbn [foldM]. destruct acc as [typeDefs properties].
    destruct (decide (styleResolvable pd)) as [Hok|Hno].
    + destruct (proj1 (Style_is_ok pd) Hok) as [style Hstyle].
      unfold paramsTypeStep. rewrite Hstyle. cbn [mbind result_bind rbind].
      destruct (s_HasAdditionalProperties (pd_Schema pd));
        cbn [mbind result_bind rbind]; apply IH;
        apply elem_of_cons in Hin as [->|Hin]; try done; by exists bad.
    + unfold paramsTypeStep. by rewrite (proj2 (Style_is_ok pd) Hno).
Qed.

(** X15.  When [GenerateParamsTypes] succeeds, the last type it returns is
    the parameter object, named after the operation, with the description
    of the operation and one property per query, header and cookie
    parameter, in this order: the property has the name, the required flag
    and the description of the parameter and the form tag exactly when the
    style of the parameter is [form].  Before it come the auxiliary types of
    the parameters with additional properties, whose properties refer to
    them by name. *)
Theorem GenerateParamsTypes_object (op : OperationDefinition)
    (tds : list TypeDefinition) :
  GenerateParamsTypes op = Ok tds ->
  let typeName := od_OperationId op +:+ "Params" in
  exists s,
    tds = (additionalPropertiesType typeName
             <$> filter (fun pd => s_HasAdditionalProperties (pd_Schema pd)
                                   = true) (Params op))
          ++ [MkTypeDefinition typeName s]
    /\ Forall2 (propertyFrom typeName) (Params op) (s_Properties s)
    /\ s_Description s = op_Description (od_Spec op)
    /\ s_RefType s = ""
    /\ s_GoType s
       = GenStructFromSchema
           (set_Description (op_Description (od_Spec op))
              (set_Properties (s_Properties s) zeroSchema)).
Proof.
  unfold GenerateParamsTypes. cbn zeta. intros Hgen.
  bind_step Hgen as [typeDefs properties].
  injection Hgen as <-.
  apply paramsTypeSteps in E as (ps & -> & Hps & ->).
  eexists. split; [reflexivity|]. cbn. by repeat split.
Qed.

Lemma GenerateParamsTypes_is_ok (op : OperationDefinition) :
  Forall styleResolvable (Params op) -> is_ok (GenerateParamsTypes op) = true.
Proof.
  unfold GenerateParamsTypes. intros Hall.
  assert (Hok : forall acc,
    is_ok (foldM (paramsTypeStep (od_OperationId op +:+ "Params"))
             (Params op) acc) = true).
  { intros acc. apply foldM_is_ok. intros [typeDefs properties] pd Hpd.
    rewrite Forall_forall in Hall.
    destruct (proj1 (Style_is_ok pd) (Hall pd Hpd)) as [style Hstyle].
    unfold paramsTypeStep. rewrite Hstyle. cbn [mbind result_bind rbind].
    by destruct (s_HasAdditionalProperties (pd_Schema pd)). }
  specialize (Hok ([], [])). unfold Params in Hok.
  by destruct (foldM _ _ _) as [[? ?]| |].
Qed.

(** X16.  [GenerateParamsTypes] fails in one way only: it panics with
    "unknown parameter format" when the style of some query, header or
    cookie parameter cannot be resolved, that is when the document gives no
    style for a parameter whose location is none of the four; otherwise it
    returns. *)
Theorem GenerateParamsTypes_failure (op : OperationDefinition) :
  (Forall styleResolvable (Params op) -> is_ok (GenerateParamsTypes op) = true)
  /\ ((exists pd, pd ∈ Params op /\ ~ styleResolvable pd) ->
      GenerateParamsTypes op = Panic "unknown parameter format").
Proof.
  split; [apply GenerateParamsTypes_is_ok|].
  unfold GenerateParamsTypes. intros Hbad.
  change ((od_QueryParams op ++ od_HeaderParams op) ++ od_CookieParams op)
    with (Params op).
  by rewrite (paramsTypeSteps_panic _ _ _ Hbad).
Qed.



End ParamsTypes.

Lemma GenerateParamsTypes_object_witness :
  let additional := MkSchema "map[string]string" "" [] true [] false "" in
  let op :=
    paramsOnly "FindPets" []
      [ {| pd_ParamName := "tags"; pd_In := "query"; pd_Required := true;
           pd_Spec := mkParam "tags" "query" "" None (Some stringSchema) ∅;
           pd_Schema := additional |} ]
      [ mkParamDef (mkParam "X-Trace" "header" "" None (Some stringSchema) ∅) ]
      [] in
  exists tds s,
    GenerateParamsTypes op = Ok tds
    /\ td_TypeName <$> tds = ["FindPetsParams_Tags"; "FindPetsParams"]
    /\ last tds = Some (MkTypeDefinition (od_OperationId op +:+ "Params") s)
    /\ length (s_Properties s) = 2%nat.
Proof.
  intros additional op.
  assert (exists tds, GenerateParamsTypes op = Ok tds
                      /\ td_TypeName <$> tds
                         = ["FindPetsParams_Tags"; "FindPetsParams"])
    as (tds & E & Hnames) by (vm_compute; eauto).
  destruct (GenerateParamsTypes_object op tds E) as (s & Htds & Hps & _).
  exists tds, s. split; [exact E|]. split; [exact Hnames|]. split.
  - rewrite Htds. apply last_snoc.
  - by rewrite <- (Forall2_length _ _ _ Hps).
Defined.

Lemma GenerateParamsTypes_failure_witness :
  let bad := mkParamDef (mkParam "payload" "body" "" None None ∅) in
  let good := mkParamDef (mkParam "limit" "query" "" None None ∅) in
  GenerateParamsTypes (paramsOnly "AddPet" [] [good; bad] [] [])
  = Panic "unknown parameter format"
  /\ is_ok (GenerateParamsTypes (paramsOnly "AddPet" [] [good] [] [])) = true.
Proof.
  intros bad good. split.
  - apply GenerateParamsTypes_failure. exists bad. split.
    + cbn. apply elem_of_cons. right. apply elem_of_cons. by left.
    + unfold styleResolvable, knownLocation. cbn.
      intros [?|[?|[?|[?|?]]]]; done.
  - apply GenerateParamsTypes_failure. cbn.
    constructor; [|constructor]. right. right. by left.
Defined.


(** ** Operations, in full *)

Lemma wrapErr_Ok {A} (wrap : string -> string) (c : result A) (a : A) :
  wrapErr wrap c = Ok a <-> c = Ok a.
Proof. by destruct c. Qed.

Section OperationSteps.
Context `{Collaborators} `{MapOrder}.

Lemma operationDefinition_compiled swagger requestPath pathItem globalParams
    operations opName operations' :
  operationDefinition swagger requestPath pathItem globalParams
    (Operations pathItem) operations opName = Ok operations' ->
  exists od op,
    operations' = operations ++ [od]
    /\ Operations pathItem !! opName = Some op
    /\ compiledFrom swagger requestPath pathItem globalParams opName op od.
Proof.
  unfold operationDefinition. intros Hstep.
  bind_step Hstep as op.
  assert (Hop : Operations pathItem !! opName = Some op).
  { unfold deref in E. by destruct (Operations pathItem !! opName); simplify_eq. }
  fold (withPathServers pathItem op) in Hstep.
  bind_step Hstep as operationID. bind_step Hstep as localParams.
  bind_step Hstep as pathParams.
  bind_step Hstep as [bodyDefinitions typeDefinitions].
  bind_step Hstep as responseDefinitions. bind_step Hstep as more.
  injection Hstep as <-.
  apply wrapErr_Ok in E1, E3, E4.
  assert (Hid : op_OperationID (withPathServers pathItem op) = op_OperationID op)
    by (unfold withPathServers; by destruct (pi_Servers pathItem)).
  assert (Hsame : forall (A : Type) (f : Operation -> A),
            (forall v o, f (set_op_Servers v o) = f o) ->
            f (withPathServers pathItem op) = f op).
  { intros A f Hf. unfold withPathServers. by destruct (pi_Servers pathItem). }
  eexists _, op. split; [reflexivity|]. split; [exact Hop|].
  exists operationID, localParams, typeDefinitions, more.
  cbn [od_Spec od_OperationId od_Method od_Path od_Summary od_BodyRequired
       od_PathParams od_HeaderParams od_QueryParams od_CookieParams od_Bodies
       od_Responses od_SecurityDefinitions od_TypeDefinitions
       set_od_TypeDefinitions set_op_OperationID op_OperationID op_Summary
       op_RequestBody op_Parameters op_Responses] in *.
  rewrite Hid in E0.
  rewrite (Hsame _ op_Parameters) in E1 by done.
  rewrite (Hsame _ op_RequestBody) in E3 by done.
  rewrite (Hsame _ op_Responses) in E4 by done.
  rewrite (Hsame _ op_Summary) by done.
  rewrite (Hsame _ op_RequestBody) by done.
  split.
  { destruct (String.eqb (op_OperationID op) "").
    - by apply wrapErr_Ok in E0.
    - by injection E0 as <-. }
  repeat split; try done.
  unfold operationSecurity. cbn. by rewrite (Hsame _ op_Security).
Qed.

Lemma pathDefinitions_compiled swagger operations requestPath operations' :
  pathDefinitions swagger operations requestPath = Ok operations' ->
  exists pathItem ods,
    operations' = operations ++ ods
    /\ doc_Paths swagger !! requestPath = Some pathItem
    /\ Forall2 (fun opName od => operationCompiled swagger (requestPath, opName) od)
         (methodsOf pathItem) ods.
Proof.
  unfold pathDefinitions. intros Hpath.
  bind_step Hpath as pathItem.
  assert (Hitem : doc_Paths swagger !! requestPath = Some pathItem).
  { unfold deref in E.
    by destruct (doc_Paths swagger !! requestPath); simplify_eq. }
  bind_step Hpath as globalParams. apply wrapErr_Ok in E0.
  apply (foldM_snoc_Forall2 _
           (fun opName od =>
              operationCompiled swagger (requestPath, opName) od))
    in Hpath as (ods & -> & Hall).
  - by exists pathItem, ods.
  - intros s opName s' _ Hstep.
    apply operationDefinition_compiled in Hstep as (od & op & -> & Hop & Hc).
    exists od. split; [done|]. by exists pathItem, op, globalParams.
Qed.

Lemma list_bind_join_fmap {A B} (f : A -> list B) (l : list A) :
  l ≫= f = mjoin (f <$> l).
Proof. induction l as [|x l IH]; [done|]. cbn. by rewrite IH. Qed.

Lemma Forall2_join_fmap {A B C} (P : B -> C -> Prop) (f : A -> list B)
    (l : list A) (groups : list (list C)) :
  Forall2 (fun x group => Forall2 P (f x) group) l groups ->
  Forall2 P (mjoin (f <$> l)) (mjoin groups).
Proof.
  induction 1 as [|x group l groups Hg _ IH]; [constructor|].
  cbn. by apply Forall2_app.
Qed.

(** The definitions that [OperationDefinitions] returns, operation by
    operation. *)
Lemma OperationDefinitions_compiled (swagger : T)
    (ops : list OperationDefinition) :
  OperationDefinitions swagger = Ok ops ->
  Forall2 (operationCompiled swagger) (operationKeys swagger) ops.
Proof.
  unfold OperationDefinitions. intros Hops.
  apply (foldM_concat _
           (fun requestPath ods =>
              exists pathItem,
                doc_Paths swagger !! requestPath = Some pathItem
                /\ Forall2 (fun opName od =>
                              operationCompiled swagger (requestPath, opName) od)
                     (methodsOf pathItem) ods))
    in Hops as (groups & -> & Hall).
  2: { intros s x s' _ Hx.
       apply pathDefinitions_compiled in Hx as (pathItem & ods & -> & Hi & Ho).
       exists ods. split; [done|]. by exists pathItem. }
  cbn [app]. unfold operationKeys.
  rewrite list_bind_join_fmap.
  apply Forall2_join_fmap.
  eapply Forall2_impl; [exact Hall|].
  intros requestPath ods (pathItem & -> & Hods).
  by apply Forall2_fmap_l.
Qed.

End OperationSteps.

(** ** The order of the operations *)

Lemma Operations_put_is_Some (method : string) (v : option Operation)
    (m : gmap string Operation) (opName : string) :
  is_Some (match v with Some o => <[method := o]> m | None => m end !! opName) ->
  opName = method \/ is_Some (m !! opName).
Proof.
  destruct v; [|by right].
  rewrite lookup_insert_is_Some'. intros [<-|Hm]; [by left|by right].
Qed.

Lemma Operations_httpMethods (pathItem : PathItem) (opName : string) :
  is_Some (Operations pathItem !! opName) -> opName ∈ httpMethods.
Proof.
  unfold Operations, httpMethods. cbv zeta beta. intros Hs.
  repeat (apply Operations_put_is_Some in Hs as [->|Hs]; [set_solver|]).
  rewrite lookup_empty in Hs. by destruct Hs.
Qed.

Lemma StronglySorted_NoDup_strict {A} (R : relation A) (l : list A) :
  StronglySorted R l -> NoDup l ->
  StronglySorted (fun x y => x <> y /\ R x y) l.
Proof.
  induction 1 as [|x l Hs IH Hx]; intros Hnd; [constructor|].
  apply NoDup_cons in Hnd as [Hnot Hnd].
  constructor; [by apply IH|].
  rewrite Forall_forall in Hx |- *. intros y Hy. split; [|by apply Hx].
  intros ->. by apply Hnot.
Qed.

Lemma StronglySorted_bind {A B} (R' : relation A) (R : relation B)
    (f : A -> list B) (l : list A) :
  StronglySorted R' l ->
  (forall x, x ∈ l -> StronglySorted R (f x)) ->
  (forall x y a b, R' x y -> a ∈ f x -> b ∈ f y -> R a b) ->
  StronglySorted R (l ≫= f).
Proof.
  intros Hl Hf Hcross. induction Hl as [|x l Hs IH Hx]; [constructor|].
  change ((x :: l) ≫= f) with (f x ++ (l ≫= f)).
  apply StronglySorted_app_2.
  - intros a b Ha Hb. apply list_elem_of_bind in Hb as (y & Hb & Hy).
    rewrite Forall_forall in Hx. by apply (Hcross x y); [apply Hx|..].
  - apply Hf. by left.
  - apply IH. intros y Hy. apply Hf. by right.
Qed.

Lemma StronglySorted_irrefl_NoDup {A} (R : relation A) (l : list A) :
  (forall x, ~ R x x) -> StronglySorted R l -> NoDup l.
Proof.
  intros Hirr. induction 1 as [|x l Hs IH Hx]; constructor; [|done].
  rewrite Forall_forall in Hx. intros Hin. by apply (Hirr x), Hx.
Qed.

Section OperationOrder.
Context `{Collaborators} `{MapOrder}.

Lemma elem_of_operationKeys (swagger : T) (requestPath opName : string) :
  (requestPath, opName) ∈ operationKeys swagger
  <-> exists pathItem,
        doc_Paths swagger !! requestPath = Some pathItem
        /\ is_Some (Operations pathItem !! opName).
Proof.
  unfold operationKeys. rewrite list_elem_of_bind. split.
  - intros (p & Hin & Hp).
    destruct (doc_Paths swagger !! p) as [pathItem|] eqn:Hitem;
      [|by apply elem_of_nil in Hin].
    apply list_elem_of_fmap in Hin as (m & [= -> ->] & Hm).
    exists pathItem. split; [done|]. by apply elem_of_SortedKeys.
  - intros (pathItem & Hitem & Hop). exists requestPath. rewrite Hitem. split.
    + apply list_elem_of_fmap. exists opName. split; [done|].
      by apply elem_of_SortedKeys.
    + apply elem_of_SortedKeys. by exists pathItem.
Qed.

Lemma operationKeys_sorted (swagger : T) :
  StronglySorted pathMethodLt (operationKeys swagger).
Proof.
  unfold operationKeys.
  apply (StronglySorted_bind (fun x y => x <> y /\ String.le x y)).
  - apply StronglySorted_NoDup_strict;
      [apply SortedKeys_StronglySorted|apply SortedKeys_NoDup].
  - intros p _. destruct (doc_Paths swagger !! p) as [pathItem|];
      [|constructor].
    apply StronglySorted_fmap
      with (R1 := fun x y => x <> y /\ String.le x y).
    + intros m1 m2 [Hne Hle]. right. by cbn.
    + apply StronglySorted_NoDup_strict;
        [apply SortedKeys_StronglySorted|apply SortedKeys_NoDup].
  - intros p q a b [Hne Hle] Ha Hb. left.
    destruct (doc_Paths swagger !! p); [|by apply elem_of_nil in Ha].
    destruct (doc_Paths swagger !! q); [|by apply elem_of_nil in Hb].
    apply list_elem_of_fmap in Ha as (? & -> & _).
    apply list_elem_of_fmap in Hb as (? & -> & _). by cbn.
Qed.

(** X18. When [OperationDefinitions] succeeds, the paths and methods of
    the definitions it returns are, in order, the operations of the
    document: one definition for each method that is set on each path, and
    no other; the definitions ascend strictly by path and, on one path, by
    method, so no path and method occurs twice; the method is one of the
    nine HTTP methods of a path item, in capitals. *)
Theorem OperationDefinitions_keys (swagger : T)
    (ops : list OperationDefinition) :
  OperationDefinitions swagger = Ok ops ->
  let keys := (fun od => (od_Path od, od_Method od)) <$> ops in
  keys = operationKeys swagger
  /\ (forall requestPath opName,
        (requestPath, opName) ∈ keys
        <-> exists pathItem,
              doc_Paths swagger !! requestPath = Some pathItem
              /\ is_Some (Operations pathItem !! opName))
  /\ StronglySorted pathMethodLt keys
  /\ NoDup keys
  /\ Forall (fun od => od_Method od ∈ httpMethods) ops.
Proof.
  intros Hops keys.
  assert (Hkeys : keys = operationKeys swagger).
  { subst keys. apply OperationDefinitions_compiled in Hops.
    induction Hops as [|[p m] od keys ops Hc _ IH]; [done|].
    cbn [fmap list_fmap]. rewrite <- IH. f_equal.
    destruct Hc as (pathItem & op & gp & _ & _ & _ & Hc).
    destruct Hc as (? & ? & ? & ? & _ & _ & _ & -> & -> & _). done. }
  split; [exact Hkeys|].
  split; [intros p m; rewrite Hkeys; apply elem_of_operationKeys|].
  split; [rewrite Hkeys; apply operationKeys_sorted|].
  split.
  - apply (StronglySorted_irrefl_NoDup pathMethodLt).
    + intros [p m] [[Hne _]|(_ & Hne & _)]; by apply Hne.
    + rewrite Hkeys. apply operationKeys_sorted.
  - apply Forall_forall. intros od Hod.
    assert (Hin : (od_Path od, od_Method od) ∈ keys).
    { subst keys. apply list_elem_of_fmap. by exists od. }
    rewrite Hkeys in Hin. apply elem_of_operationKeys in Hin as (item & _ & Hs).
    by apply (Operations_httpMethods item).
Qed.

End OperationOrder.

(** ** The fields of an operation definition *)

Section OperationFields.
Context `{Collaborators} `{MapOrder}.

Lemma DescribeParameters_described (params : list ParameterRef)
    (path : list string) (outParams : list ParameterDefinition) :
  DescribeParameters params path = Ok outParams ->
  Forall (fun pd => par_In (pd_Spec pd) = pd_In pd) outParams.
Proof.
  unfold DescribeParameters. intros Hd.
  apply (foldM_snoc_Forall2 _ (describedFrom path)) in Hd as (out & -> & Hall);
    [|intros s x s' _ Hx; by apply describeParameter_inv in Hx].
  cbn [app]. induction Hall as [|pr pd l k Hpd _ IH]; constructor; [|done].
  destruct Hpd as (_ & Hin & Hspec & _). by rewrite Hspec, Hin.
Qed.

Lemma OperationDefinitions_each (swagger : T)
    (ops : list OperationDefinition) :
  OperationDefinitions swagger = Ok ops ->
  Forall (fun od => operationCompiled swagger (od_Path od, od_Method od) od) ops.
Proof.
  intros Hops. apply OperationDefinitions_compiled in Hops.
  induction Hops as [|[p m] od keys ops Hc _ IH]; constructor; [|exact IH].
  assert (Hkey : od_Path od = p /\ od_Method od = m).
  { destruct Hc as (pathItem & op & gp & _ & _ & _ & Hc).
    destruct Hc as (? & ? & ? & ? & _ & _ & _ & Hm & Hp & _). done. }
  destruct Hkey as [-> ->]. exact Hc.
Qed.

Lemma withPathServers_fields (pathItem : PathItem) (op : Operation) :
  let op' := withPathServers pathItem op in
  op_OperationID op' = op_OperationID op
  /\ op_Summary op' = op_Summary op
  /\ op_Description op' = op_Description op
  /\ op_Parameters op' = op_Parameters op
  /\ op_RequestBody op' = op_RequestBody op
  /\ op_Responses op' = op_Responses op
  /\ op_Security op' = op_Security op
  /\ op_Servers op'
     = match pi_Servers pathItem with
       | Some servers => Some servers
       | None => op_Servers op
       end.
Proof. unfold withPathServers. by destruct (pi_Servers pathItem). Qed.

(** X19. Every operation definition that [OperationDefinitions] returns
    holds the parameters of its operation by location: the shared
    parameters of the path, described under the empty path, followed by
    the operation's own, described under the prefixed identifier followed
    by "Params"; the query, header and cookie lists are the parameters of
    that location in that order, the path parameters are what
    [SortParamsByPath] makes of those in the path. A parameter of any
    other location is in none of the three lists, and each listed
    parameter carries the location of its declaration. *)
Theorem OperationDefinitions_parameters (swagger : T)
    (ops : list OperationDefinition) :
  OperationDefinitions swagger = Ok ops ->
  Forall
    (fun od =>
       exists pathItem op shared own,
         doc_Paths swagger !! od_Path od = Some pathItem
         /\ Operations pathItem !! od_Method od = Some op
         /\ DescribeParameters (pi_Parameters pathItem) [] = Ok shared
         /\ DescribeParameters (op_Parameters op)
              [op_OperationID (od_Spec od) +:+ "Params"] = Ok own
         /\ od_QueryParams od
            = filter (fun pd => pd_In pd = "query") (shared ++ own)
         /\ od_HeaderParams od
            = filter (fun pd => pd_In pd = "header") (shared ++ own)
         /\ od_CookieParams od
            = filter (fun pd => pd_In pd = "cookie") (shared ++ own)
         /\ SortParamsByPath (od_Path od)
              (filter (fun pd => pd_In pd = "path") (shared ++ own))
            = Ok (od_PathParams od)
         /\ (forall pd, pd ∈ Params od ->
               pd ∈ shared ++ own
               /\ par_In (pd_Spec pd) = pd_In pd
               /\ (pd_In pd = "query" \/ pd_In pd = "header"
                   \/ pd_In pd = "cookie"))
         /\ (forall pd, pd ∈ shared ++ own ->
               ~ knownLocation (pd_In pd) ->
               pd ∉ Params od))
    ops.
Proof.
  intros Hops. apply OperationDefinitions_each in Hops.
  eapply Forall_impl; [exact Hops|]. cbn beta.
  intros od (pathItem & op & shared & Hitem & Hop & Hshared & Hc).
  cbn [fst snd] in *.
  destruct Hc as (operationID & own & tds & more & _ & Hc). cbv zeta in Hc.
  destruct Hc as (Hspec & _ & _ & _ & _ & _ & Hown & Hpath & Hh & Hq & Hck & _).
  unfold mergeParams, FilterParameterDefinitionByType in *.
  exists pathItem, op, shared, own.
  assert (Hname : op_OperationID (od_Spec od)
                  = typeNamePrefix operationID +:+ operationID)
    by (by rewrite Hspec).
  rewrite Hname.
  assert (Hin : forall pd, pd ∈ shared ++ own -> par_In (pd_Spec pd) = pd_In pd).
  { intros pd [Hpd|Hpd]%elem_of_app.
    - apply DescribeParameters_described in Hshared.
      rewrite Forall_forall in Hshared. by apply Hshared.
    - apply DescribeParameters_described in Hown.
      rewrite Forall_forall in Hown. by apply Hown. }
  assert (Hparams : forall pd,
            pd ∈ Params od
            <-> pd ∈ shared ++ own
                /\ (pd_In pd = "query" \/ pd_In pd = "header"
                    \/ pd_In pd = "cookie")).
  { intros pd. unfold Params.
    rewrite Hq, Hh, Hck, !elem_of_app, !list_elem_of_filter, !elem_of_app.
    naive_solver. }
  split_and!; try done.
  - intros pd [Hpd Hloc]%Hparams. split; [done|]. split; [by apply Hin|done].
  - intros pd _ Hunknown [_ Hloc]%Hparams. apply Hunknown.
    unfold knownLocation. naive_solver.
Qed.

(** X20. The identifier of an operation definition: the identifier of the
    operation in camel case when it has one, the identifier synthesized
    from the method, the path and the number of operations of the path
    otherwise; the operation kept in [Spec] carries it behind the type
    name prefix, and [OperationId] is the camel case of that. [Spec] is
    the operation of the document in every other field but the servers,
    which are those of the path whenever the path has some. *)
Theorem OperationDefinitions_identifier (swagger : T)
    (ops : list OperationDefinition) :
  OperationDefinitions swagger = Ok ops ->
  Forall
    (fun od =>
       exists pathItem op operationID,
         doc_Paths swagger !! od_Path od = Some pathItem
         /\ Operations pathItem !! od_Method od = Some op
         /\ (op_OperationID op <> "" ->
               operationID = ToCamelCase (op_OperationID op))
         /\ (op_OperationID op = "" ->
               generateDefaultOperationID (od_Method od) (od_Path od)
                 (Z.of_nat (size (Operations pathItem))) = Ok operationID)
         /\ op_OperationID (od_Spec od)
            = typeNamePrefix operationID +:+ operationID
         /\ od_OperationId od = ToCamelCase (op_OperationID (od_Spec od))
         /\ op_Servers (od_Spec od)
            = match pi_Servers pathItem with
              | Some servers => Some servers
              | None => op_Servers op
              end
         /\ op_Summary (od_Spec od) = op_Summary op
         /\ op_Description (od_Spec od) = op_Description op
         /\ op_Parameters (od_Spec od) = op_Parameters op
         /\ op_RequestBody (od_Spec od) = op_RequestBody op
         /\ op_Responses (od_Spec od) = op_Responses op
         /\ op_Security (od_Spec od) = op_Security op)
    ops.
Proof.
  intros Hops. apply OperationDefinitions_each in Hops.
  eapply Forall_impl; [exact Hops|]. cbn beta.
  intros od (pathItem & op & shared & Hitem & Hop & _ & Hc).
  cbn [fst snd] in *.
  destruct Hc as (operationID & own & tds & more & Hid & Hc). cbv zeta in Hc.
  destruct Hc as (Hspec & Hoid & _).
  destruct (withPathServers_fields pathItem op)
    as (_ & Hsum & Hdesc & Hpar & Hbody & Hresp & Hsec & Hserv).
  exists pathItem, op, operationID. rewrite Hspec.
  cbn [set_op_OperationID op_OperationID op_Servers op_Summary op_Description
       op_Parameters op_RequestBody op_Responses op_Security].
  repeat split; try done.
  - intros Hne. apply String.eqb_neq in Hne. by rewrite Hne in Hid.
  - intros Heq. apply String.eqb_eq in Heq. by rewrite Heq in Hid.
Qed.

(** X21. Every operation definition that [OperationDefinitions] returns
    agrees with the operation it keeps in [Spec]: its bodies and its
    response definitions are the ones generated for the request body and
    the responses of [Spec] under the identifier of [Spec], its summary is
    that of [Spec], the body is required when [Spec] has a request body
    that is, and its type definitions are the types declared for the
    bodies followed by those of [GenerateTypeDefsForOperation]. *)
Theorem OperationDefinitions_consistent (swagger : T)
    (ops : list OperationDefinition) :
  OperationDefinitions swagger = Ok ops ->
  Forall
    (fun od =>
       let spec := od_Spec od in
       exists bodyTypes more,
         GenerateBodyDefinitions (op_OperationID spec) (op_RequestBody spec)
         = Ok (od_Bodies od, bodyTypes)
         /\ GenerateResponseDefinitions (op_OperationID spec)
              (op_Responses spec) = Ok (od_Responses od)
         /\ GenerateTypeDefsForOperation od = Ok more
         /\ od_TypeDefinitions od = bodyTypes ++ more
         /\ od_Summary od = op_Summary spec
         /\ od_BodyRequired od
            = match op_RequestBody spec with
              | Some body => rb_Required (rbref_Value body)
              | None => false
              end)
    ops.
Proof.
  intros Hops. apply OperationDefinitions_each in Hops.
  eapply Forall_impl; [exact Hops|]. cbn beta.
  intros od (pathItem & op & shared & _ & _ & _ & Hc).
  destruct Hc as (operationID & own & tds & more & _ & Hc). cbv zeta in Hc.
  destruct Hc as (Hspec & _ & _ & _ & Hsum & Hreq & _ & _ & _ & _ & _
                  & Hbodies & Hresp & _ & Hmore & Htds).
  destruct (withPathServers_fields pathItem op)
    as (_ & Hsum' & _ & _ & Hbody' & Hresp' & _ & _).
  exists tds, more. rewrite Hspec.
  cbn [set_op_OperationID op_OperationID op_Servers op_Summary op_Description
       op_Parameters op_RequestBody op_Responses op_Security].
  rewrite Hbody', Hresp', Hsum'. by repeat split.
Qed.

End OperationFields.

(** ** When the compilation succeeds *)

Lemma is_ok_wrapErr {A} (wrap : string -> string) (c : result A) :
  is_ok (wrapErr wrap c) = is_ok c.
Proof. by destruct c. Qed.

Lemma is_ok_Ok {A} (c : result A) : is_ok c = true -> exists a, c = Ok a.
Proof. destruct c; [eauto|discriminate..]. Qed.

Section Totality.
Context `{Collaborators} `{MapOrder}.

Lemma DescribeParameters_is_ok (params : list ParameterRef)
    (path : list string) :
  parametersResolve params path ->
  is_ok (DescribeParameters params path) = true.
Proof.
  unfold parametersResolve, DescribeParameters. intros Hall.
  apply foldM_is_ok. intros s paramOrRef Hin.
  rewrite Forall_forall in Hall. destruct (Hall _ Hin) as [Htype Href].
  unfold describeParameter.
  destruct (is_ok_Ok _ Htype) as [goType ->].
  cbn [wrapErr mbind result_bind rbind].
  destruct (IsGoTypeReference _); [|reflexivity].
  destruct (is_ok_Ok _ (Href eq_refl)) as [t ->].
  reflexivity.
Qed.

Lemma GenerateBodyDefinitions_is_ok (operationID : string)
    (bodyOrRef : option RequestBodyRef) :
  bodyResolves operationID bodyOrRef ->
  is_ok (GenerateBodyDefinitions operationID bodyOrRef) = true.
Proof.
  intros Hresolves. unfold GenerateBodyDefinitions.
  destruct bodyOrRef as [ref|]; [|reflexivity].
  assert (Hok : is_ok
    (foldM (bodyDefinition operationID (rbref_Value ref))
           (SortedContentKeys (rb_Content (rbref_Value ref))) ([], [])) = true).
  { apply foldM_is_ok. intros [bds tds] contentType Hct.
    apply elem_of_SortedKeys in Hct as [media Hmedia].
    unfold bodyDefinition.
    destruct (bodyTag contentType) as [[tag defaultBody]|] eqn:Htag;
      [|reflexivity].
    destruct (Hresolves ref contentType media tag defaultBody eq_refl Hmedia
                Htag) as (sr & Hsr & Hschema & Href).
    unfold deref. rewrite Hmedia. cbn [mbind result_bind rbind].
    rewrite Hsr. destruct (is_ok_Ok _ Hschema) as [bodySchema ->].
    cbn [wrapErr mbind result_bind rbind].
    unfold schemaRefOf. rewrite Hsr. cbn [mbind result_bind rbind].
    destruct (IsGoTypeReference (sref_Ref sr)).
    - destruct (is_ok_Ok _ (Href eq_refl)) as [t ->].
      cbn [wrapErr mbind result_bind rbind].
      by destruct (String.eqb _ "").
    - cbn [mbind result_bind rbind]. by destruct (String.eqb _ ""). }
  destruct (foldM _ _ _) as [[bds tds]| |]; [reflexivity|discriminate..].
Qed.

Lemma responseDefinition_is_ok operationID responses acc statusCode :
  responsesResolve operationID responses ->
  is_ok (responseDefinition operationID responses acc statusCode) = true.
Proof.
  intros Hresolves. destruct acc as [rds refSet].
  unfold responseDefinition.
  destruct (responses !! statusCode) as [[r|]|] eqn:Hr; [|reflexivity..].
  destruct (Hresolves statusCode r Hr) as (Hcontents & Hheaders & Href).
  cbv zeta in Hcontents, Hheaders.
  assert (Hc : is_ok
    (foldM (responseContentDefinition operationID statusCode (rref_Value r))
           (SortedContentKeys (resp_Content (rref_Value r))) []) = true).
  { apply foldM_is_ok. intros s ct Hct.
    apply elem_of_SortedKeys in Hct as [content Hcontent].
    unfold responseContentDefinition, deref.
    destruct (responseTag ct) as [tag|] eqn:Htag; [|reflexivity].
    rewrite Hcontent. cbn [mbind result_bind rbind].
    destruct (is_ok_Ok _ (Hcontents ct content tag Hcontent Htag))
      as [schema ->].
    reflexivity. }
  destruct (foldM (responseContentDefinition _ _ _) _ _) as [contents| |];
    try discriminate. cbn [mbind result_bind rbind].
  assert (Hh : is_ok
    (foldM (responseHeaderDefinition (rref_Value r))
           (SortedHeadersKeys (resp_Headers (rref_Value r))) []) = true).
  { apply foldM_is_ok. intros s h Hh.
    apply elem_of_SortedKeys in Hh as [header Hheader].
    unfold responseHeaderDefinition, deref. rewrite Hheader.
    cbn [mbind result_bind rbind].
    destruct (is_ok_Ok _ (Hheaders h header Hheader)) as [schema ->].
    reflexivity. }
  destruct (foldM (responseHeaderDefinition _) _ _) as [headers| |];
    try discriminate. cbn [mbind result_bind rbind].
  destruct (IsGoTypeReference (rref_Ref r)); [|reflexivity].
  destruct (is_ok_Ok _ (Href eq_refl)) as [t ->].
  cbn [wrapErr mbind result_bind rbind].
  by destruct (decide (t ∈ refSet)).
Qed.

Lemma GenerateResponseDefinitions_is_ok (operationID : string)
    (responses : Responses) :
  responsesResolve operationID responses ->
  is_ok (GenerateResponseDefinitions operationID responses) = true.
Proof.
  intros Hresolves. unfold GenerateResponseDefinitions.
  assert (Hok : is_ok
    (foldM (responseDefinition operationID responses)
           (SortedResponsesKeys responses) ([], ∅)) = true).
  { apply foldM_is_ok. intros s k _. by apply responseDefinition_is_ok. }
  destruct (foldM _ _ _); [reflexivity|discriminate..].
Qed.

Lemma GenerateTypeDefsForOperation_is_ok (op : OperationDefinition) :
  Forall styleResolvable (Params op) ->
  is_ok (GenerateTypeDefsForOperation op) = true.
Proof.
  intros Hall. unfold GenerateTypeDefsForOperation.
  destruct (length (Params op) =? 0)%nat; [reflexivity|].
  apply GenerateParamsTypes_is_ok in Hall.
  by destruct (GenerateParamsTypes op).
Qed.

Lemma operationDefinition_is_ok swagger requestPath pathItem globalParams
    operations opName op :
  Operations pathItem !! opName = Some op ->
  DescribeParameters (pi_Parameters pathItem) [] = Ok globalParams ->
  operationResolves requestPath pathItem opName op ->
  is_ok (operationDefinition swagger requestPath pathItem globalParams
           (Operations pathItem) operations opName) = true.
Proof.
  intros Hop Hglobal [Hslash Hresolves].
  assert (HopName : opName <> "").
  { intros ->. assert (Hin : "" ∈ httpMethods)
      by (apply (Operations_httpMethods pathItem); eauto).
    unfold httpMethods in Hin. set_solver. }
  unfold operationDefinition, deref. rewrite Hop.
  cbn [mbind result_bind rbind].
  fold (withPathServers pathItem op).
  destruct (withPathServers_fields pathItem op)
    as (Hid & _ & _ & Hpar & Hbody & Hresp & _ & _).
  rewrite Hid.
  assert (exists operationID,
    (if String.eqb (op_OperationID op) "" then
       wrapErr
         (fun err => "error generating default OperationID for " +:+ opName
                     +:+ "/" +:+ requestPath +:+ ": " +:+ err)
         (generateDefaultOperationID opName requestPath
            (Z.of_nat (size (Operations pathItem))))
     else Ok (ToCamelCase (op_OperationID op))) = Ok operationID
    /\ operationName requestPath pathItem opName op
       = Ok (typeNamePrefix operationID +:+ operationID))
    as (operationID & -> & Hname).
  { unfold operationName.
    destruct (String.eqb_spec (op_OperationID op) "") as [Hempty|_].
    - assert (Hok : is_ok (generateDefaultOperationID opName requestPath
                             (Z.of_nat (size (Operations pathItem)))) = true).
      { apply generateDefaultOperationID_is_ok; [done| |by apply Hslash].
        intros ->. by destruct (Hslash Hempty). }
      destruct (is_ok_Ok _ Hok) as [operationID ->]. by exists operationID.
    - by eexists. }
  destruct (Hresolves _ Hname) as (Hparams & Hbodies & Hresponses & Hsort).
  cbn [mbind result_bind rbind set_op_OperationID op_OperationID op_Parameters
       op_RequestBody op_Responses op_Summary].
  rewrite Hpar, Hbody, Hresp.
  pose proof (DescribeParameters_is_ok _ _ Hparams) as Hlocal.
  destruct (DescribeParameters (op_Parameters op) _) as [localParams| |] eqn:El;
    try discriminate.
  cbn [wrapErr mbind result_bind rbind].
  destruct (is_ok_Ok _ (Hsort globalParams localParams Hglobal eq_refl))
    as [pathParams ->].
  cbn [mbind result_bind rbind].
  pose proof (GenerateBodyDefinitions_is_ok _ _ Hbodies) as Hb.
  destruct (GenerateBodyDefinitions _ _) as [[bds tds]| |]; try discriminate.
  cbn [wrapErr mbind result_bind rbind].
  pose proof (GenerateResponseDefinitions_is_ok _ _ Hresponses) as Hr.
  destruct (GenerateResponseDefinitions _ _) as [rds| |]; try discriminate.
  cbn [wrapErr mbind result_bind rbind].
  match goal with
  | |- is_ok (mbind _ (GenerateTypeDefsForOperation ?od)) = true =>
      assert (Htypes : is_ok (GenerateTypeDefsForOperation od) = true)
  end.
  { apply GenerateTypeDefsForOperation_is_ok.
    apply Forall_forall. intros pd Hpd. right.
    unfold Params in Hpd.
    cbn [od_QueryParams od_HeaderParams od_CookieParams] in Hpd.
    unfold FilterParameterDefinitionByType, mergeParams in Hpd.
    rewrite !elem_of_app, !list_elem_of_filter, !elem_of_app in Hpd.
    assert (Hin : par_In (pd_Spec pd) = pd_In pd).
    { apply DescribeParameters_described in El, Hglobal.
      rewrite Forall_forall in Hglobal, El. naive_solver. }
    rewrite Hin. unfold knownLocation. naive_solver. }
  destruct (GenerateTypeDefsForOperation _); [reflexivity|discriminate..].
Qed.

(** X22. [OperationDefinitions] returns, with one definition for each
    operation of the document, as soon as the calls it makes for this
    document to the helpers that can fail return: the types of the
    declared parameters, the schemas of the tagged media types of the
    request bodies (which must be there) and of the responses and their
    headers, the references to predefined types, the sorting of the path
    parameters that were described, and the synthesis of an identifier for
    an operation that has none, which needs a path with a slash (or a path
    that is a parameter).  Nothing is asked of the helpers on other
    arguments, and the style of a parameter never makes it panic, whatever
    the locations in the document. *)
Theorem OperationDefinitions_total (swagger : T) :
  documentResolves swagger ->
  exists ops,
    OperationDefinitions swagger = Ok ops
    /\ length ops = length (operationKeys swagger).
Proof.
  intros Hdoc.
  assert (Hok : is_ok (OperationDefinitions swagger) = true).
  { unfold OperationDefinitions. apply foldM_is_ok.
    intros operations requestPath Hpath.
    apply elem_of_SortedKeys in Hpath as [pathItem Hitem].
    destruct (Hdoc requestPath pathItem Hitem) as [Hshared Hops].
    unfold pathDefinitions, deref. rewrite Hitem.
    cbn [mbind result_bind rbind].
    pose proof (DescribeParameters_is_ok _ _ Hshared) as Hglobal.
    destruct (DescribeParameters (pi_Parameters pathItem) [])
      as [globalParams| |] eqn:Eg; try discriminate.
    cbn [wrapErr mbind result_bind rbind].
    apply foldM_is_ok. intros ods opName Hm.
    apply elem_of_SortedKeys in Hm as [op Hop].
    apply (operationDefinition_is_ok _ _ _ _ _ _ op); [done|done|].
    by apply Hops. }
  apply is_ok_Ok in Hok as [ops Hops]. exists ops. split; [done|].
  apply OperationDefinitions_compiled in Hops. symmetry.
  by eapply Forall2_length.
Qed.

End Totality.

(** ** The small document, again *)

Lemma petStore_compiled :
  OperationDefinitions petStore = Ok petStoreOperations.
Proof. vm_compute. reflexivity. Qed.

Lemma OperationDefinitions_keys_witness :
  OperationDefinitions petStore = Ok petStoreOperations
  /\ (fun od => (od_Path od, od_Method od)) <$> petStoreOperations
     = operationKeys petStore
  /\ operationKeys petStore
     = [("/pets", "GET"); ("/pets", "POST"); ("/pets/{id}", "GET")]
  /\ NoDup ((fun od => (od_Path od, od_Method od)) <$> petStoreOperations).
Proof.
  pose proof (OperationDefinitions_keys petStore petStoreOperations
                petStore_compiled) as Hk.
  cbv zeta in Hk. destruct Hk as (Hkeys & _ & _ & Hnd & _).
  split; [exact petStore_compiled|]. split; [exact Hkeys|].
  split; [vm_compute; reflexivity|exact Hnd].
Defined.

Lemma OperationDefinitions_parameters_witness :
  OperationDefinitions petStore = Ok petStoreOperations
  /\ (fun od => pd_ParamName <$> od_QueryParams od) <$> petStoreOperations
     = [["limit"]; ["limit"; "limit"]; []]
  /\ Forall (fun od => forall pd, pd ∈ Params od ->
               pd_In pd = "query" \/ pd_In pd = "header"
               \/ pd_In pd = "cookie")
       petStoreOperations.
Proof.
  split; [exact petStore_compiled|]. split; [vm_compute; reflexivity|].
  eapply Forall_impl;
    [exact (OperationDefinitions_parameters petStore petStoreOperations
              petStore_compiled)|].
  intros od (pathItem & op & shared & own & _ & _ & _ & _ & _ & _ & _ & _
             & Hparams & _) pd Hpd.
  exact (proj2 (proj2 (Hparams pd Hpd))).
Defined.

Lemma OperationDefinitions_identifier_witness :
  OperationDefinitions petStore = Ok petStoreOperations
  /\ od_OperationId <$> petStoreOperations
     = ["ReadPetsList"; "AddPet"; "ReadPets"]
  /\ Forall (fun od =>
               od_OperationId od = ToCamelCase (op_OperationID (od_Spec od)))
       petStoreOperations.
Proof.
  split; [exact petStore_compiled|]. split; [vm_compute; reflexivity|].
  eapply Forall_impl;
    [exact (OperationDefinitions_identifier petStore petStoreOperations
              petStore_compiled)|].
  intros od (pathItem & op & operationID & _ & _ & _ & _ & _ & Hid & _).
  exact Hid.
Defined.

Lemma OperationDefinitions_consistent_witness :
  OperationDefinitions petStore = Ok petStoreOperations
  /\ Forall (fun od =>
               GenerateResponseDefinitions (op_OperationID (od_Spec od))
                 (op_Responses (od_Spec od)) = Ok (od_Responses od))
       petStoreOperations.
Proof.
  split; [exact petStore_compiled|].
  eapply Forall_impl;
    [exact (OperationDefinitions_consistent petStore petStoreOperations
              petStore_compiled)|].
  intros od Hod. cbv zeta in Hod.
  destruct Hod as (bodyTypes & more & _ & Hresp & _). exact Hresp.
Defined.

Lemma petStore_paths (requestPath : string) (pathItem : PathItem) :
  doc_Paths petStore !! requestPath = Some pathItem ->
  (requestPath = "/pets/{id}" /\ pathItem = petItem)
  \/ (requestPath = "/pets" /\ pathItem = petsItem).
Proof.
  unfold petStore. cbn [doc_Paths].
  intros [[<- <-]|[_ [<- <-]%lookup_singleton_Some]]%lookup_insert_Some;
    [by left|by right].
Qed.

Lemma aliasedResponses_resolve (name : string) :
  @responsesResolve strictCollaborators name aliasedResponses.
Proof.
  intros statusCode r Hr. unfold aliasedResponses in Hr.
  assert (Hcases : r = {| rref_Ref := "#/components/responses/PetResponse";
                          rref_Value :=
                            {| resp_Description := Some "a response";
                               resp_Headers :=
                                 {[ "X-Rate-Limit" :=
                                      {| href_Ref := "";
                                         href_Value :=
                                           {| hdr_Schema := Some stringSchema |} |} ]};
                               resp_Content :=
                                 {[ "application/json" := jsonMedia ]} |} |}
                   \/ r = {| rref_Ref := "#/components/responses/NotFound";
                             rref_Value :=
                               {| resp_Description := Some "a response";
                                  resp_Headers :=
                                    {[ "X-Rate-Limit" :=
                                         {| href_Ref := "";
                                            href_Value :=
                                              {| hdr_Schema := Some stringSchema |} |} ]};
                                  resp_Content :=
                                    {[ "application/json" := jsonMedia ]} |} |}).
  { apply lookup_insert_Some in Hr as [[_ Hr]|[_ Hr]];
      [injection Hr as <-; by left|].
    apply lookup_insert_Some in Hr as [[_ Hr]|[_ Hr]];
      [injection Hr as <-; by left|].
    apply lookup_insert_Some in Hr as [[_ Hr]|[_ Hr]]; [discriminate|].
    apply lookup_singleton_Some in Hr as [_ Hr].
    injection Hr as <-. by right. }
  cbv zeta.
  destruct Hcases as [-> | ->]; cbn [rref_Value rref_Ref resp_Content resp_Headers];
    (split; [|split]);
    [ intros contentType content tag [<- <-]%lookup_singleton_Some _; reflexivity
    | intros headerName header [<- <-]%lookup_singleton_Some; reflexivity
    | intros _; vm_compute; reflexivity
    | intros contentType content tag [<- <-]%lookup_singleton_Some _; reflexivity
    | intros headerName header [<- <-]%lookup_singleton_Some; reflexivity
    | intros _; vm_compute; reflexivity ].
Qed.

Lemma threeTypesBody_resolves (name : string) :
  @bodyResolves strictCollaborators name threeTypesBody.
Proof.
  intros ref contentType content tag defaultBody [= <-] Hcontent _.
  cbn [rbref_Value rb_Content] in Hcontent.
  apply lookup_insert_Some in Hcontent as [[_ <-]|[_ Hcontent]].
  { eexists. split; [reflexivity|]. split; [reflexivity|]. by intros _. }
  apply lookup_insert_Some in Hcontent as [[_ <-]|[_ Hcontent]].
  { eexists. split; [reflexivity|]. split; [reflexivity|]. by intros _. }
  apply lookup_singleton_Some in Hcontent as [_ <-].
  eexists. split; [reflexivity|]. split; [vm_compute; reflexivity|].
  intros _. vm_compute. reflexivity.
Qed.

Lemma petStore_resolves : @documentResolves strictCollaborators petStore.
Proof.
  intros requestPath pathItem [[-> ->]|[-> ->]]%petStore_paths.
  - split.
    { constructor; [|constructor]. split; [reflexivity|by intros _]. }
    intros opName op Hop.
    unfold Operations, petItem in Hop. cbn in Hop.
    apply lookup_singleton_Some in Hop as [<- <-].
    split; [intros _; by left|]. intros name _.
    split; [constructor|]. split; [by intros ? ? ? ? ? [=]|].
    split; [apply aliasedResponses_resolve|].
    intros shared own Hshared Hown.
    vm_compute in Hshared. injection Hshared as <-.
    vm_compute in Hown. injection Hown as <-.
    vm_compute. reflexivity.
  - split.
    { constructor; [|constructor]. split; [reflexivity|by intros _]. }
    intros opName op Hop.
    unfold Operations, petsItem in Hop. cbn in Hop.
    apply lookup_insert_Some in Hop
      as [[<- <-]|[_ [<- <-]%lookup_singleton_Some]].
    + split; [discriminate|]. intros name _.
      split.
      { constructor; [|constructor]. split; [reflexivity|by intros _]. }
      split; [apply threeTypesBody_resolves|].
      split; [apply aliasedResponses_resolve|].
      intros shared own Hshared Hown.
      vm_compute in Hshared. injection Hshared as <-.
      vm_compute in Hown. injection Hown as <-.
      vm_compute. reflexivity.
    + split; [intros _; by left|]. intros name _.
      split; [constructor|]. split; [by intros ? ? ? ? ? [=]|].
      split; [apply aliasedResponses_resolve|].
      intros shared own Hshared Hown.
      vm_compute in Hshared. injection Hshared as <-.
      vm_compute in Hown. injection Hown as <-.
      vm_compute. reflexivity.
Qed.

Lemma OperationDefinitions_total_witness :
  (exists ops,
     @OperationDefinitions strictCollaborators listOrder petStore = Ok ops
     /\ length ops = 3%nat)
  /\ is_ok (@SortParamsByPath strictCollaborators "/pets/{id}" []) = false
  /\ is_ok (@OperationDefinitions strictCollaborators listOrder
              undeclaredParameter) = false.
Proof.
  split; [|split; vm_compute; reflexivity].
  destruct (@OperationDefinitions_total strictCollaborators listOrder petStore
              petStore_resolves) as (ops & Hops & Hlen).
  exists ops. split; [exact Hops|]. rewrite Hlen. vm_compute. reflexivity.
Defined.

(** ** The generation targets *)

Lemma targeted_spec (names targets : list string) :
  targeted names targets = true
  <-> exists t, t ∈ targets /\ t ∈ names.
Proof.
  unfold targeted. rewrite existsb_exists. split.
  - intros (t & Ht%list_elem_of_In & Hex).
    apply existsb_exists in Hex as (n & Hn%list_elem_of_In & Heq%String.eqb_eq).
    exists t. split; [done|]. by rewrite Heq.
  - intros (t & Ht & Hn). exists t. split; [by apply list_elem_of_In|].
    apply existsb_exists. exists t. split; [by apply list_elem_of_In|].
    apply String.eqb_refl.
Qed.

Lemma targeted_ext (names targets1 targets2 : list string) :
  (forall t, t ∈ targets1 <-> t ∈ targets2) ->
  targeted names targets1 = targeted names targets2.
Proof.
  intros Hsame. apply eq_true_iff_eq. rewrite !targeted_spec.
  split; intros (t & Ht & Hn); exists t; (split; [by apply Hsame|done]).
Qed.

Lemma targeted_idemp (names targets : list string) (b : bool) :
  (b || targeted names targets) || targeted names targets
  = b || targeted names targets.
Proof. by destruct b, (targeted names targets). Qed.

(** The configuration after the known targets [targets], from the
    configuration [cfg] and the options [opts]. *)
Lemma generationTargets_from_known (Quote : string -> string)
    (targets : list string) (cfg : Configuration) (opts : GenerateOptions) :
  Forall (fun t => t ∈ knownTargets) targets ->
  generationTargets_from Quote cfg opts targets
  = ({| cfg_Generate :=
          {| gen_ChiServer :=
               gen_ChiServer opts || targeted ["chi-server"; "chi"] targets;
             gen_EchoServer :=
               gen_EchoServer opts
               || targeted ["server"; "echo-server"; "echo"] targets;
             gen_GinServer :=
               gen_GinServer opts || targeted ["gin"; "gin-server"] targets;
             gen_GorillaServer :=
               gen_GorillaServer opts
               || targeted ["gorilla"; "gorilla-server"] targets;
             gen_KitServer :=
               gen_KitServer opts || targeted ["kit"; "kit-server"] targets;
             gen_KitServiceStub :=
               gen_KitServiceStub opts
               || targeted ["kit"; "kit-service-stub"] targets;
             gen_KitClient :=
               gen_KitClient opts || targeted ["kit"; "kit-client"] targets;
             gen_Strict := gen_Strict opts || targeted ["strict-server"] targets;
             gen_Client := gen_Client opts || targeted ["client"] targets;
             gen_Models := gen_Models opts || targeted ["types"; "models"] targets;
             gen_EmbeddedSpec :=
               gen_EmbeddedSpec opts
               || targeted ["spec"; "embedded-spec"] targets |};
        cfg_OutputOptions :=
          {| out_SkipFmt :=
               out_SkipFmt (cfg_OutputOptions cfg)
               || targeted ["skip-fmt"] targets;
             out_SkipPrune :=
               out_SkipPrune (cfg_OutputOptions cfg)
               || targeted ["skip-prune"] targets |} |},
     None).
Proof.
  revert cfg opts. induction targets as [|opt targets IH]; intros cfg opts Hall.
  - destruct cfg as [g [sf sp]], opts. cbn. by rewrite !orb_false_r.
  - apply Forall_cons in Hall as [Hopt Hall].
    unfold knownTargets in Hopt.
    repeat (apply elem_of_cons in Hopt as [->|Hopt];
            [cbn [generationTargets_from]; cbn -[generationTargets_from targeted];
             rewrite (IH _ _ Hall); cbn [targeted existsb];
             cbn -[targeted]; rewrite ?orb_true_r; reflexivity|]).
    by apply elem_of_nil in Hopt.
Qed.

Lemma generationTarget_unknown (cfg : Configuration) (opts : GenerateOptions)
    (opt : string) :
  opt ∉ knownTargets -> generationTarget cfg opts opt = None.
Proof.
  intros Hnot. unfold generationTarget.
  repeat match goal with
         | |- context [String.eqb opt ?s] =>
             destruct (String.eqb_spec opt s) as [->|_];
               [exfalso; apply Hnot; unfold knownTargets;
                apply list_elem_of_In; cbn; tauto|]
         end.
  reflexivity.
Qed.

Lemma generationTarget_known (cfg : Configuration) (opts : GenerateOptions)
    (opt : string) :
  opt ∈ knownTargets -> is_Some (generationTarget cfg opts opt).
Proof.
  unfold knownTargets. intros Hopt.
  repeat (apply elem_of_cons in Hopt as [->|Hopt]; [by eexists|]).
  by apply elem_of_nil in Hopt.
Qed.

(** The configuration after the known targets [known] and a target that is
    not known. *)
Lemma generationTargets_from_unknown (Quote : string -> string)
    (known : list string) (opt : string) (rest : list string)
    (cfg : Configuration) (opts : GenerateOptions) :
  Forall (fun t => t ∈ knownTargets) known ->
  opt ∉ knownTargets ->
  generationTargets_from Quote cfg opts (known ++ opt :: rest)
  = ({| cfg_Generate := cfg_Generate cfg;
        cfg_OutputOptions :=
          {| out_SkipFmt :=
               out_SkipFmt (cfg_OutputOptions cfg)
               || targeted ["skip-fmt"] known;
             out_SkipPrune :=
               out_SkipPrune (cfg_OutputOptions cfg)
               || targeted ["skip-prune"] known |} |},
     Some ("unknown generate option " +:+ Quote opt)).
Proof.
  intros Hall Hnot. revert cfg opts.
  induction Hall as [|t known Ht _ IH]; intros cfg opts.
  - cbn [app generationTargets_from].
    rewrite (generationTarget_unknown _ _ _ Hnot).
    destruct cfg as [g [sf sp]]. cbn. by rewrite !orb_false_r.
  - unfold knownTargets in Ht.
    repeat (apply elem_of_cons in Ht as [->|Ht];
            [cbn [app generationTargets_from];
             cbn -[generationTargets_from targeted app];
             rewrite IH; cbn [targeted existsb];
             cbn -[targeted]; rewrite ?orb_true_r; reflexivity|]).
    by apply elem_of_nil in Ht.
Qed.

Lemma targets_split (targets : list string) :
  Forall (fun t => t ∈ knownTargets) targets
  \/ exists known opt rest,
       targets = known ++ opt :: rest
       /\ Forall (fun t => t ∈ knownTargets) known
       /\ opt ∉ knownTargets.
Proof.
  induction targets as [|t targets IH]; [by left|].
  destruct (decide (t ∈ knownTargets)) as [Ht|Ht].
  - destruct IH as [Hall|(known & opt & rest & -> & Hall & Hopt)].
    + left. by constructor.
    + right. exists (t :: known), opt, rest. split; [done|].
      split; [by constructor|done].
  - right. by exists [], t, targets.
Qed.

(** X23. With targets that it all knows, [generationTargets] returns no
    error and leaves in the configuration the options that the targets
    name, whatever the options were before: each option is set exactly
    when one of its names is among the targets ([kit] sets the three
    options of kit), while [skip-fmt] and [skip-prune] only ever add to
    the output options that were there. *)
Theorem generationTargets_known (Quote : string -> string)
    (cfg : Configuration) (targets : list string) :
  Forall (fun t => t ∈ knownTargets) targets ->
  generationTargets Quote cfg targets
  = ({| cfg_Generate :=
          {| gen_ChiServer := targeted ["chi-server"; "chi"] targets;
             gen_EchoServer :=
               targeted ["server"; "echo-server"; "echo"] targets;
             gen_GinServer := targeted ["gin"; "gin-server"] targets;
             gen_GorillaServer :=
               targeted ["gorilla"; "gorilla-server"] targets;
             gen_KitServer := targeted ["kit"; "kit-server"] targets;
             gen_KitServiceStub :=
               targeted ["kit"; "kit-service-stub"] targets;
             gen_KitClient := targeted ["kit"; "kit-client"] targets;
             gen_Strict := targeted ["strict-server"] targets;
             gen_Client := targeted ["client"] targets;
             gen_Models := targeted ["types"; "models"] targets;
             gen_EmbeddedSpec := targeted ["spec"; "embedded-spec"] targets |};
        cfg_OutputOptions :=
          {| out_SkipFmt :=
               out_SkipFmt (cfg_OutputOptions cfg)
               || targeted ["skip-fmt"] targets;
             out_SkipPrune :=
               out_SkipPrune (cfg_OutputOptions cfg)
               || targeted ["skip-prune"] targets |} |},
     None)
  /\ (forall names,
        targeted names targets = true
        <-> exists t, t ∈ targets /\ t ∈ names).
Proof.
  intros Hall. split; [|intros names; apply targeted_spec].
  unfold generationTargets.
  by rewrite (generationTargets_from_known Quote targets cfg blankOptions Hall).
Qed.

(** X24. At the first target that it does not know, [generationTargets]
    returns the error "unknown generate option" with that target quoted,
    and looks at no later target. The generate options of the
    configuration are then the ones it had, but the output options
    already hold [skip-fmt] and [skip-prune] when they come before the
    unknown target. *)
Theorem generationTargets_unknown (Quote : string -> string)
    (cfg : Configuration) (known : list string) (opt : string)
    (rest : list string) :
  Forall (fun t => t ∈ knownTargets) known ->
  opt ∉ knownTargets ->
  generationTargets Quote cfg (known ++ opt :: rest)
  = ({| cfg_Generate := cfg_Generate cfg;
        cfg_OutputOptions :=
          {| out_SkipFmt :=
               out_SkipFmt (cfg_OutputOptions cfg)
               || targeted ["skip-fmt"] known;
             out_SkipPrune :=
               out_SkipPrune (cfg_OutputOptions cfg)
               || targeted ["skip-prune"] known |} |},
     Some ("unknown generate option " +:+ Quote opt)).
Proof.
  intros Hall Hnot. unfold generationTargets.
  by apply generationTargets_from_unknown.
Qed.

(** X25. [generationTargets] returns no error exactly when it knows
    every target. Running it again with the same targets on the
    configuration it left changes nothing, and when it succeeds the
    result depends on the targets only as a set: their order and their
    repetitions do not count. *)
Theorem generationTargets_set (Quote : string -> string)
    (cfg : Configuration) (targets : list string) :
  ((generationTargets Quote cfg targets).2 = None
   <-> Forall (fun t => t ∈ knownTargets) targets)
  /\ generationTargets Quote (generationTargets Quote cfg targets).1 targets
     = generationTargets Quote cfg targets
  /\ (forall targets',
        (forall t, t ∈ targets <-> t ∈ targets') ->
        (generationTargets Quote cfg targets).2 = None ->
        generationTargets Quote cfg targets'
        = generationTargets Quote cfg targets).
Proof.
  assert (Hiff : (generationTargets Quote cfg targets).2 = None
                 <-> Forall (fun t => t ∈ knownTargets) targets).
  { split.
    - intros Hnone.
      destruct (targets_split targets)
        as [Hall|(known & opt & rest & -> & Hall & Hopt)]; [done|].
      unfold generationTargets in Hnone.
      by rewrite (generationTargets_from_unknown Quote known opt rest cfg
                    blankOptions Hall Hopt) in Hnone.
    - intros Hall. unfold generationTargets.
      by rewrite (generationTargets_from_known Quote targets cfg blankOptions
                    Hall). }
  split; [exact Hiff|]. split.
  - unfold generationTargets.
    destruct (targets_split targets)
      as [Hall|(known & opt & rest & -> & Hall & Hopt)].
    + rewrite !(generationTargets_from_known Quote targets _ blankOptions Hall).
      cbn. by rewrite !targeted_idemp.
    + rewrite !(generationTargets_from_unknown Quote known opt rest _
                  blankOptions Hall Hopt).
      cbn. by rewrite !targeted_idemp.
  - intros targets' Hsame Hall%Hiff.
    assert (Hall' : Forall (fun t => t ∈ knownTargets) targets').
    { rewrite Forall_forall in Hall |- *. intros t Ht%Hsame. by apply Hall. }
    unfold generationTargets.
    rewrite (generationTargets_from_known Quote targets cfg blankOptions Hall),
      (generationTargets_from_known Quote targets' cfg blankOptions Hall').
    cbn. by rewrite !(targeted_ext _ targets targets' Hsame).
Qed.

Lemma generationTargets_known_witness :
  generationTargets quoteIdentifier clientConfiguration
    ["types"; "kit"; "skip-fmt"; "types"]
  = ({| cfg_Generate :=
          {| gen_ChiServer := false; gen_EchoServer := false;
             gen_GinServer := false; gen_GorillaServer := false;
             gen_KitServer := true; gen_KitServiceStub := true;
             gen_KitClient := true; gen_Strict := false; gen_Client := false;
             gen_Models := true; gen_EmbeddedSpec := false |};
        cfg_OutputOptions := {| out_SkipFmt := true; out_SkipPrune := false |} |},
     None).
Proof.
  assert (Hall : Forall (fun t => t ∈ knownTargets)
                   ["types"; "kit"; "skip-fmt"; "types"]).
  { repeat constructor; apply list_elem_of_In; cbn; tauto. }
  rewrite (proj1 (generationTargets_known quoteIdentifier clientConfiguration
                    _ Hall)).
  reflexivity.
Defined.

Lemma generationTargets_unknown_witness :
  generationTargets quoteIdentifier clientConfiguration
    (["skip-fmt"; "types"] ++ "grpc" :: ["skip-prune"])
  = ({| cfg_Generate := set_Client blankOptions;
        cfg_OutputOptions := {| out_SkipFmt := true; out_SkipPrune := false |} |},
     Some ("unknown generate option " +:+ quoteIdentifier "grpc")).
Proof.
  rewrite (generationTargets_unknown quoteIdentifier clientConfiguration
             ["skip-fmt"; "types"] "grpc" ["skip-prune"]).
  - reflexivity.
  - repeat constructor; apply list_elem_of_In; cbn; tauto.
  - intros Hin%list_elem_of_In. cbn in Hin.
    repeat (destruct Hin as [Hin|Hin]; [discriminate|]). exact Hin.
Defined.

Lemma generationTargets_set_witness :
  generationTargets quoteIdentifier clientConfiguration
    ["types"; "client"; "types"]
  = generationTargets quoteIdentifier clientConfiguration ["client"; "types"].
Proof.
  destruct (generationTargets_set quoteIdentifier clientConfiguration
              ["client"; "types"]) as (_ & _ & Hset).
  apply Hset; [|reflexivity].
  intros t. rewrite !elem_of_cons, !elem_of_nil. tauto.
Defined.

(** ** The names of the body types *)

Lemma two_keys_filter (keys : list string) (k1 k2 : string) :
  k1 <> k2 -> k1 ∈ keys -> k2 ∈ keys ->
  (2 <= length (filter (fun k => k = k1 \/ k = k2) keys))%nat.
Proof.
  intros Hne H1 H2.
  apply elem_of_Permutation in H1 as [keys' Hk].
  assert (H2' : k2 ∈ keys').
  { rewrite Hk in H2. apply elem_of_cons in H2 as [->|H2]; [done|exact H2]. }
  apply elem_of_Permutation in H2' as [keys'' Hk'].
  rewrite Hk, Hk'.
  rewrite filter_cons_True by (by left).
  rewrite filter_cons_True by (by right).
  cbn. lia.
Qed.

Lemma NoDup_filter_le_one {A B} `{EqDecision B} (f : A -> B) (b : B)
    (l : list A) :
  NoDup (f <$> l) -> (length (filter (fun x => f x = b) l) <= 1)%nat.
Proof.
  induction l as [|x l IH]; intros Hnd; [cbn; lia|].
  rewrite fmap_cons in Hnd. apply NoDup_cons in Hnd as [Hnot Hnd].
  destruct (decide (f x = b)) as [Hx|Hx].
  - rewrite filter_cons_True by done. cbn [length].
    destruct (filter (fun x => f x = b) l) as [|y ys] eqn:Hf; [cbn; lia|].
    exfalso. apply Hnot.
    assert (Hy : y ∈ filter (fun x => f x = b) l) by (rewrite Hf; left).
    apply list_elem_of_filter in Hy as [Hy Hin].
    apply list_elem_of_fmap. exists y. split; [congruence|done].
  - rewrite filter_cons_False by done. by apply IH.
Qed.

Section BodyTypeNames.
Context `{Collaborators} `{MapOrder}.

(** X26. [GenerateBodyDefinitions] does not keep the names of the body
    types apart: when two content types of one body have the same tag
    (two multipart types, or two types of the JSON family) and the schema
    of neither is a predefined type, it declares a type for each, both
    under the name made of the operation identifier, the tag and "Body". *)
Theorem GenerateBodyDefinitions_name_clash (operationID : string)
    (ref : RequestBodyRef) (bds : list RequestBodyDefinition)
    (tds : list TypeDefinition) (contentType1 contentType2 tag : string)
    (default1 default2 : bool) :
  let name := operationID +:+ tag +:+ "Body" in
  GenerateBodyDefinitions operationID (Some ref) = Ok (bds, tds) ->
  contentType1 <> contentType2 ->
  bodyTag contentType1 = Some (tag, default1) ->
  bodyTag contentType2 = Some (tag, default2) ->
  is_Some (rb_Content (rbref_Value ref) !! contentType1) ->
  is_Some (rb_Content (rbref_Value ref) !! contentType2) ->
  (forall contentType content sref schema,
     contentType = contentType1 \/ contentType = contentType2 ->
     rb_Content (rbref_Value ref) !! contentType = Some content ->
     mt_Schema content = Some sref ->
     GenerateGoSchema (Some sref) [name] = Ok schema ->
     IsGoTypeReference (sref_Ref sref) = false /\ s_RefType schema = "") ->
  (2 <= length (filter (fun td => td_TypeName td = name) tds))%nat
  /\ ~ NoDup (td_TypeName <$> tds).
Proof.
  intros name Hgen Hne Htag1 Htag2 Hin1 Hin2 Hinline.
  apply GenerateBodyDefinitions_steps in Hgen as (items & _ & -> & Hitems).
  assert (Hcount :
    (length (filter (fun k => k = contentType1 \/ k = contentType2)
               (SortedContentKeys (rb_Content (rbref_Value ref))))
     <= length (filter (fun td => td_TypeName td = name) (mjoin items.*2)))%nat).
  { clear Hin1 Hin2.
    induction Hitems as [|k [bd extra] ks items Hstep _ IH]; [done|].
    cbn [fmap list_fmap snd mjoin list_join]. rewrite filter_app, length_app.
    destruct (decide (k = contentType1 \/ k = contentType2)) as [Hk|Hk].
    - rewrite filter_cons_True by done. cbn [length].
      assert (Hextra : extra = [MkTypeDefinition name
                                  (td_Schema (default (MkTypeDefinition "" zeroSchema)
                                                (head extra)))]).
      { destruct Hstep as (_ & _ & Hstep). cbn [fst snd] in Hstep.
        assert (Htag : exists d, bodyTag k = Some (tag, d)).
        { destruct Hk as [->| ->]; eauto. }
        destruct Htag as [d Htag]. rewrite Htag in Hstep.
        destruct Hstep as (_ & _ & content & sref & resolved & Hc & Hs & _
                           & Hres & Hd).
        destruct Hres as (schema & Hschema & Hres).
        destruct (Hinline k content sref schema Hk Hc Hs Hschema)
          as [Hnoref Hnoname].
        rewrite Hnoref in Hres. subst resolved. rewrite Hnoname in Hd.
        cbn in Hd. destruct Hd as [-> _]. reflexivity. }
      rewrite Hextra. rewrite filter_cons_True by done. cbn [length].
      rewrite filter_nil. cbn [length]. exact (le_n_S _ _ IH).
    - rewrite filter_cons_False by done.
      etransitivity; [exact IH|]. apply Nat.le_add_l. }
  assert (Htwo : (2 <= length (filter (fun td => td_TypeName td = name)
                                 (mjoin items.*2)))%nat).
  { etransitivity; [|exact Hcount].
    apply two_keys_filter; [done|by apply elem_of_SortedKeys..]. }
  split; [exact Htwo|].
  intros Hnd. apply (NoDup_filter_le_one td_TypeName name) in Hnd. lia.
Qed.

End BodyTypeNames.

Lemma GenerateBodyDefinitions_name_clash_witness :
  exists bds tds,
    GenerateBodyDefinitions "Upload" (Some twoMultipartBody) = Ok (bds, tds)
    /\ (2 <= length (filter (fun td => td_TypeName td = "UploadMultipartBody")
                       tds))%nat
    /\ ~ NoDup (td_TypeName <$> tds).
Proof.
  assert (exists bds tds,
            GenerateBodyDefinitions "Upload" (Some twoMultipartBody)
            = Ok (bds, tds)) as (bds & tds & E) by (vm_compute; eauto).
  exists bds, tds. split; [exact E|].
  apply (GenerateBodyDefinitions_name_clash "Upload" twoMultipartBody bds tds
           "multipart/form-data" "multipart/mixed" "Multipart" false false E).
  - discriminate.
  - reflexivity.
  - reflexivity.
  - by eexists.
  - by eexists.
  - intros contentType content sref schema Hct Hc Hs Hschema.
    assert (Hcontent : content = jsonMedia).
    { destruct Hct as [-> | ->]; vm_compute in Hc; by injection Hc as <-. }
    subst content. injection Hs as <-.
    injection Hschema as <-. split; reflexivity.
Defined.

(** ** What the bodies of an operation support *)

Section BodySupport.
Context `{Collaborators} `{MapOrder}.

Lemma bodyStep_support operationID body contentType bd extra :
  bodyStep operationID body contentType bd extra ->
  rbd_ContentType bd = contentType
  /\ rbd_Default bd = IsMediaTypeJson contentType
  /\ rbd_NameTag bd = default "" (fst <$> bodyTag contentType).
Proof.
  intros (Hct & _ & Hstep). split; [exact Hct|].
  destruct (bodyTag contentType) as [[tag d]|] eqn:Htag.
  - destruct Hstep as (-> & -> & _). split; [|reflexivity].
    unfold bodyTag in Htag.
    destruct (IsMediaTypeJson contentType); [by injection Htag as <- <-|].
    by repeat case_match; simplify_eq.
  - destruct Hstep as (-> & -> & _). split; [|reflexivity].
    unfold bodyTag in Htag. by destruct (IsMediaTypeJson contentType).
Qed.

(** X27. Of the bodies that [GenerateBodyDefinitions] returns, the
    default ones, which get no suffix, are exactly those of the JSON
    family; the server supports a body when its content type has a tag,
    the client only when it is of the JSON family, form-encoded or plain
    text, so a multipart body is supported by the server alone; and an
    operation with these bodies has a masked content type exactly when
    some declared content type holds a star. *)
Theorem GenerateBodyDefinitions_support (operationID : string)
    (bodyOrRef : option RequestBodyRef)
    (bds : list RequestBodyDefinition) (tds : list TypeDefinition) :
  GenerateBodyDefinitions operationID bodyOrRef = Ok (bds, tds) ->
  Forall
    (fun bd =>
       let contentType := rbd_ContentType bd in
       rbd_Default bd = IsMediaTypeJson contentType
       /\ (Suffix bd = "" <-> IsMediaTypeJson contentType = true)
       /\ (IsSupported bd = true <-> is_Some (bodyTag contentType))
       /\ IsSupportedByClient bd
          = (IsMediaTypeJson contentType
             || String.eqb contentType "application/x-www-form-urlencoded"
             || String.eqb contentType "text/plain")
       /\ (IsSupportedByClient bd = true -> IsSupported bd = true)
       /\ (IsMediaTypeJson contentType = false ->
           HasPrefix contentType "multipart/" = true ->
           IsSupported bd = true /\ IsSupportedByClient bd = false)
       /\ IsFixedContentType bd = negb (ContainsRune contentType "*"))
    bds
  /\ (forall od, od_Bodies od = bds ->
        HasMaskedRequestContentTypes od = true
        <-> exists body contentType,
              bodyOrRef = Some body
              /\ is_Some (rb_Content (rbref_Value body) !! contentType)
              /\ ContainsRune contentType "*" = true).
Proof.
  destruct bodyOrRef as [ref|]; intros Hgen.
  2: { cbn in Hgen. injection Hgen as <- <-. split; [constructor|].
       intros od Hod. unfold HasMaskedRequestContentTypes. rewrite Hod. cbn.
       split; [discriminate|]. by intros (? & ? & ? & _). }
  apply GenerateBodyDefinitions_steps in Hgen as (items & -> & _ & Hitems).
  assert (Hkeys : rbd_ContentType <$> items.*1
                  = SortedContentKeys (rb_Content (rbref_Value ref))).
  { clear -Hitems. induction Hitems as [|k item ks items (Hk & _) _ IH];
      [done|]. cbn. by rewrite Hk, IH. }
  split.
  - clear Hkeys.
    induction Hitems as [|k [bd extra] ks items Hstep _ IH]; [constructor|].
    cbn [fmap list_fmap fst]. constructor; [|exact IH].
    apply bodyStep_support in Hstep as (Hct & Hdef & Htag).
    cbn [fst] in *. cbv zeta. rewrite Hct.
    unfold Suffix, IsSupported, IsSupportedByClient, IsFixedContentType.
    rewrite Hdef, Htag, Hct. clear.
    unfold bodyTag.
    destruct (IsMediaTypeJson k) eqn:Hjson; cbn;
      [split_and!; try done; try by eexists|].
    destruct (HasPrefix k "multipart/") eqn:Hmulti; cbn.
    { destruct (String.eqb_spec k "application/x-www-form-urlencoded")
        as [->|_]; [discriminate|].
      destruct (String.eqb_spec k "text/plain") as [->|_]; [discriminate|].
      split_and!; try done; try by eexists. }
    destruct (String.eqb k "application/x-www-form-urlencoded"); cbn;
      [split_and!; try done; try by eexists|].
    destruct (String.eqb k "text/plain"); cbn;
      [split_and!; try done; try by eexists|].
    split_and!; try done; by intros [? ?].
  - intros od Hod. unfold HasMaskedRequestContentTypes. rewrite Hod.
    unfold SortedContentKeys in Hkeys. rewrite existsb_exists. split.
    + intros (bd & Hbd%list_elem_of_In & Hmask).
      unfold IsFixedContentType in Hmask. rewrite negb_involutive in Hmask.
      exists ref, (rbd_ContentType bd). split; [done|]. split; [|done].
      apply (proj1 (elem_of_SortedKeys _ _)). rewrite <- Hkeys.
      apply list_elem_of_fmap. by exists bd.
    + intros (body & ct & [= <-] & Hct & Hmask).
      apply (proj2 (elem_of_SortedKeys _ _)) in Hct. rewrite <- Hkeys in Hct.
      apply list_elem_of_fmap in Hct as (bd & -> & Hbd).
      exists bd. split; [by apply list_elem_of_In|].
      unfold IsFixedContentType. by rewrite Hmask.
Qed.

End BodySupport.

Lemma GenerateBodyDefinitions_support_witness :
  exists bds tds,
    GenerateBodyDefinitions "Upload" (Some twoMultipartBody) = Ok (bds, tds)
    /\ Forall (fun bd => IsSupported bd = true <-> is_Some (bodyTag (rbd_ContentType bd))) bds.
Proof.
  assert (exists bds tds,
            GenerateBodyDefinitions "Upload" (Some twoMultipartBody)
            = Ok (bds, tds)) as (bds & tds & E) by (vm_compute; eauto).
  exists bds, tds. split; [exact E|].
  eapply Forall_impl;
    [exact (proj1 (GenerateBodyDefinitions_support _ _ _ _ E))|].
  intros bd Hbd. cbv zeta in Hbd. exact (proj1 (proj2 (proj2 Hbd))).
Defined.
